(** * ORCID Analytics: ingestion and aggregation pipeline

    A shallow embedding of the data-shaping code of the dashboard:
    - [parseCsvFile]       (services/orcidService, the Identifier Extractor),
    - [fetchOrcidData] and [generateMockData] (the Record Fetcher),
    - [handleBatchAnalyze] (App, the Batch Orchestrator),
    - [stats]              (App, the Aggregator),
    - [systemInstruction]  (components/ChatBot, the Chat Context Builder).

    Conventions of the embedding.
    - A JavaScript string is a [string]: a sequence of 8-bit code units, read
      as the Latin-1 range of UTF-16.  White space and case mapping are the
      ECMAScript ones restricted to that range.
    - Integer-valued numbers (lengths, counters, years) are [nat] or [Z];
      JavaScript holds them exactly below 2^53.  [Number_toString] and
      [parseInt] are JavaScript's on these safe integers; a property that
      depends on the notation of a year or of a count is stated for safe
      integers.  The one quotient the code computes is a binary64 value,
      modelled with [SpecFloat].
    - A counter is a plain object with [Object.prototype] behind it: a key
      that names a member of [Object.prototype] reads that member.
    - A promise is modelled by its settlement, [Promise A]. *)

From Stdlib Require Import List String Ascii ZArith NArith Lia Bool.
From Stdlib Require Import Permutation Sorted.
From Stdlib Require Import SpecFloat.
Import ListNotations.

Local Open Scope string_scope.
Local Open Scope list_scope.
Local Open Scope nat_scope.

(** String concatenation, kept apart from list append. *)
Notation "a +++ b" := (String.append a b)
  (at level 60, right associativity) : string_scope.

(* ===================================================================== *)
(** * Part I: definitions *)
(* ===================================================================== *)

(** ** Strings *)

Definition LF : ascii := ascii_of_nat 10.
Definition CR : ascii := ascii_of_nat 13.

(** ECMAScript WhiteSpace and LineTerminator code points below 256:
    TAB, LF, VT, FF, CR, SP and NBSP. *)
Definition is_ws (c : ascii) : bool :=
  let n := nat_of_ascii c in
  (n =? 9) || (n =? 10) || (n =? 11) || (n =? 12) || (n =? 13)
  || (n =? 32) || (n =? 160).

(** [\d] of a JavaScript regular expression: the ten ASCII digits. *)
Definition is_digit (c : ascii) : bool :=
  let n := nat_of_ascii c in (48 <=? n) && (n <=? 57).

(** Simple case mapping of one code unit below 256: A-Z and the Latin-1
    capitals U+00C0-U+00DE (U+00D7, the multiplication sign, excepted). *)
Definition lower_char (c : ascii) : ascii :=
  let n := nat_of_ascii c in
  if ((65 <=? n) && (n <=? 90))
     || ((192 <=? n) && (n <=? 222) && negb (n =? 215))
  then ascii_of_nat (n + 32) else c.

(** [String.prototype.toLowerCase]. *)
Fixpoint toLowerCase (s : string) : string :=
  match s with
  | EmptyString => EmptyString
  | String c s' => String (lower_char c) (toLowerCase s')
  end.

Fixpoint trimStart (s : string) : string :=
  match s with
  | EmptyString => EmptyString
  | String c s' => if is_ws c then trimStart s' else s
  end.

Fixpoint trimEnd (s : string) : string :=
  match s with
  | EmptyString => EmptyString
  | String c s' =>
      match trimEnd s' with
      | EmptyString => if is_ws c then EmptyString else String c EmptyString
      | t => String c t
      end
  end.

(** [String.prototype.trim]. *)
Definition trim (s : string) : string := trimEnd (trimStart s).

(** [s.split(sep)] for a one-character separator: never empty, the empty
    string splits into one empty field. *)
Fixpoint split_on (sep : ascii) (s : string) : list string :=
  match s with
  | EmptyString => [EmptyString]
  | String c s' =>
      if Ascii.eqb c sep then EmptyString :: split_on sep s'
      else match split_on sep s' with
           | [] => [String c EmptyString]
           | field :: fields => String c field :: fields
           end
  end.

(** [text.split(/\r?\n/)]: a line ends at LF or at CR immediately followed
    by LF; a CR on its own stays in the line. *)
Fixpoint split_lines (s : string) : list string :=
  match s with
  | EmptyString => [EmptyString]
  | String c s' =>
      let keep :=
        match split_lines s' with
        | [] => [String c EmptyString]
        | line :: lines => String c line :: lines
        end in
      if Ascii.eqb c LF then EmptyString :: split_lines s'
      else if Ascii.eqb c CR then
        match s' with
        | String c' s'' =>
            if Ascii.eqb c' LF then EmptyString :: split_lines s'' else keep
        | EmptyString => keep
        end
      else keep
  end.

(** [Array.prototype.indexOf] on an array of strings: -1 when absent. *)
Fixpoint indexOf (x : string) (l : list string) : Z :=
  match l with
  | [] => (-1)%Z
  | y :: l' =>
      if String.eqb y x then 0%Z
      else let i := indexOf x l' in
           if (i =? -1)%Z then (-1)%Z else (i + 1)%Z
  end.

(** ** Regular expressions

    The fragment the source uses: character classes, sequence, choice and
    bounded repetition, matched against the whole subject (the pattern is
    anchored by [^] and [$] and has no flags). *)

Inductive regex : Type :=
| Void : regex
| Eps : regex
| Chr : ascii -> regex
| Digit : regex
| Alt : regex -> regex -> regex
| Seq : regex -> regex -> regex.

Fixpoint times (n : nat) (r : regex) : regex :=
  match n with
  | O => Eps
  | S k => Seq r (times k r)
  end.

Fixpoint nullable (r : regex) : bool :=
  match r with
  | Void => false
  | Eps => true
  | Chr _ => false
  | Digit => false
  | Alt r1 r2 => nullable r1 || nullable r2
  | Seq r1 r2 => nullable r1 && nullable r2
  end.

(** Brzozowski derivative. *)
Fixpoint deriv (c : ascii) (r : regex) : regex :=
  match r with
  | Void => Void
  | Eps => Void
  | Chr c' => if Ascii.eqb c c' then Eps else Void
  | Digit => if is_digit c then Eps else Void
  | Alt r1 r2 => Alt (deriv c r1) (deriv c r2)
  | Seq r1 r2 =>
      if nullable r1 then Alt (Seq (deriv c r1) r2) (deriv c r2)
      else Seq (deriv c r1) r2
  end.

Fixpoint matches (r : regex) (s : string) : bool :=
  match s with
  | EmptyString => nullable r
  | String c s' => matches (deriv c r) s'
  end.

(** [/^(\d{4}-){3}\d{3}[\dX]$/] *)
Definition ORCID_RE : regex :=
  Seq (times 3 (Seq (times 4 Digit) (Chr "-")))
      (Seq (times 3 Digit) (Alt Digit (Chr "X"))).

(** ** Identifier Extractor: [parseCsvFile] *)

(** Settlement of a promise: resolved with a value or rejected with
    [new Error(message)]. *)
Inductive Promise (A : Type) : Type :=
| resolve : A -> Promise A
| reject : string -> Promise A.
Arguments resolve {A} _.
Arguments reject {A} _.

(** What the [FileReader] delivers: the text ([onload]) or a failure
    ([onerror]). *)
Inductive FileRead : Type :=
| ReadText : string -> FileRead
| ReadFailure : FileRead.

Definition MissingColumnError : string :=
  "CSV must contain an 'orcid' column.".

(** The loop [for (let i = 1; i < lines.length; i++)] over the data rows;
    the identifiers are pushed in row order. *)
Fixpoint scan_rows (orcidIndex : Z) (rows : list string) : list string :=
  match rows with
  | [] => []
  | line :: rest =>
      let columns := split_on "," line in
      if (Z.of_nat (List.length columns) >? orcidIndex)%Z then
        let id := trim (nth (Z.to_nat orcidIndex) columns EmptyString) in
        if matches ORCID_RE id then id :: scan_rows orcidIndex rest
        else scan_rows orcidIndex rest
      else scan_rows orcidIndex rest
  end.

(** [lines[0].toLowerCase().split(',').map(h => h.trim())] *)
Definition csv_header (text : string) : list string :=
  map trim (split_on "," (toLowerCase (hd EmptyString (split_lines text)))).

Definition parseCsvFile (file : FileRead) : Promise (list string) :=
  match file with
  | ReadFailure => reject "Failed to read file"
  | ReadText text =>
      let lines := split_lines text in
      let orcidIndex := indexOf "orcid" (csv_header text) in
      if (orcidIndex =? -1)%Z then reject MissingColumnError
      else resolve (scan_rows orcidIndex (tl lines))
  end.

Fixpoint all_digits (s : string) : bool :=
  match s with
  | EmptyString => true
  | String c s' => is_digit c && all_digits s'
  end.

Fixpoint last_char (s : string) : option ascii :=
  match s with
  | EmptyString => None
  | String c EmptyString => Some c
  | String _ s' => last_char s'
  end.

(** The structural pattern in the words of the specification: four groups
    of four characters separated by hyphens, the first twelve characters
    digits, the final character a digit or the letter X. *)
Definition spec_pattern (s : string) : bool :=
  match split_on "-" s with
  | [g1; g2; g3; g4] =>
      (String.length g1 =? 4) && (String.length g2 =? 4)
      && (String.length g3 =? 4) && (String.length g4 =? 4)
      && all_digits (g1 +++ g2 +++ g3)
      && match last_char g4 with
         | Some c => is_digit c || Ascii.eqb c "X"
         | None => false
         end
  | _ => false
  end.

(** The pattern the code enforces, position by position:
    [dddd-dddd-dddd-dddc] with [d] a digit and [c] a digit or X. *)
Fixpoint shape_match (classes : list (ascii -> bool)) (s : string) : bool :=
  match classes, s with
  | [], EmptyString => true
  | p :: classes', String c s' => p c && shape_match classes' s'
  | _, _ => false
  end.

Definition is_hyphen (c : ascii) : bool := Ascii.eqb c "-".
Definition is_digit_or_X (c : ascii) : bool := is_digit c || Ascii.eqb c "X".

Definition orcid_shape (s : string) : bool :=
  shape_match
    [is_digit; is_digit; is_digit; is_digit; is_hyphen;
     is_digit; is_digit; is_digit; is_digit; is_hyphen;
     is_digit; is_digit; is_digit; is_digit; is_hyphen;
     is_digit; is_digit; is_digit; is_digit_or_X] s.

(** The accepted identifiers as the specification describes the result:
    for each data row in file order, the cell at the identifier column when
    the row has one and the trimmed cell has the shape. *)
Definition accepted_cell (idx : nat) (line : string) : list string :=
  match nth_error (split_on "," line) idx with
  | Some cell => if orcid_shape (trim cell) then [trim cell] else []
  | None => []
  end.

(** ** Numbers and their decimal notation *)

(** A JavaScript number that is an integer or NaN: what [parseInt] returns
    and what the year fields hold.  Integers are exact here; JavaScript
    holds the safe integers (magnitude below 2^53) exactly and rounds
    beyond. *)
Inductive number : Type :=
| NaN : number
| Num : Z -> number.

(** ToBoolean on a number: NaN and zero are falsy. *)
Definition number_truthy (n : number) : bool :=
  match n with
  | NaN => false
  | Num z => negb (z =? 0)%Z
  end.

Definition digit_char (d : N) : ascii := ascii_of_N (48 + d).

(** The decimal digits of [n], most significant first, pushed in front of
    [acc]; [fuel] bounds the number of digits. *)
Fixpoint digits_loop (fuel : nat) (n : N) (acc : string) : string :=
  match fuel with
  | O => acc
  | S fuel' =>
      let acc' := String (digit_char (n mod 10)) acc in
      if (n <? 10)%N then acc' else digits_loop fuel' (n / 10) acc'
  end.

Definition decimal_of_N (n : N) : string :=
  digits_loop (S (N.to_nat (N.log2 n))) n EmptyString.

(** Number::toString for NaN and for an integer: its decimal digits, which
    is what JavaScript writes for a safe integer (beyond 2^53 it writes the
    shortest digits that read back, and from 10^21 on an exponent). *)
Definition Number_toString (n : number) : string :=
  match n with
  | NaN => "NaN"
  | Num z =>
      if (z <? 0)%Z then String "-" (decimal_of_N (Z.abs_N z))
      else decimal_of_N (Z.abs_N z)
  end.

(** Value of a character as a digit of radix up to 36. *)
Definition digit_value (c : ascii) : option N :=
  let n := N_of_ascii c in
  if ((48 <=? n) && (n <=? 57))%N then Some (n - 48)%N
  else if ((97 <=? n) && (n <=? 122))%N then Some (n - 87)%N
  else if ((65 <=? n) && (n <=? 90))%N then Some (n - 55)%N
  else None.

Definition is_radix_digit (R : N) (c : ascii) : bool :=
  match digit_value c with
  | Some d => (d <? R)%N
  | None => false
  end.

(** The longest prefix of radix-[R] digits. *)
Fixpoint take_digits (R : N) (s : string) : string :=
  match s with
  | EmptyString => EmptyString
  | String c s' =>
      if is_radix_digit R c then String c (take_digits R s') else EmptyString
  end.

Fixpoint digits_value (R : N) (s : string) (acc : N) : N :=
  match s with
  | EmptyString => acc
  | String c s' =>
      match digit_value c with
      | Some d => digits_value R s' (acc * R + d)%N
      | None => acc
      end
  end.

(** [parseInt(string, radix)]; [radix = None] is the one-argument call.
    Leading white space is skipped, a sign is read, a [0x] prefix selects
    radix 16 when the radix is absent, zero or 16, and the longest prefix of
    digits is the value; no digit at all gives NaN.  The value is exact
    here; JavaScript rounds it to a number when it is no safe integer. *)
Definition parseInt (s : string) (radix : option N) : number :=
  let S0 := trimStart s in
  let '(negative, S1) :=
    match S0 with
    | String c rest =>
        if Ascii.eqb c "-" then (true, rest)
        else if Ascii.eqb c "+" then (false, rest)
        else (false, S0)
    | EmptyString => (false, S0)
    end in
  let R0 := match radix with Some r => r | None => 0%N end in
  if (negb (R0 =? 0) && ((R0 <? 2) || (36 <? R0)))%N then NaN
  else
    let stripPrefix := ((R0 =? 0) || (R0 =? 16))%N in
    let R1 := if (R0 =? 0)%N then 10%N else R0 in
    let '(R, S2) :=
      match S1 with
      | String c (String x rest) =>
          if stripPrefix && Ascii.eqb c "0"
             && (Ascii.eqb x "x" || Ascii.eqb x "X")
          then (16%N, rest) else (R1, S1)
      | _ => (R1, S1)
      end in
    match take_digits R S2 with
    | EmptyString => NaN
    | ds =>
        let v := Z.of_N (digits_value R ds 0) in
        Num (if negative then (- v)%Z else v)
    end.

(** ** Data model ([types.ts]) *)

(** [type] is declared a string; the aggregator also guards against a
    missing one, so it is optional here ([None] is null or undefined).
    [putCode] and [doi] are whatever the response holds, possibly absent. *)
Record OrcidWork : Type := {
  title : string;
  year : option number;
  type : option string;
  journal : option string;
  doi : option string;
  putCode : option string
}.

Record OrcidProfileData : Type := {
  orcidId : string;
  fullName : string;
  works : list OrcidWork
}.

(** What a property of a counter object holds: a number or, once a member
    of [Object.prototype] was read under its key, a string. *)
Inductive slot : Type :=
| Count : nat -> slot
| Text : string -> slot.

(** An entry [{ year, count }] or [{ type, count }] is a pair; the count
    is what the counter object held under the key. *)
Record AnalysisStats : Type := {
  totalResearchers : nat;
  totalPublications : nat;
  avgPublications : spec_float;
  publicationsByYear : list (number * slot);
  publicationsByType : list (string * slot);
  processedProfiles : list OrcidProfileData
}.

(** ** Objects used as counters

    [const yearCounts = {}] and [const typeCounts = {}]: a plain object,
    that is its own properties in the order [Object.entries] lists them
    (array-index keys in ascending numeric order, then the other keys in
    order of creation), with [Object.prototype] behind it. *)

Definition obj : Type := list (string * slot).

(** An array index: a canonical numeric string of an integer in
    [0, 2^32 - 2]. *)
Definition array_index (key : string) : option N :=
  match take_digits 10 key with
  | EmptyString => None
  | ds =>
      let i := digits_value 10 ds 0 in
      if String.eqb (decimal_of_N i) key && (i <? 4294967295)%N
      then Some i else None
  end.

(** The own property of a key, if any. *)
Fixpoint own_get {V : Type} (o : list (string * V)) (key : string)
  : option V :=
  match o with
  | [] => None
  | (k, v) :: o' => if String.eqb k key then Some v else own_get o' key
  end.

Fixpoint own_replace {V : Type} (o : list (string * V)) (key : string)
  (v : V) : list (string * V) :=
  match o with
  | [] => []
  | (k, v') :: o' =>
      if String.eqb k key then (k, v) :: o'
      else (k, v') :: own_replace o' key v
  end.

(** A new array-index key goes before the first key that is not an array
    index or has a larger index. *)
Fixpoint own_insert_index {V : Type} (i : N) (e : string * V)
  (o : list (string * V)) : list (string * V) :=
  match o with
  | [] => [e]
  | (k, v) :: o' =>
      match array_index k with
      | Some j =>
          if (i <? j)%N then e :: o else (k, v) :: own_insert_index i e o'
      | None => e :: o
      end
  end.

(** Writing an own property: an existing one keeps its place, a new one
    is created. *)
Definition own_set {V : Type} (o : list (string * V)) (key : string)
  (v : V) : list (string * V) :=
  match own_get o key with
  | Some _ => own_replace o key v
  | None =>
      match array_index key with
      | Some i => own_insert_index i (key, v) o
      | None => o ++ [(key, v)]
      end
  end.

(** The members of [Object.prototype], each with the string it becomes as
    an operand of [+]: the source text of a built-in function, written as
    V8 writes it, and ["[object Object]"] for the object that the accessor
    [__proto__] returns. *)
Definition native_code (name : string) : string :=
  "function " +++ name +++ "() { [native code] }".

Definition Object_prototype : list (string * string) :=
  [ ("constructor", native_code "Object");
    ("__defineGetter__", native_code "__defineGetter__");
    ("__defineSetter__", native_code "__defineSetter__");
    ("hasOwnProperty", native_code "hasOwnProperty");
    ("__lookupGetter__", native_code "__lookupGetter__");
    ("__lookupSetter__", native_code "__lookupSetter__");
    ("isPrototypeOf", native_code "isPrototypeOf");
    ("propertyIsEnumerable", native_code "propertyIsEnumerable");
    ("toString", native_code "toString");
    ("valueOf", native_code "valueOf");
    ("__proto__", "[object Object]");
    ("toLocaleString", native_code "toLocaleString") ].

(** What [o[key]] finds, when it is not undefined. *)
Inductive property : Type :=
| Own : slot -> property
| Inherited : string -> property.

(** [o[key]]: the own property, else the member of [Object.prototype]. *)
Definition obj_get (o : obj) (key : string) : option property :=
  match own_get o key with
  | Some v => Some (Own v)
  | None =>
      match own_get Object_prototype key with
      | Some text => Some (Inherited text)
      | None => None
      end
  end.

(** [o[key] = v] for a number or string [v]: the setter behind
    [__proto__] ignores such a value and no property is created. *)
Definition obj_set (o : obj) (key : string) (v : slot) : obj :=
  if String.eqb key "__proto__" then o else own_set o key v.

(** [(x || 0) + 1]: undefined, zero and the empty string are falsy; a
    string or an inherited member has the 1 appended. *)
Definition or_zero_plus_one (x : option property) : slot :=
  match x with
  | None => Count (0 + 1)
  | Some (Own (Count v)) => Count ((if v =? 0 then 0 else v) + 1)
  | Some (Own (Text EmptyString)) => Count (0 + 1)
  | Some (Own (Text s)) => Text (s +++ "1")
  | Some (Inherited text) => Text (text +++ "1")
  end.

(** [o[key] = (o[key] || 0) + 1] *)
Definition obj_incr (o : obj) (key : string) : obj :=
  obj_set o key (or_zero_plus_one (obj_get o key)).

(** ToNumber of what a counter holds.  The strings that arise begin with
    the text of a member of [Object.prototype], which is no numeric
    literal. *)
Definition slot_number (v : slot) : number :=
  match v with
  | Count n => Num (Z.of_nat n)
  | Text _ => NaN
  end.

(** ** [Array.prototype.sort] with a comparison function

    The sort is stable; for a consistent comparison function the result
    does not depend on the algorithm, so insertion sort stands for it.
    A comparison result that is NaN counts as zero.  When a string sits
    among the counts of the type histogram the comparison function is not
    consistent and the language leaves the order to the implementation:
    the properties of the order are stated for histograms of numbers. *)

Fixpoint sort_insert {A : Type} (cmp : A -> A -> Z) (x : A) (l : list A)
  : list A :=
  match l with
  | [] => [x]
  | y :: l' =>
      if (cmp x y <=? 0)%Z then x :: l else y :: sort_insert cmp x l'
  end.

Definition Array_sort {A : Type} (cmp : A -> A -> Z) (l : list A) : list A :=
  fold_right (sort_insert cmp) [] l.

Definition number_sub (a b : number) : number :=
  match a, b with
  | Num x, Num y => Num (x - y)
  | _, _ => NaN
  end.

Definition compare_result (v : number) : Z :=
  match v with
  | NaN => 0%Z
  | Num z => z
  end.

(** ** Aggregator: [stats] *)

(** The binary64 number that holds a count. *)
Definition float_of_nat (n : nat) : spec_float :=
  binary_normalize 53 1024 (Z.of_nat n) 0 false.

(** [a / b] on numbers. *)
Definition float_div (a b : spec_float) : spec_float := SFdiv 53 1024 a b.

Record Counters : Type := {
  totalPubs : nat;
  yearCounts : obj;
  typeCounts : obj
}.

(** Body of [profile.works.forEach(work => ...)]. *)
Definition count_work (c : Counters) (work : OrcidWork) : Counters :=
  let years :=
    match year work with
    | Some y =>
        if number_truthy y then obj_incr (yearCounts c) (Number_toString y)
        else yearCounts c
    | None => yearCounts c
    end in
  let type_ :=
    match type work with
    | Some (String a t) => String a t
    | _ => "Other"
    end in
  {| totalPubs := totalPubs c;
     yearCounts := years;
     typeCounts := obj_incr (typeCounts c) type_ |}.

(** Body of [data.forEach(profile => ...)]. *)
Definition count_profile (c : Counters) (profile : OrcidProfileData)
  : Counters :=
  fold_left count_work (works profile)
    {| totalPubs := totalPubs c + List.length (works profile);
       yearCounts := yearCounts c;
       typeCounts := typeCounts c |}.

Definition stats (data : list OrcidProfileData) : option AnalysisStats :=
  if List.length data =? 0 then None
  else
    let totalResearchers_ := List.length data in
    let c := fold_left count_profile data
               {| totalPubs := 0; yearCounts := []; typeCounts := [] |} in
    let byYear :=
      Array_sort
        (fun a b => compare_result (number_sub (fst a) (fst b)))
        (map (fun e => (parseInt (fst e) None, snd e)) (yearCounts c)) in
    let byType :=
      Array_sort
        (fun a b =>
           compare_result
             (number_sub (slot_number (snd b)) (slot_number (snd a))))
        (typeCounts c) in
    Some {| totalResearchers := totalResearchers_;
            totalPublications := totalPubs c;
            avgPublications :=
              if 0 <? totalResearchers_
              then float_div (float_of_nat (totalPubs c))
                             (float_of_nat totalResearchers_)
              else S754_zero false;
            publicationsByYear := byYear;
            publicationsByType := byType;
            processedProfiles := data |}.

(** *** Vocabulary of the aggregator's specification *)

Definition all_works (data : list OrcidProfileData) : list OrcidWork :=
  flat_map works data.

(** The type under which a work is counted. *)
Definition type_label (work : OrcidWork) : string :=
  match type work with
  | Some t => if String.eqb t "" then "Other" else t
  | None => "Other"
  end.

(** The year under which a work is counted, if any: a year that is null,
    NaN or zero is not counted. *)
Definition counted_year (work : OrcidWork) : option Z :=
  match year work with
  | Some (Num z) => if (z =? 0)%Z then None else Some z
  | _ => None
  end.

Definition occurrences (k : string) (ks : list string) : nat :=
  count_occ string_dec ks k.

Definition works_in_year (z : Z) (ws : list OrcidWork) : nat :=
  List.length
    (filter (fun w => match counted_year w with
                      | Some z' => (z' =? z)%Z
                      | None => false
                      end) ws).

(** The distinct elements in order of first appearance. *)
Fixpoint first_seen (ks : list string) : list string :=
  match ks with
  | [] => []
  | k :: ks' =>
      k :: filter (fun k' => negb (String.eqb k' k)) (first_seen ks')
  end.

Definition is_array_index (k : string) : bool :=
  match array_index k with Some _ => true | None => false end.

(** A counter as its declared type [Record<string, number>] describes
    it: own properties only, every one a number. *)
Definition plain : Type := list (string * nat).

Definition plain_incr (o : plain) (key : string) : plain :=
  let old :=
    match own_get o key with
    | Some v => if v =? 0 then 0 else v
    | None => 0
    end in
  own_set o key (old + 1).

Definition sum_plain {K : Type} (l : list (K * nat)) : nat :=
  fold_right (fun e acc => snd e + acc) 0 l.

(** The entries of a histogram whose counts are the numbers of [h]. *)
Definition counts {K : Type} (h : list (K * nat)) : list (K * slot) :=
  map (fun e => (fst e, Count (snd e))) h.

(** The sum of the counts of a histogram; an entry that holds a string
    adds nothing. *)
Definition sum_counts {K : Type} (l : list (K * slot)) : nat :=
  fold_right (fun e acc => match snd e with
                           | Count n => n + acc
                           | Text _ => acc
                           end) 0 l.

(** A key that names a member of [Object.prototype]. *)
Definition inherited (key : string) : bool :=
  match own_get Object_prototype key with
  | Some _ => true
  | None => false
  end.

(** The counter object after incrementing the keys [ks] in turn. *)
Definition obj_tally (ks : list string) : obj := fold_left obj_incr ks [].

(** An integer that a number holds exactly: [Number.isSafeInteger]. *)
Definition safe_integer (z : Z) : Prop :=
  (- (2 ^ 53 - 1) <= z <= 2 ^ 53 - 1)%Z.

(** A work whose year, if a number at all, is a safe integer. *)
Definition safe_year (w : OrcidWork) : Prop :=
  match year w with
  | Some (Num z) => safe_integer z
  | _ => True
  end.

(** The keys under which the works are counted, in the order of the two
    nested loops. *)
Definition year_keys (ws : list OrcidWork) : list string :=
  flat_map (fun w => match counted_year w with
                     | Some z => [Number_toString (Num z)]
                     | None => []
                     end) ws.

Definition type_keys (ws : list OrcidWork) : list string :=
  map type_label ws.

(** The plain counter after incrementing the keys [ks] in turn. *)
Definition tally (ks : list string) : plain := fold_left plain_incr ks [].

(** The value read with the [|| 0] default. *)
Definition plain_get0 (o : plain) (key : string) : nat :=
  match own_get o key with Some v => v | None => 0 end.

(** Property order of a plain object: [k] is listed before [k']. *)
Definition key_precedes (k k' : string) : Prop :=
  match array_index k, array_index k' with
  | Some i, Some j => (i < j)%N
  | Some _, None => True
  | None, Some _ => False
  | None, None => True
  end.

(** Ascending numeric order of array-index keys. *)
Definition index_lt (k k' : string) : Prop :=
  match array_index k, array_index k' with
  | Some i, Some j => (i < j)%N
  | _, _ => False
  end.

Definition not_index (k : string) : bool := negb (is_array_index k).

Definition nonindex_keys (o : plain) : list string :=
  filter not_index (map fst o).

Definition mem (k : string) (l : list string) : bool :=
  existsb (String.eqb k) l.

(** Order on the numbers of a year histogram. *)
Definition number_lt (a b : number) : Prop :=
  match a, b with
  | Num x, Num y => (x < y)%Z
  | _, _ => False
  end.

Definition year_key (e : number * nat) : Z := compare_result (fst e).

Definition count_key (e : string * nat) : Z := (- Z.of_nat (snd e))%Z.

(** A regular expression with no match at all. *)
Fixpoint dead (r : regex) : bool :=
  match r with
  | Void => true
  | Alt r1 r2 => dead r1 && dead r2
  | Seq r1 r2 => dead r1 || dead r2
  | _ => false
  end.

(** ** Record Fetcher: [generateMockData] and [fetchOrcidData] *)

(** The decimal notation of a count or an index in a template literal. *)
Definition show_nat (n : nat) : string := Number_toString (Num (Z.of_nat n)).

Definition mock_years : list Z := [2018; 2019; 2020; 2021; 2022; 2023; 2024]%Z.

Definition mock_types : list string :=
  ["JOURNAL_ARTICLE"; "CONFERENCE_PAPER"; "BOOK_CHAPTER"; "BOOK"].

(** The random source: [rnd i n] is the value of
    [Math.floor(Math.random() * n)] at the [i]-th call of [Math.random].
    The generator draws the length first, then for each work its year and
    its type. *)
Definition mock_work (rnd : nat -> nat -> nat) (orcid : string) (i : nat)
  : OrcidWork :=
  {| title := "Sample Research Publication " +++ show_nat (i + 1)
              +++ " for " +++ orcid;
     year := option_map Num
               (nth_error mock_years
                  (rnd (1 + 2 * i) (List.length mock_years)));
     type := nth_error mock_types
               (rnd (2 + 2 * i) (List.length mock_types));
     journal := None;
     doi := Some ("10.1000/mock." +++ show_nat i);
     putCode := Some ("mock-" +++ show_nat i) |}.

Definition generateMockData (rnd : nat -> nat -> nat) (orcid : string)
  : OrcidProfileData :=
  {| orcidId := orcid;
     fullName := "Researcher " +++ substring 0 4 orcid;
     works := map (mock_work rnd orcid) (seq 0 (rnd 0 20 + 5)) |}.

(** The registry's answer to [GET .../works], in the shape the code reads;
    every member may be missing ([None] is undefined or null). *)
Record Value : Type := { value : option string }.
Record Title : Type := { title_title : option Value }.
Record PublicationDate : Type := { date_year : option Value }.
Record ExternalId : Type := {
  external_id_type : option string;
  external_id_value : option string
}.
Record ExternalIds : Type := { external_id : option (list ExternalId) }.
Record WorkSummary : Type := {
  summary_title : option Title;
  publication_date : option PublicationDate;
  summary_type : option string;
  put_code : option string;
  external_ids : option ExternalIds
}.
Record WorkGroup : Type := { work_summary : option (list WorkSummary) }.
Record WorksResponse : Type := { group : option (list WorkGroup) }.

(** What [fetch] and [response.json()] deliver: a network failure, or a
    status with a body that parses or does not. *)
Inductive FetchOutcome : Type :=
| NetworkFailure : FetchOutcome
| Responded : nat -> option WorksResponse -> FetchOutcome.

(** What the [try] block can throw. *)
Inductive Exn : Type :=
| NetworkError : Exn
| NotFoundError : string -> Exn
| FetchError : string -> Exn
| SyntaxError : Exn
| TypeError : Exn.

(** [response.ok] *)
Definition response_ok (status : nat) : bool :=
  (200 <=? status) && (status <=? 299).

(** ToBoolean on an optional string: missing and empty are falsy. *)
Definition truthy (s : option string) : option string :=
  match s with
  | Some (String c t) => Some (String c t)
  | _ => None
  end.

(** [a?.b]: absent when [a] is. *)
Definition chain {A B : Type} (a : option A) (f : A -> option B) : option B :=
  match a with
  | Some x => f x
  | None => None
  end.

(** [s.replace(/_/g, ' ')] *)
Fixpoint replace_underscores (s : string) : string :=
  match s with
  | EmptyString => EmptyString
  | String c s' =>
      String (if Ascii.eqb c "_" then " "%char else c) (replace_underscores s')
  end.

Definition is_doi (id : ExternalId) : bool :=
  match external_id_type id with
  | Some t => String.eqb t "doi"
  | None => false
  end.

(** The object literal built from one summary. *)
Definition work_of_summary (summary : WorkSummary) : OrcidWork :=
  let yearStr := chain (chain (publication_date summary) date_year) value in
  {| title :=
       match truthy (chain (chain (summary_title summary) title_title) value)
       with
       | Some t => t
       | None => "Untitled"
       end;
     year :=
       match truthy yearStr with
       | Some y => Some (parseInt y (Some 10%N))
       | None => None
       end;
     type :=
       match truthy (summary_type summary) with
       | Some t => Some (replace_underscores t)
       | None => Some "UNKNOWN"
       end;
     journal := None;
     doi := chain (chain (chain (external_ids summary) external_id)
                     (find is_doi))
              external_id_value;
     putCode := put_code summary |}.

(** [group['work-summary'][0]] followed by the reads of the summary: a
    group with no [work-summary] or an empty one raises a TypeError. *)
Definition work_of_group (g : WorkGroup) : Exn + OrcidWork :=
  match work_summary g with
  | Some (summary :: _) => inr (work_of_summary summary)
  | _ => inl TypeError
  end.

(** [groups.map(...)]: the first exception ends the traversal. *)
Fixpoint works_of_groups (groups : list WorkGroup) : Exn + list OrcidWork :=
  match groups with
  | [] => inr []
  | g :: rest =>
      match work_of_group g with
      | inl e => inl e
      | inr w =>
          match works_of_groups rest with
          | inl e => inl e
          | inr ws => inr (w :: ws)
          end
      end
  end.

(** The [try] block of [fetchOrcidData]. *)
Definition fetch_attempt (cleanId : string) (net : FetchOutcome)
  : Exn + OrcidProfileData :=
  match net with
  | NetworkFailure => inl NetworkError
  | Responded status body =>
      if negb (response_ok status) then
        if status =? 404 then inl (NotFoundError cleanId)
        else inl (FetchError cleanId)
      else
        match body with
        | None => inl SyntaxError
        | Some data =>
            match works_of_groups
                    (match group data with Some gs => gs | None => [] end)
            with
            | inl e => inl e
            | inr ws =>
                inr {| orcidId := cleanId;
                       fullName := "Researcher " +++ cleanId;
                       works := ws |}
            end
        end
  end.

(** How a call of [fetchOrcidData] ends: the settlement of its promise,
    the timer it waited on (milliseconds, 0 for none) and the exception it
    reported with [console.warn], if any. *)
Record FetchRun : Type := {
  settled : Promise OrcidProfileData;
  delay : nat;
  warned : option Exn
}.

Definition fetchOrcidData (rnd : nat -> nat -> nat) (orcidId : string)
  (net : FetchOutcome) : FetchRun :=
  let cleanId := trim orcidId in
  match fetch_attempt cleanId net with
  | inr profile =>
      {| settled := resolve profile; delay := 0; warned := None |}
  | inl error =>
      {| settled := resolve (generateMockData rnd cleanId);
         delay := 500;
         warned := Some error |}
  end.

(** The mapping of one summary in the words of the specification: a
    member is used when present and defaulted when absent. *)
Definition spec_work_of_summary (summary : WorkSummary) : OrcidWork :=
  {| title :=
       match chain (chain (summary_title summary) title_title) value with
       | Some t => t
       | None => "Untitled"
       end;
     year :=
       match chain (chain (publication_date summary) date_year) value with
       | Some y => Some (parseInt y (Some 10%N))
       | None => None
       end;
     type :=
       match summary_type summary with
       | Some t => Some (replace_underscores t)
       | None => Some "UNKNOWN"
       end;
     journal := None;
     doi := chain (chain (chain (external_ids summary) external_id)
                     (find is_doi))
              external_id_value;
     putCode := put_code summary |}.

(** ** Batch Orchestrator: [handleBatchAnalyze] *)

Record AppState : Type := {
  csvFile : option FileRead;
  loading : bool;
  error : option string;
  data : list OrcidProfileData
}.

(** What the orchestrator does to the outside: calls of the fetcher and
    console diagnostics, in order. *)
Inductive Event : Type :=
| FetchCall : string -> Event
| ConsoleWarn : string -> Event.

Definition EmptyBatchError : string := "No valid ORCID IDs found in file.".

Definition skip_message (id : string) : string :=
  "Skipping " +++ id +++ " due to error".

(** The loop [for (const id of ids)]; [fetcher k id] is the settlement of
    the [k]-th call of the fetcher, awaited before the next call is made. *)
Fixpoint batch_loop (fetcher : nat -> string -> Promise OrcidProfileData)
  (k : nat) (ids : list string) (results : list OrcidProfileData)
  (events : list Event) : list OrcidProfileData * list Event :=
  match ids with
  | [] => (results, events)
  | id :: rest =>
      match fetcher k id with
      | resolve result =>
          batch_loop fetcher (S k) rest (results ++ [result])
            (events ++ [FetchCall id])
      | reject _ =>
          batch_loop fetcher (S k) rest results
            (events ++ [FetchCall id; ConsoleWarn (skip_message id)])
      end
  end.

(** [err.message || fallback] *)
Definition message_or (msg fallback : string) : string :=
  match msg with
  | EmptyString => fallback
  | _ => msg
  end.

Definition handleBatchAnalyze
  (fetcher : nat -> string -> Promise OrcidProfileData) (st : AppState)
  : AppState * list Event :=
  match csvFile st with
  | None => (st, [])
  | Some file =>
      match parseCsvFile file with
      | reject msg =>
          ({| csvFile := csvFile st; loading := false;
              error := Some (message_or msg "Failed to process file");
              data := [] |}, [])
      | resolve ids =>
          if List.length ids =? 0 then
            ({| csvFile := csvFile st; loading := false;
                error := Some (message_or EmptyBatchError
                                 "Failed to process file");
                data := [] |}, [])
          else
            let '(results, events) := batch_loop fetcher 0 ids [] [] in
            ({| csvFile := csvFile st; loading := false; error := None;
                data := results |}, events)
      end
  end.

(** The profiles and the events in the words of the specification: one
    call per identifier in order, the resolved ones kept, a diagnostic for
    each rejected one. *)
Fixpoint obtained (fetcher : nat -> string -> Promise OrcidProfileData)
  (k : nat) (ids : list string) : list OrcidProfileData :=
  match ids with
  | [] => []
  | id :: rest =>
      match fetcher k id with
      | resolve p => p :: obtained fetcher (S k) rest
      | reject _ => obtained fetcher (S k) rest
      end
  end.

Definition fetch_calls (events : list Event) : list string :=
  flat_map (fun e => match e with FetchCall id => [id] | _ => [] end) events.

Definition warnings (events : list Event) : list string :=
  flat_map (fun e => match e with ConsoleWarn m => [m] | _ => [] end) events.

Fixpoint skipped (fetcher : nat -> string -> Promise OrcidProfileData)
  (k : nat) (ids : list string) : list string :=
  match ids with
  | [] => []
  | id :: rest =>
      match fetcher k id with
      | resolve _ => skipped fetcher (S k) rest
      | reject _ => id :: skipped fetcher (S k) rest
      end
  end.

(** The events of a strictly sequential run: each call is followed at once
    by the diagnostic of its rejection, if it is rejected, and only then
    comes the next call; [k] numbers the first call. *)
Fixpoint sequential_trace
  (fetcher : nat -> string -> Promise OrcidProfileData)
  (k : nat) (ids : list string) : list Event :=
  match ids with
  | [] => []
  | id :: rest =>
      FetchCall id
      :: match fetcher k id with
         | resolve _ => []
         | reject _ => [ConsoleWarn ("Skipping " +++ id +++ " due to error")]
         end
      ++ sequential_trace fetcher (S k) rest
  end.

(** *** Vocabulary of the fetcher's specification *)

Definition groups_of (data : WorksResponse) : list WorkGroup :=
  match group data with Some gs => gs | None => [] end.

Definition title_value (summary : WorkSummary) : option string :=
  chain (chain (summary_title summary) title_title) value.

Definition year_value (summary : WorkSummary) : option string :=
  chain (chain (publication_date summary) date_year) value.

Definition external_id_list (summary : WorkSummary)
  : option (list ExternalId) :=
  chain (external_ids summary) external_id.

(** A group the code can read a first summary from. *)
Definition first_summary (g : WorkGroup) : option WorkSummary :=
  match work_summary g with
  | Some (summary :: _) => Some summary
  | _ => None
  end.

(** The conditions under which the [try] block throws. *)
Definition fetch_fails (net : FetchOutcome) : Prop :=
  match net with
  | NetworkFailure => True
  | Responded status body =>
      response_ok status = false
      \/ match body with
         | None => True
         | Some data =>
             exists g, In g (groups_of data) /\ first_summary g = None
         end
  end.

Definition sample_summary (t y ty : option string) : WorkSummary :=
  {| summary_title := Some {| title_title := Some {| value := t |} |};
     publication_date := Some {| date_year := Some {| value := y |} |};
     summary_type := ty;
     put_code := Some "1234";
     external_ids :=
       Some {| external_id :=
                 Some [ {| external_id_type := Some "eid";
                           external_id_value := Some "2-s2.0-1" |};
                        {| external_id_type := Some "doi";
                           external_id_value := Some "10.1000/a" |};
                        {| external_id_type := Some "doi";
                           external_id_value := Some "10.1000/b" |} ] |} |}.

Definition sample_response (summaries : list WorkSummary) : WorksResponse :=
  {| group :=
       Some (map (fun s => {| work_summary := Some [s] |}) summaries) |}.

(** ** Chat Context Builder: the system instruction of [ChatBot] *)

(** [x.toFixed(1)]: the integer [n] nearest to [10 * x], the larger one on
    a tie, written with a point before its last digit.  From 10^21 on
    JavaScript switches to exponent notation, which is not modelled;
    quotients of array lengths stay far below. *)
Definition tenths (m : positive) (e : Z) : N :=
  if (0 <=? e)%Z then (10 * Npos m * 2 ^ Z.to_N e)%N
  else
    let k := Z.to_N (- e) in
    ((20 * Npos m + 2 ^ k) / 2 ^ (k + 1))%N.

Definition with_point (digits : string) : string :=
  let padded :=
    if String.length digits <=? 1 then "0" +++ digits else digits in
  let k := String.length padded in
  substring 0 (k - 1) padded +++ "." +++ substring (k - 1) 1 padded.

Definition toFixed1 (x : spec_float) : string :=
  match x with
  | S754_nan => "NaN"
  | S754_infinity s => if s then "-Infinity" else "Infinity"
  | S754_zero _ => "0.0"
  | S754_finite s m e =>
      (if s then "-" else "") +++ with_point (decimal_of_N (tenths m e))
  end.

(** [l.slice(start, end)] for [0 <= start <= end]. *)
Definition Array_slice {A : Type} (start end_ : nat) (l : list A) : list A :=
  firstn (end_ - start) (skipn start l).

(** [l.join(sep)]: the separator goes before every element but the first. *)
Fixpoint join_from (sep : string) (R : string) (k : nat) (l : list string)
  : string :=
  match l with
  | [] => R
  | x :: rest =>
      join_from sep ((if k =? 0 then R else R +++ sep) +++ x) (S k) rest
  end.

Definition Array_join (sep : string) (l : list string) : string :=
  join_from sep EmptyString 0 l.

Definition nl : string := String LF EmptyString.

Definition indent : string := "        ".

Definition preamble : string :=
  "You are a helpful research assistant bot analyzing academic publication data.".

(** A count inside a template literal: ToString of what the entry holds. *)
Definition show_slot (v : slot) : string :=
  match v with
  | Count n => show_nat n
  | Text t => t
  end.

(** The value of [systemInstruction] when the chat session is created. *)
Definition systemInstruction (contextData : option AnalysisStats) : string :=
  match contextData with
  | None => preamble
  | Some ctx =>
      preamble
      +++ (nl +++ indent +++ nl +++ nl +++ "CURRENT DATA CONTEXT:"
           +++ nl +++ indent +++ "- Total Researchers Analyzed: "
           +++ show_nat (totalResearchers ctx)
           +++ nl +++ indent +++ "- Total Publications: "
           +++ show_nat (totalPublications ctx)
           +++ nl +++ indent +++ "- Average Publications per Researcher: "
           +++ toFixed1 (avgPublications ctx)
           +++ nl +++ indent +++ "- Top Years: "
           +++ Array_join ", "
                 (map (fun y => Number_toString (fst y) +++ " ("
                                +++ show_slot (snd y) +++ ")")
                      (Array_slice 0 3 (publicationsByYear ctx)))
           +++ nl +++ indent +++ "- Top Types: "
           +++ Array_join ", "
                 (map (fun t => fst t +++ " (" +++ show_slot (snd t) +++ ")")
                      (Array_slice 0 3 (publicationsByType ctx)))
           +++ nl +++ indent
           +++ nl +++ indent
           +++ "Use this data to answer user questions about the specific analysis currently on screen. Be concise and professional."
           +++ nl +++ indent)
  end.

Record ChatConfig : Type := {
  model : string;
  config_systemInstruction : string
}.

(** The effect: a session is created only when the API key is set. *)
Definition create_chat (API_KEY : option string)
  (contextData : option AnalysisStats) : option ChatConfig :=
  match truthy API_KEY with
  | Some _ =>
      Some {| model := "gemini-3-pro-preview";
              config_systemInstruction := systemInstruction contextData |}
  | None => None
  end.

(** *** Vocabulary of the builder's specification *)

(** "label (count)" *)
Definition entry_label (label : string) (count : slot) : string :=
  label +++ " (" +++ show_slot count +++ ")".

(** The text of the briefing, spelled out: every line of the template
    starts after a line feed and eight spaces. *)
Definition line_start : string := String "010"%char "        ".

Definition briefing_head : string :=
  line_start
  +++ String "010"%char (String "010"%char "CURRENT DATA CONTEXT:").

Definition briefing_line (caption : string) (text : string) : string :=
  line_start +++ "- " +++ caption +++ ": " +++ text.

Definition briefing_tail : string :=
  line_start +++ line_start
  +++ "Use this data to answer user questions about the specific analysis currently on screen. Be concise and professional."
  +++ line_start.

(** Decimal numerals, told by what they denote.  [numeral s n]: [s] is
    the decimal numeral of [n], digits only and without a leading zero. *)
Definition no_leading_zero (s : string) : Prop :=
  match s with
  | String c (String _ _) => c <> "0"%char
  | _ => True
  end.

Definition numeral (s : string) (n : N) : Prop :=
  all_digits s = true /\ s <> EmptyString /\ no_leading_zero s
  /\ digits_value 10 s 0 = n.

(** [s] is the text of a number: "NaN", or a numeral with its sign. *)
Definition number_text (s : string) (y : number) : Prop :=
  match y with
  | NaN => s = "NaN"
  | Num z =>
      exists ds,
        numeral ds (Z.abs_N z)
        /\ s = if (z <? 0)%Z then String "-" ds else ds
  end.

(** [s] is the text of what an entry holds as its count. *)
Definition slot_text (s : string) (v : slot) : Prop :=
  match v with
  | Count n => numeral s (N.of_nat n)
  | Text t => s = t
  end.

(** [t] is the integer nearest to ten times [m * 2^e], the larger of the
    two on a tie: [t - 1/2 <= 10 * m * 2^e < t + 1/2], with the
    denominators cleared. *)
Definition nearest_tenths (m : positive) (e : Z) (t : N) : Prop :=
  let num := (20 * Z.pos m * 2 ^ Z.max 0 e)%Z in
  let den := (2 ^ Z.max 0 (- e))%Z in
  (2 * Z.of_N t * den - den <= num < 2 * Z.of_N t * den + den)%Z.

(** [a] is the text of [x] with one decimal place: a sign, a numeral, a
    point and one digit, which together denote the multiple of one tenth
    nearest to [x]. *)
Definition average_text (a : string) (x : spec_float) : Prop :=
  match x with
  | S754_nan => a = "NaN"
  | S754_infinity s => a = if s then "-Infinity" else "Infinity"
  | S754_zero _ => a = "0.0"
  | S754_finite s m e =>
      exists whole d,
        a = (if s then "-" else "") +++ whole +++ "."
            +++ String d EmptyString
        /\ all_digits whole = true /\ whole <> EmptyString
        /\ no_leading_zero whole /\ is_digit d = true
        /\ nearest_tenths m e
             (digits_value 10 (whole +++ String d EmptyString) 0)
  end.

(** An entry of the year histogram, of the type histogram, written
    "label (count)". *)
Definition year_entry_text (e : number * slot) (s : string) : Prop :=
  exists label count,
    s = label +++ " (" +++ count +++ ")"
    /\ number_text label (fst e) /\ slot_text count (snd e).

Definition type_entry_text (e : string * slot) (s : string) : Prop :=
  exists count,
    s = fst e +++ " (" +++ count +++ ")" /\ slot_text count (snd e).

(** The range in which JavaScript writes numbers in plain decimal
    notation: counts and years that are safe integers, an average of
    magnitude below 10^21. *)
Definition safe_count (n : nat) : Prop := safe_integer (Z.of_nat n).

Definition safe_number (y : number) : Prop :=
  match y with
  | NaN => True
  | Num z => safe_integer z
  end.

Definition safe_slot (v : slot) : Prop :=
  match v with
  | Count n => safe_count n
  | Text _ => True
  end.

Definition below_1e21 (x : spec_float) : Prop :=
  match x with
  | S754_finite _ m e =>
      (Z.pos m * 2 ^ Z.max 0 e < 10 ^ 21 * 2 ^ Z.max 0 (- e))%Z
  | _ => True
  end.

Definition safe_summary (ctx : AnalysisStats) : Prop :=
  safe_count (totalResearchers ctx)
  /\ safe_count (totalPublications ctx)
  /\ below_1e21 (avgPublications ctx)
  /\ Forall (fun e => safe_number (fst e) /\ safe_slot (snd e))
       (publicationsByYear ctx)
  /\ Forall (fun e => safe_slot (snd e)) (publicationsByType ctx).

(** A number written with exactly one digit after the point. *)
Definition one_decimal (s : string) : Prop :=
  exists sign whole d,
    s = sign +++ whole +++ "." +++ String d EmptyString
    /\ (sign = "" \/ sign = "-")
    /\ whole <> EmptyString
    /\ all_digits whole = true
    /\ is_digit d = true.

Definition is_finite (x : spec_float) : bool :=
  match x with
  | S754_zero _ | S754_finite _ _ _ => true
  | _ => false
  end.

(** The separators and elements that follow the first element of a join. *)
Definition tail_join (sep : string) (l : list string) : string :=
  fold_right (fun x acc => sep +++ x +++ acc) EmptyString l.

(** *** Sample data *)

Definition sample_work (y : option number) (t : option string) : OrcidWork :=
  {| title := "Sample"; year := y; type := t; journal := None;
     doi := None; putCode := Some "1" |}.

(** One profile whose works have the types
    ["JOURNAL_ARTICLE", "JOURNAL_ARTICLE", "", null]. *)
Definition sample_profile : OrcidProfileData :=
  {| orcidId := "0000-0002-1825-0097";
     fullName := "Researcher 0000-0002-1825-0097";
     works := [ sample_work (Some (Num 2021)) (Some "JOURNAL_ARTICLE");
                sample_work (Some (Num 2019)) (Some "JOURNAL_ARTICLE");
                sample_work None (Some "");
                sample_work (Some (Num 2021)) None ] |}.

(** A summary of seven publications by twenty researchers. *)
Definition sample_stats : AnalysisStats :=
  {| totalResearchers := 20;
     totalPublications := 7;
     avgPublications := float_div (float_of_nat 7) (float_of_nat 20);
     publicationsByYear :=
       [(Num 2018, Count 1); (Num 2019, Count 3); (Num 2021, Count 2);
        (Num 2023, Count 1)];
     publicationsByType :=
       [("JOURNAL ARTICLE", Count 4); ("BOOK", Count 2); ("1", Count 1)];
     processedProfiles := [] |}.

(** A two-identifier upload and a fetcher whose first call is rejected. *)
Definition sample_upload : FileRead :=
  ReadText ("name,orcid" +++ String LF "Alice,0000-0002-1825-0097"
            +++ String LF "Bob,not-an-id"
            +++ String LF "Carol,0000-0001-5109-3700").

Definition sample_fetcher (k : nat) (id : string)
  : Promise OrcidProfileData :=
  if k =? 0 then reject "unavailable"
  else resolve {| orcidId := id; fullName := "Researcher " +++ id;
                  works := [] |}.

(** ** App: the single-identifier handler, the Analyze button and the
    "Latest Work" cell *)

Inductive InputType : Type :=
| single : InputType
| batch : InputType.

(** [handleSingleAnalyze]: nothing happens for a blank identifier;
    otherwise the fetcher is called with the identifier as typed and its
    result becomes the whole collection. *)
Definition handleSingleAnalyze
  (fetcher : nat -> string -> Promise OrcidProfileData) (singleId : string)
  (st : AppState) : AppState * list Event :=
  match trim singleId with
  | EmptyString => (st, [])
  | _ =>
      match fetcher 0 singleId with
      | resolve result =>
          ({| csvFile := csvFile st; loading := false; error := None;
              data := [result] |}, [FetchCall singleId])
      | reject msg =>
          ({| csvFile := csvFile st; loading := false;
              error := Some (message_or msg "Failed to analyze ID");
              data := [] |}, [FetchCall singleId])
      end
  end.

(** [disabled={loading || (inputType === 'single' && !singleId)
               || (inputType === 'batch' && !csvFile)}] *)
Definition analyze_disabled (loading_ : bool) (inputType : InputType)
  (singleId : string) (csvFile_ : option FileRead) : bool :=
  loading_
  || (match inputType with single => true | batch => false end
      && match singleId with EmptyString => true | _ => false end)
  || (match inputType with batch => true | single => false end
      && match csvFile_ with None => true | Some _ => false end).

(** [onClick={inputType === 'single' ? handleSingleAnalyze
                                      : handleBatchAnalyze}]; a disabled
    button does not fire. *)
Definition analyze_click
  (fetcher : nat -> string -> Promise OrcidProfileData)
  (inputType : InputType) (singleId : string) (st : AppState)
  : AppState * list Event :=
  if analyze_disabled (loading st) inputType singleId (csvFile st)
  then (st, [])
  else
    match inputType with
    | single => handleSingleAnalyze fetcher singleId st
    | batch => handleBatchAnalyze fetcher st
    end.

(** The fetcher the application passes to its handlers: the [k]-th call
    meets the network outcome [net k id] and draws from the random source
    [rnd k]. *)
Definition registry_fetcher (rnd : nat -> nat -> nat -> nat)
  (net : nat -> string -> FetchOutcome) (k : nat) (id : string)
  : Promise OrcidProfileData :=
  settled (fetchOrcidData (rnd k) id (net k id)).

(** [w.year || 0] *)
Definition year_or_zero (w : OrcidWork) : number :=
  match year w with
  | Some y => if number_truthy y then y else Num 0
  | None => Num 0
  end.

(** [Math.max] of a first argument and the others: NaN if any is. *)
Definition Math_max2 (a b : number) : number :=
  match a, b with
  | Num x, Num y => Num (Z.max x y)
  | _, _ => NaN
  end.

Definition Math_max (first : number) (others : list number) : number :=
  fold_left Math_max2 others first.

(** The "Latest Work" cell of the breakdown table:
    [works.length > 0 ? Math.max(...works.map(w => w.year || 0)) || 'N/A'
                      : '-'], as the text it renders. *)
Definition latest_work (profile : OrcidProfileData) : string :=
  match map year_or_zero (works profile) with
  | [] => "-"
  | y :: ys =>
      let m := Math_max y ys in
      if number_truthy m then Number_toString m else "N/A"
  end.

(** ** ChatBot: [handleSend] *)

Inductive Role : Type :=
| Role_user : Role
| Role_model : Role.

(** [ChatMessage] of [types.ts]; the timestamp is the clock reading in
    milliseconds, [isThinking] is optional. *)
Record ChatMessage : Type := {
  msg_id : string;
  role : Role;
  text : string;
  timestamp : Z;
  isThinking : option bool
}.

Record ChatState : Type := {
  messages : list ChatMessage;
  inputValue : string;
  isProcessing : bool;
  chatSession : option ChatConfig
}.

(** What the session's stream delivers after the request: chunks, each
    with or without text, until it ends or throws. *)
Inductive Stream : Type :=
| StreamEnd : Stream
| StreamThrow : Stream
| StreamChunk : option string -> Stream -> Stream.

(** [await sendMessageStream(...)] rejects or gives a stream. *)
Inductive SendOutcome : Type :=
| SendRejected : SendOutcome
| SendStream : Stream -> SendOutcome.

Inductive ChatEvent : Type :=
| Sent : string -> ChatEvent
| ConsoleError : ChatEvent.

Definition apology : string :=
  "I'm sorry, I encountered an error connecting to Gemini. Please try again.".

(** [prev.map(msg => msg.id === modelMsgId
                     ? { ...msg, text: fullResponse, isThinking: false }
                     : msg)] *)
Definition show_response (modelMsgId fullResponse : string)
  (prev : list ChatMessage) : list ChatMessage :=
  map (fun msg =>
         if String.eqb (msg_id msg) modelMsgId
         then {| msg_id := msg_id msg; role := role msg;
                 text := fullResponse; timestamp := timestamp msg;
                 isThinking := Some false |}
         else msg) prev.

(** The loop [for await (const chunk of result)]: the messages after it
    and whether it threw. *)
Fixpoint consume_stream (modelMsgId : string) (stream : Stream)
  (fullResponse : string) (msgs : list ChatMessage)
  : list ChatMessage * bool :=
  match stream with
  | StreamEnd => (msgs, false)
  | StreamThrow => (msgs, true)
  | StreamChunk chunk rest =>
      match truthy chunk with
      | Some t =>
          let fullResponse' := fullResponse +++ t in
          consume_stream modelMsgId rest fullResponse'
            (show_response modelMsgId fullResponse' msgs)
      | None => consume_stream modelMsgId rest fullResponse msgs
      end
  end.

(** [handleSend]; [now n] is the [n]-th reading of the clock
    ([Date.now()] or [new Date()]) made by the call. *)
Definition handleSend (now : nat -> Z) (outcome : SendOutcome)
  (st : ChatState) : ChatState * list ChatEvent :=
  match trim (inputValue st), chatSession st with
  | EmptyString, _ => (st, [])
  | _, None => (st, [])
  | _, Some _ =>
      let userMsg :=
        {| msg_id := Number_toString (Num (now 0)); role := Role_user;
           text := inputValue st; timestamp := now 1;
           isThinking := None |} in
      let sorry (n : nat) :=
        {| msg_id := Number_toString (Num (now n)); role := Role_model;
           text := apology; timestamp := now (S n); isThinking := None |} in
      let msgs1 := messages st ++ [userMsg] in
      let finish (msgs : list ChatMessage) (events : list ChatEvent) :=
        ({| messages := msgs; inputValue := EmptyString;
            isProcessing := false; chatSession := chatSession st |},
         Sent (inputValue st) :: events) in
      match outcome with
      | SendRejected => finish (msgs1 ++ [sorry 2]) [ConsoleError]
      | SendStream stream =>
          let modelMsgId := Number_toString (Num (now 2 + 1)) in
          let msgs2 :=
            msgs1 ++ [ {| msg_id := modelMsgId; role := Role_model;
                          text := EmptyString; timestamp := now 3;
                          isThinking := Some true |} ] in
          match consume_stream modelMsgId stream EmptyString msgs2 with
          | (msgs3, false) => finish msgs3 []
          | (msgs3, true) => finish (msgs3 ++ [sorry 4]) [ConsoleError]
          end
      end
  end.

(** *** Vocabulary of the properties of these handlers *)

(** A stream that delivers the chunks and then ends as [ending]. *)
Fixpoint stream_of (chunks : list (option string)) (ending : Stream)
  : Stream :=
  match chunks with
  | [] => ending
  | c :: rest => StreamChunk c (stream_of rest ending)
  end.

(** The texts of the chunks, in order, put together. *)
Fixpoint chunk_texts (chunks : list (option string)) : string :=
  match chunks with
  | [] => EmptyString
  | Some t :: rest => t +++ chunk_texts rest
  | None :: rest => chunk_texts rest
  end.

(** No line feed anywhere. *)
Fixpoint no_LF (s : string) : bool :=
  match s with
  | EmptyString => true
  | String c s' => negb (Ascii.eqb c LF) && no_LF s'
  end.

Definition ends_with_CR (s : string) : bool :=
  match last_char s with
  | Some c => Ascii.eqb c CR
  | None => false
  end.

Definition CRLF : string := String CR (String LF EmptyString).

(** The first line put in front of the first element of a split. *)
Definition prepend_line (l : string) (lines : list string) : list string :=
  match lines with
  | [] => [l]
  | h :: t => (l +++ h) :: t
  end.


(** Whether some chunk carries text. *)
Definition any_text (chunks : list (option string)) : bool :=
  existsb (fun c => match truthy c with Some _ => true | None => false end)
    chunks.

(** The message of the model for one exchange, holding [full] so far. *)
Definition model_message (now : nat -> Z) (full : string) (seen : bool)
  : ChatMessage :=
  {| msg_id := Number_toString (Num (now 2 + 1)); role := Role_model;
     text := full; timestamp := now 3; isThinking := Some (negb seen) |}.

Definition user_message (now : nat -> Z) (st : ChatState) : ChatMessage :=
  {| msg_id := Number_toString (Num (now 0)); role := Role_user;
     text := inputValue st; timestamp := now 1; isThinking := None |}.

Definition apology_message (now : nat -> Z) (n : nat) : ChatMessage :=
  {| msg_id := Number_toString (Num (now n)); role := Role_model;
     text := apology; timestamp := now (S n); isThinking := None |}.

(** Same identity, author and time; the text may differ. *)
Definition same_header (a b : ChatMessage) : Prop :=
  msg_id a = msg_id b /\ role a = role b /\ timestamp a = timestamp b.

(** The year a work counts for in the "Latest Work" cell. *)
Definition year_in_cell (w : OrcidWork) : Z :=
  match counted_year w with Some z => z | None => 0%Z end.

(** A registry that is unreachable for every call, and a random source. *)
Definition sample_rnd (k i n : nat) : nat := (7 * i + 3 + k) mod n.

Definition sample_net (k : nat) (id : string) : FetchOutcome :=
  if k =? 0 then NetworkFailure else Responded 200 (Some {| group := None |}).

(** The messages sent to the session. *)
Definition fetch_sent (events : list ChatEvent) : list string :=
  flat_map (fun e => match e with Sent m => [m] | ConsoleError => [] end)
    events.

(* ===================================================================== *)
(** * Part II: properties *)
(* ===================================================================== *)

(** ** Strings and regular expressions *)

Lemma dead_not_nullable r : dead r = true -> nullable r = false.
Proof.
  induction r; simpl; try discriminate; auto.
  - intros H. apply andb_true_iff in H as [H1 H2].
    now rewrite IHr1, IHr2.
  - intros H. apply orb_true_iff in H as [H | H].
    + now rewrite IHr1.
    + rewrite IHr2 by assumption. apply andb_false_r.
Qed.

Lemma dead_deriv c r : dead r = true -> dead (deriv c r) = true.
Proof.
  induction r; simpl; try discriminate; auto.
  - intros H. apply andb_true_iff in H as [H1 H2].
    now rewrite IHr1, IHr2.
  - intros H. apply orb_true_iff in H as [H | H].
    + rewrite (dead_not_nullable r1 H). simpl. now rewrite IHr1.
    + destruct (nullable r1); simpl; rewrite ?H, ?IHr2 by assumption;
        rewrite ?orb_true_r; reflexivity.
Qed.

Lemma matches_dead s : forall r, dead r = true -> matches r s = false.
Proof.
  induction s as [| c s IH]; intros r H; simpl.
  - now apply dead_not_nullable.
  - apply IH. now apply dead_deriv.
Qed.

Ltac prune_dead :=
  try (rewrite matches_dead by reflexivity); try reflexivity.

Ltac regex_step s :=
  let c := fresh "c" in
  destruct s as [| c s]; [reflexivity |];
  cbn [matches deriv nullable times shape_match andb orb];
  unfold is_hyphen, is_digit_or_X;
  repeat match goal with
         | |- context [is_digit c] => destruct (is_digit c)
         | |- context [Ascii.eqb c ?x] => destruct (Ascii.eqb c x)
         end;
  cbn [matches deriv nullable times shape_match andb orb];
  prune_dead.

(** The regular expression of the source accepts exactly the strings of the
    positional shape. *)
Lemma ORCID_RE_shape s : matches ORCID_RE s = orcid_shape s.
Proof.
  unfold orcid_shape, ORCID_RE.
  do 19 (regex_step s).
  all: destruct s as [| c' s]; [reflexivity |];
    cbn [matches deriv nullable shape_match andb orb]; prune_dead.
Qed.

Lemma lower_char_comma c : Ascii.eqb (lower_char c) "," = Ascii.eqb c ",".
Proof. destruct c as [[] [] [] [] [] [] [] []]; reflexivity. Qed.

Lemma lower_char_ws c : is_ws (lower_char c) = is_ws c.
Proof. destruct c as [[] [] [] [] [] [] [] []]; reflexivity. Qed.

Lemma split_on_toLowerCase s :
  split_on "," (toLowerCase s) = map toLowerCase (split_on "," s).
Proof.
  induction s as [| c s IH]; simpl; [reflexivity |].
  rewrite lower_char_comma, IH.
  destruct (Ascii.eqb c ","); [reflexivity |].
  destruct (split_on "," s); reflexivity.
Qed.

Lemma trimStart_toLowerCase s :
  trimStart (toLowerCase s) = toLowerCase (trimStart s).
Proof.
  induction s as [| c s IH]; simpl; [reflexivity |].
  rewrite lower_char_ws. destruct (is_ws c); [exact IH | reflexivity].
Qed.

Lemma trimEnd_toLowerCase s :
  trimEnd (toLowerCase s) = toLowerCase (trimEnd s).
Proof.
  induction s as [| c s IH]; simpl; [reflexivity |].
  rewrite lower_char_ws, IH.
  destruct (trimEnd s); simpl; [destruct (is_ws c) |]; reflexivity.
Qed.

Lemma trim_toLowerCase s : trim (toLowerCase s) = toLowerCase (trim s).
Proof.
  unfold trim. now rewrite trimStart_toLowerCase, trimEnd_toLowerCase.
Qed.

(** The header cells the code searches are the lower-cased trimmed cells of
    the first line. *)
Lemma csv_header_cells text :
  csv_header text
  = map (fun cell => toLowerCase (trim cell))
        (split_on "," (hd EmptyString (split_lines text))).
Proof.
  unfold csv_header. rewrite split_on_toLowerCase, map_map.
  apply map_ext. intros cell. apply trim_toLowerCase.
Qed.

Lemma indexOf_range x l :
  (-1 <= indexOf x l < Z.of_nat (List.length l))%Z.
Proof.
  induction l as [| y l IH]; simpl; [lia |].
  destruct (String.eqb y x); [lia |].
  destruct (Z.eqb_spec (indexOf x l) (-1)); lia.
Qed.

Lemma indexOf_absent x l : indexOf x l = (-1)%Z <-> ~ In x l.
Proof.
  induction l as [| y l IH]; simpl; [tauto |].
  destruct (String.eqb_spec y x) as [-> | Hne].
  - split; [discriminate | intros H; exfalso; apply H; now left].
  - pose proof (indexOf_range x l) as R.
    destruct (Z.eqb_spec (indexOf x l) (-1)) as [E | E].
    + split; [| reflexivity]. intros _ [H | H]; [congruence | ].
      now apply IH in E.
    + split; [lia |]. intros H. exfalso. apply E, IH. tauto.
Qed.

Lemma scan_rows_accepted idx rows :
  scan_rows (Z.of_nat idx) rows = flat_map (accepted_cell idx) rows.
Proof.
  induction rows as [| line rows IH]; simpl; [reflexivity |].
  rewrite IH, Nat2Z.id. unfold accepted_cell.
  destruct (Z.gtb_spec (Z.of_nat (List.length (split_on "," line)))
                       (Z.of_nat idx)) as [Hlt | Hge].
  - destruct (nth_error (split_on "," line) idx) as [cell |] eqn:E.
    + rewrite (nth_error_nth _ _ EmptyString E).
      rewrite ORCID_RE_shape. destruct (orcid_shape (trim cell)); reflexivity.
    + apply nth_error_None in E. lia.
  - destruct (nth_error (split_on "," line) idx) as [cell |] eqn:E.
    + assert (idx < List.length (split_on "," line))
        by (apply nth_error_Some; congruence).
      lia.
    + reflexivity.
Qed.

(** ** Identifier Extractor *)

(** The upload of the specification's example. *)
Example parseCsvFile_example :
  parseCsvFile
    (ReadText ("orcid,name" +++ String LF "0000-0002-1825-0097,Alice"
               +++ String LF "bad-id,Bob"
               +++ String LF "0000-0001-5109-3700,Carol"))
  = resolve ["0000-0002-1825-0097"; "0000-0001-5109-3700"].
Proof. reflexivity. Qed.

Example parseCsvFile_crlf_example :
  parseCsvFile
    (ReadText ("Name , ORCID " +++ String CR (String LF "x, 0000-0002-1825-009X ")
               +++ String CR (String LF "")))
  = resolve ["0000-0002-1825-009X"].
Proof. reflexivity. Qed.

(** C6. The extractor rejects with the missing-column error exactly when no
    cell of the first line equals "orcid" once trimmed and compared without
    regard to case; when such a cell exists it resolves to a list of
    identifiers. *)
Theorem missing_column_iff_no_orcid_header :
  forall text : string,
    let cells := split_on "," (hd EmptyString (split_lines text)) in
    (parseCsvFile (ReadText text) = reject MissingColumnError
     <-> ~ exists cell, In cell cells /\ toLowerCase (trim cell) = "orcid")
    /\ ((exists ids, parseCsvFile (ReadText text) = resolve ids)
        <-> exists cell, In cell cells /\ toLowerCase (trim cell) = "orcid").
Proof.
  intros text cells.
  assert (Hin : In "orcid" (csv_header text)
                <-> exists cell, In cell cells
                                 /\ toLowerCase (trim cell) = "orcid").
  { rewrite csv_header_cells, in_map_iff. fold cells.
    split; intros [cell [H1 H2]]; exists cell; tauto. }
  unfold parseCsvFile.
  destruct (Z.eqb_spec (indexOf "orcid" (csv_header text)) (-1)) as [E | E].
  - apply indexOf_absent in E. split; split.
    + intros _ H. now apply E, Hin.
    + reflexivity.
    + intros [ids H]. discriminate.
    + intros H. exfalso. now apply E, Hin.
  - assert (Hp : In "orcid" (csv_header text)).
    { destruct (in_dec string_dec "orcid" (csv_header text)) as [H | H];
        [assumption |]. now apply indexOf_absent in H. }
    split; split.
    + discriminate.
    + intros H. exfalso. now apply H, Hin.
    + intros _. now apply Hin.
    + intros _. eexists. reflexivity.
Qed.

Lemma missing_column_witness :
  parseCsvFile (ReadText "name, Email ,id") = reject MissingColumnError
  /\ exists ids,
       parseCsvFile (ReadText ("name, ORCID " +++ String LF "x,y")) = resolve ids.
Proof.
  split.
  - apply (proj1 (missing_column_iff_no_orcid_header "name, Email ,id")).
    intros [cell [Hin Heq]]. simpl in Hin.
    destruct Hin as [<- | [<- | [<- | []]]]; discriminate Heq.
  - apply (proj2 (missing_column_iff_no_orcid_header
                    ("name, ORCID " +++ String LF "x,y"))).
    exists " ORCID ". split; [simpl; tauto | reflexivity].
Defined.

(** C3 (as stated, refuted).  A value of four hyphen-separated groups of
    four characters whose first twelve characters are digits and whose last
    is X is not accepted when the characters before the last are not digits;
    and a cell with surrounding white space, which does not match the
    pattern, is accepted and returned trimmed. *)
Lemma extractor_pattern_counterexample :
  (spec_pattern "0000-0000-0000-abcX" = true
   /\ parseCsvFile (ReadText ("orcid" +++ String LF "0000-0000-0000-abcX"))
      = resolve [])
  /\ (spec_pattern " 0000-0002-1825-0097" = false
      /\ parseCsvFile (ReadText ("orcid" +++ String LF " 0000-0002-1825-0097"))
         = resolve ["0000-0002-1825-0097"]).
Proof. repeat split; vm_compute; reflexivity. Qed.

(** C3 (amended).  Once the identifier column is found at index [idx], the
    extractor returns, in file order and with duplicates kept, the trimmed
    cell at that index of every data row that has one and whose trimmed
    cell has the shape [dddd-dddd-dddd-dddc] (fifteen digits in hyphenated
    groups, then a digit or X); the regular expression of the code accepts
    exactly that shape; a row with no cell at [idx] contributes nothing. *)
Theorem extractor_accepts_trimmed_shape :
  forall (text : string) (idx : nat),
    indexOf "orcid" (csv_header text) = Z.of_nat idx ->
    parseCsvFile (ReadText text)
    = resolve (flat_map (accepted_cell idx) (tl (split_lines text)))
    /\ (forall id, matches ORCID_RE id = orcid_shape id)
    /\ (forall line cell,
           nth_error (split_on "," line) idx = Some cell ->
           accepted_cell idx line
           = if orcid_shape (trim cell) then [trim cell] else [])
    /\ (forall line,
           List.length (split_on "," line) <= idx ->
           accepted_cell idx line = []).
Proof.
  intros text idx Hidx. repeat split.
  - unfold parseCsvFile. rewrite Hidx.
    destruct (Z.eqb_spec (Z.of_nat idx) (-1)); [lia |].
    now rewrite scan_rows_accepted.
  - apply ORCID_RE_shape.
  - intros line cell H. unfold accepted_cell. now rewrite H.
  - intros line H. unfold accepted_cell.
    apply nth_error_None in H. now rewrite H.
Qed.

Lemma extractor_accepts_witness :
  parseCsvFile (ReadText
    ("name,orcid" +++ String LF "Alice, 0000-0002-1825-0097 "
     +++ String LF "Bob" +++ String LF "Carol,0000-0001-5109-370X"
     +++ String LF "Dan,0000-0002-1825-0097,x"))
  = resolve ["0000-0002-1825-0097"; "0000-0001-5109-370X";
             "0000-0002-1825-0097"].
Proof.
  exact (proj1 (extractor_accepts_trimmed_shape
    ("name,orcid" +++ String LF "Alice, 0000-0002-1825-0097 "
     +++ String LF "Bob" +++ String LF "Carol,0000-0001-5109-370X"
     +++ String LF "Dan,0000-0002-1825-0097,x") 1 eq_refl)).
Defined.

(** ** Decimal notation *)

Lemma append_assoc_string (a b c : string) :
  ((a +++ b) +++ c)%string = (a +++ b +++ c)%string.
Proof. induction a as [| x a IH]; simpl; [reflexivity | now rewrite IH]. Qed.

Lemma digit_cases (d : N) :
  (d < 10)%N -> In d [0; 1; 2; 3; 4; 5; 6; 7; 8; 9]%N.
Proof.
  intros H.
  repeat match goal with
         | |- In d (?x :: _) =>
             destruct (N.eq_dec d x) as [-> | ?]; [now left | right]
         end.
  simpl. lia.
Qed.

Ltac by_digit_cases d H :=
  let Hc := fresh "Hc" in
  pose proof (digit_cases d H) as Hc; simpl in Hc;
  repeat (destruct Hc as [<- | Hc]; [reflexivity |]);
  contradiction.

Lemma digit_char_value d : (d < 10)%N -> digit_value (digit_char d) = Some d.
Proof. intros H. by_digit_cases d H. Qed.

Lemma digit_char_is_digit d : (d < 10)%N -> is_digit (digit_char d) = true.
Proof. intros H. by_digit_cases d H. Qed.

Lemma is_digit_radix c : is_radix_digit 10 c = is_digit c.
Proof. destruct c as [[] [] [] [] [] [] [] []]; reflexivity. Qed.

Lemma is_digit_not_special c :
  is_digit c = true ->
  is_ws c = false /\ Ascii.eqb c "-" = false /\ Ascii.eqb c "+" = false
  /\ Ascii.eqb c "x" = false /\ Ascii.eqb c "X" = false.
Proof.
  destruct c as [[] [] [] [] [] [] [] []]; intros H;
    try discriminate H; repeat split; reflexivity.
Qed.

Lemma is_digit_value c :
  is_digit c = true -> exists d, digit_value c = Some d /\ (d < 10)%N.
Proof.
  destruct c as [[] [] [] [] [] [] [] []]; intros H; try discriminate H;
    eexists; (split; [reflexivity | reflexivity]).
Qed.

Lemma all_digits_app s t :
  all_digits (s +++ t) = all_digits s && all_digits t.
Proof.
  induction s as [| c s IH]; simpl; [reflexivity |].
  now rewrite IH, andb_assoc.
Qed.

Lemma take_digits_all s : all_digits s = true -> take_digits 10 s = s.
Proof.
  induction s as [| c s IH]; simpl; [reflexivity |].
  intros H. apply andb_true_iff in H as [Hc Hs].
  now rewrite is_digit_radix, Hc, IH.
Qed.

Lemma digits_value_app s t acc :
  all_digits s = true ->
  digits_value 10 (s +++ t) acc = digits_value 10 t (digits_value 10 s acc).
Proof.
  revert acc. induction s as [| c s IH]; simpl; intros acc H; [reflexivity |].
  apply andb_true_iff in H as [Hc Hs].
  destruct (is_digit_value c Hc) as [d [-> _]]. now apply IH.
Qed.

Lemma digits_loop_acc fuel : forall n acc,
  digits_loop fuel n acc = (digits_loop fuel n EmptyString +++ acc)%string.
Proof.
  induction fuel as [| fuel IH]; intros n acc; simpl; [reflexivity |].
  destruct (n <? 10)%N; [reflexivity |].
  rewrite IH. rewrite (IH _ (String _ EmptyString)).
  now rewrite append_assoc_string.
Qed.

Lemma log2_div10 n : (10 <= n)%N -> (N.log2 (n / 10) < N.log2 n)%N.
Proof.
  intros H.
  assert (Hq : (0 < n / 10)%N) by (apply N.div_str_pos; lia).
  apply N.log2_lt_pow2; [exact Hq |].
  assert (Hn : (0 < n)%N) by lia.
  pose proof (N.log2_spec n Hn) as [_ Hu].
  rewrite N.pow_succ_r' in Hu.
  pose proof (N.Div0.mul_div_le n 10). lia.
Qed.

(** With enough fuel the loop yields a non-empty string of digits whose
    value is the number. *)
Lemma digits_loop_spec fuel : forall n,
  N.to_nat (N.log2 n) < fuel ->
  let ds := digits_loop fuel n EmptyString in
  all_digits ds = true /\ ds <> EmptyString /\ digits_value 10 ds 0 = n.
Proof.
  induction fuel as [| fuel IH]; intros n Hf; [lia |].
  cbn [digits_loop]. cbv zeta.
  assert (Hm : (n mod 10 < 10)%N) by (apply N.mod_lt; lia).
  destruct (N.ltb_spec n 10) as [Hlt | Hge].
  - rewrite N.mod_small by assumption. simpl.
    rewrite digit_char_is_digit, digit_char_value by assumption.
    repeat split; try discriminate; try lia.
  - rewrite digits_loop_acc.
    assert (Hq : N.to_nat (N.log2 (n / 10)) < fuel).
    { pose proof (log2_div10 n Hge). lia. }
    destruct (IH (n / 10)%N Hq) as [Hd [Hne Hv]].
    repeat split.
    + rewrite all_digits_app, Hd. simpl.
      now rewrite digit_char_is_digit.
    + destruct (digits_loop fuel (n / 10) EmptyString); [congruence |].
      discriminate.
    + rewrite digits_value_app by assumption. rewrite Hv. simpl.
      rewrite digit_char_value by assumption.
      pose proof (N.div_mod n 10). lia.
Qed.

Lemma decimal_of_N_spec n :
  all_digits (decimal_of_N n) = true
  /\ decimal_of_N n <> EmptyString
  /\ digits_value 10 (decimal_of_N n) 0 = n.
Proof. apply digits_loop_spec. lia. Qed.

(** One-argument [parseInt] reads back the decimal notation of a
    non-negative integer. *)
Lemma parseInt_digits s :
  all_digits s = true -> s <> EmptyString ->
  parseInt s None = Num (Z.of_N (digits_value 10 s 0))
  /\ parseInt (String "-" s) None = Num (- Z.of_N (digits_value 10 s 0)).
Proof.
  intros Hd Hne.
  assert (Hstrip : forall R1 : N,
    match s with
    | String c (String x rest) =>
        if true && Ascii.eqb c "0" && (Ascii.eqb x "x" || Ascii.eqb x "X")
        then (16%N, rest) else (R1, s)
    | _ => (R1, s)
    end = (R1, s)).
  { intros R1. destruct s as [| c [| x rest]]; try reflexivity.
    simpl in Hd. apply andb_true_iff in Hd as [_ Hd].
    apply andb_true_iff in Hd as [Hx _].
    destruct (is_digit_not_special x Hx) as (_ & _ & _ & -> & ->).
    now rewrite andb_false_r. }
  destruct s as [| c s']; [congruence |].
  assert (Hc : is_digit c = true) by (simpl in Hd; now apply andb_true_iff in Hd).
  destruct (is_digit_not_special c Hc) as (Hws & Hm & Hp & _).
  split.
  - unfold parseInt. cbn [trimStart]. rewrite Hws, Hm, Hp.
    cbn [N.eqb negb andb orb]. rewrite Hstrip.
    rewrite take_digits_all by assumption. reflexivity.
  - unfold parseInt. cbn [trimStart].
    change (is_ws "-") with false. cbn iota.
    change (Ascii.eqb "-" "-") with true. cbn iota.
    cbn [N.eqb negb andb orb]. rewrite Hstrip.
    rewrite take_digits_all by assumption. reflexivity.
Qed.

Lemma parseInt_Number_toString z :
  parseInt (Number_toString (Num z)) None = Num z.
Proof.
  destruct (decimal_of_N_spec (Z.abs_N z)) as (Hd & Hne & Hv).
  destruct (parseInt_digits _ Hd Hne) as [Hpos Hneg].
  unfold Number_toString. destruct (Z.ltb_spec z 0).
  - rewrite Hneg, Hv. f_equal. lia.
  - rewrite Hpos, Hv. f_equal. lia.
Qed.

Lemma Number_toString_inj z1 z2 :
  Number_toString (Num z1) = Number_toString (Num z2) -> z1 = z2.
Proof.
  intros H. pose proof (parseInt_Number_toString z1) as H1.
  rewrite H, parseInt_Number_toString in H1. congruence.
Qed.

(** ** Sorting *)

Section SortFacts.
Context {A : Type} (cmp : A -> A -> Z) (key : A -> Z) (P : A -> Prop).
Hypothesis cmp_key : forall a b, P a -> P b -> cmp a b = (key a - key b)%Z.

Lemma sort_insert_perm x l : Permutation (sort_insert cmp x l) (x :: l).
Proof.
  induction l as [| y l IH]; simpl; [reflexivity |].
  destruct (cmp x y <=? 0)%Z; [reflexivity |].
  rewrite IH. apply perm_swap.
Qed.

Lemma Array_sort_perm l : Permutation (Array_sort cmp l) l.
Proof.
  induction l as [| x l IH]; simpl; [reflexivity |].
  rewrite sort_insert_perm. now constructor.
Qed.

Lemma Array_sort_Forall (Q : A -> Prop) l :
  Forall Q l -> Forall Q (Array_sort cmp l).
Proof.
  intros H. eapply Permutation_Forall; [| exact H].
  symmetry. apply Array_sort_perm.
Qed.

Lemma sort_insert_sorted x l :
  P x -> Forall P l ->
  StronglySorted (fun a b => (key a <= key b)%Z) l ->
  StronglySorted (fun a b => (key a <= key b)%Z) (sort_insert cmp x l).
Proof.
  intros Px Pl Hs. induction Hs as [| y l Hs IH Hy]; simpl.
  - constructor; constructor.
  - inversion Pl as [| ? ? Py Pl']; subst.
    destruct (Z.leb_spec (cmp x y) 0) as [Hle | Hgt].
    + rewrite cmp_key in Hle by assumption.
      constructor; [now constructor |].
      constructor; [lia |].
      eapply Forall_impl; [| exact Hy]. simpl. intros. lia.
    + rewrite cmp_key in Hgt by assumption.
      constructor; [now apply IH |].
      eapply Permutation_Forall;
        [symmetry; apply sort_insert_perm |].
      constructor; [lia | exact Hy].
Qed.

Lemma Array_sort_sorted l :
  Forall P l ->
  StronglySorted (fun a b => (key a <= key b)%Z) (Array_sort cmp l).
Proof.
  induction l as [| x l IH]; intros Pl; simpl; [constructor |].
  inversion Pl; subst.
  apply sort_insert_sorted; auto. now apply Array_sort_Forall.
Qed.

(** Stability: the elements of one key keep their relative order. *)
Lemma sort_insert_stable c x l :
  P x -> Forall P l ->
  filter (fun a => (key a =? c)%Z) (sort_insert cmp x l)
  = filter (fun a => (key a =? c)%Z) (x :: l).
Proof.
  intros Px Pl. induction l as [| y l IH]; [reflexivity |].
  inversion Pl as [| ? ? Py Pl']; subst.
  cbn [sort_insert].
  destruct (Z.leb_spec (cmp x y) 0) as [Hle | Hgt]; [reflexivity |].
  rewrite cmp_key in Hgt by assumption.
  cbn [filter]. rewrite (IH Pl'). cbn [filter].
  destruct (Z.eqb_spec (key x) c), (Z.eqb_spec (key y) c);
    try reflexivity; lia.
Qed.

Lemma Array_sort_stable c l :
  Forall P l ->
  filter (fun a => (key a =? c)%Z) (Array_sort cmp l)
  = filter (fun a => (key a =? c)%Z) l.
Proof.
  induction l as [| x l IH]; intros Pl; [reflexivity |].
  inversion Pl; subst. cbn [Array_sort fold_right].
  fold (Array_sort cmp l).
  rewrite sort_insert_stable by (auto using Array_sort_Forall).
  cbn [filter]. now rewrite IH.
Qed.

End SortFacts.

Lemma sorted_distinct_strict {A : Type} (key : A -> Z) l :
  StronglySorted (fun a b => (key a <= key b)%Z) l ->
  NoDup (map key l) ->
  StronglySorted (fun a b => (key a < key b)%Z) l.
Proof.
  induction 1 as [| x l Hs IH Hx]; intros Hnd; [constructor |].
  simpl in Hnd. inversion Hnd as [| ? ? Hnotin Hnd']; subst.
  constructor; [now apply IH |].
  rewrite Forall_forall in *. intros y Hy.
  specialize (Hx y Hy).
  assert (key y <> key x).
  { intros E. apply Hnotin. rewrite <- E. now apply in_map. }
  lia.
Qed.

Lemma sum_plain_perm {K : Type} (l l' : list (K * nat)) :
  Permutation l l' -> sum_plain l = sum_plain l'.
Proof.
  induction 1; simpl; try lia.
Qed.

(** ** Counter objects *)

Lemma array_index_canonical k i :
  array_index k = Some i -> k = decimal_of_N i.
Proof.
  unfold array_index. destruct (take_digits 10 k); [discriminate |].
  match goal with
  | |- context [String.eqb ?a ?b] => destruct (String.eqb_spec a b) as [E | E]
  end; [| discriminate].
  simpl. destruct (_ <? _)%N; [| discriminate].
  intros H. injection H as <-. now symmetry.
Qed.

Lemma array_index_inj k k' i :
  array_index k = Some i -> array_index k' = Some i -> k = k'.
Proof.
  intros H H'. apply array_index_canonical in H.
  apply array_index_canonical in H'. congruence.
Qed.

Lemma own_get_None (o : plain) k : own_get o k = None <-> ~ In k (map fst o).
Proof.
  induction o as [| [k' v] o IH]; simpl; [tauto |].
  destruct (String.eqb_spec k' k) as [-> | Hne].
  - split; [discriminate | intros H; exfalso; apply H; now left].
  - rewrite IH. tauto.
Qed.

Lemma own_get_In (o : plain) k v :
  NoDup (map fst o) -> (In (k, v) o <-> own_get o k = Some v).
Proof.
  induction o as [| [k' v'] o IH]; simpl; intros Hnd.
  - split; [tauto | discriminate].
  - inversion Hnd as [| ? ? Hnotin Hnd']; subst.
    destruct (String.eqb_spec k' k) as [-> | Hne].
    + split.
      * intros [H | H]; [congruence |].
        exfalso. apply Hnotin. now apply (in_map fst) in H.
      * intros H. left. congruence.
    + rewrite <- (IH Hnd'). split; [| tauto].
      intros [H | H]; [congruence | assumption].
Qed.

Lemma own_replace_keys (o : plain) k v : map fst (own_replace o k v) = map fst o.
Proof.
  induction o as [| [k' v'] o IH]; simpl; [reflexivity |].
  destruct (String.eqb_spec k' k) as [-> | Hne]; simpl; [reflexivity |].
  now rewrite IH.
Qed.

Lemma own_get_replace (o : plain) k v k' :
  own_get (own_replace o k v) k'
  = if String.eqb k k' then option_map (fun _ => v) (own_get o k)
    else own_get o k'.
Proof.
  induction o as [| [k0 v0] o IH]; simpl.
  - now destruct (String.eqb k k').
  - destruct (String.eqb_spec k0 k) as [-> | Hne]; simpl.
    + destruct (String.eqb_spec k k'); reflexivity.
    + rewrite IH. destruct (String.eqb_spec k k') as [E | Hne'].
      * subst k'. destruct (String.eqb_spec k0 k);
          [contradiction | reflexivity].
      * destruct (String.eqb k0 k'); reflexivity.
Qed.

Lemma own_insert_index_perm i e (o : plain) :
  Permutation (own_insert_index i e o) (e :: o).
Proof.
  induction o as [| [k v] o IH]; simpl; [reflexivity |].
  destruct (array_index k); [| reflexivity].
  destruct (i <? n)%N; [reflexivity |].
  rewrite IH. apply perm_swap.
Qed.

Lemma own_get_insert_index i k v (o : plain) k' :
  own_get o k = None ->
  own_get (own_insert_index i (k, v) o) k'
  = if String.eqb k k' then Some v else own_get o k'.
Proof.
  induction o as [| [k0 v0] o IH]; simpl; intros Hnone; [reflexivity |].
  destruct (String.eqb_spec k0 k) as [-> | Hne]; [discriminate |].
  destruct (array_index k0); [destruct (i <? n)%N |]; simpl;
    try reflexivity.
  rewrite (IH Hnone).
  destruct (String.eqb_spec k0 k') as [<- | Hne'].
  - destruct (String.eqb_spec k k0); [congruence | reflexivity].
  - reflexivity.
Qed.

Lemma own_get_app_new (o : plain) k v k' :
  own_get o k = None ->
  own_get (o ++ [(k, v)]) k'
  = if String.eqb k k' then Some v else own_get o k'.
Proof.
  induction o as [| [k0 v0] o IH]; simpl; intros Hnone; [reflexivity |].
  destruct (String.eqb_spec k0 k) as [-> | Hne]; [discriminate |].
  rewrite (IH Hnone).
  destruct (String.eqb_spec k0 k') as [<- | Hne'].
  - destruct (String.eqb_spec k k0); [congruence | reflexivity].
  - reflexivity.
Qed.

Lemma own_get_set (o : plain) k v k' :
  own_get (own_set o k v) k'
  = if String.eqb k k' then Some v else own_get o k'.
Proof.
  unfold own_set. destruct (own_get o k) eqn:E.
  - rewrite own_get_replace, E. reflexivity.
  - destruct (array_index k).
    + now apply own_get_insert_index.
    + now apply own_get_app_new.
Qed.

Lemma own_get_incr (o : plain) k k' :
  own_get (plain_incr o k) k'
  = if String.eqb k k' then Some (plain_get0 o k + 1) else own_get o k'.
Proof.
  unfold plain_incr. rewrite own_get_set. unfold plain_get0.
  destruct (String.eqb k k'); [| reflexivity].
  destruct (own_get o k) as [[| v] |]; reflexivity.
Qed.

(** A new key extends the key set; an old one leaves it as it is. *)
Lemma own_set_keys_perm (o : plain) k v :
  Permutation (map fst (own_set o k v))
    (match own_get o k with
     | Some _ => map fst o
     | None => k :: map fst o
     end).
Proof.
  unfold own_set. destruct (own_get o k) eqn:E.
  - now rewrite own_replace_keys.
  - destruct (array_index k).
    + change (k :: map fst o) with (map fst ((k, v) :: o)).
      apply Permutation_map, own_insert_index_perm.
    + rewrite map_app. simpl. symmetry. apply Permutation_cons_append.
Qed.

Lemma own_set_NoDup (o : plain) k v :
  NoDup (map fst o) -> NoDup (map fst (own_set o k v)).
Proof.
  intros Hnd. eapply Permutation_NoDup;
    [symmetry; apply own_set_keys_perm |].
  destruct (own_get o k) eqn:E; [assumption |].
  constructor; [now apply own_get_None | assumption].
Qed.

Lemma own_replace_sum (o : plain) k v v' :
  own_get o k = Some v ->
  sum_plain (own_replace o k v') + v = sum_plain o + v'.
Proof.
  induction o as [| [k0 v0] o IH]; simpl; [discriminate |].
  destruct (String.eqb_spec k0 k) as [-> | Hne]; simpl.
  - intros H. injection H as ->. lia.
  - intros H. specialize (IH H). lia.
Qed.

Lemma plain_incr_sum o k : sum_plain (plain_incr o k) = S (sum_plain o).
Proof.
  unfold plain_incr, own_set. destruct (own_get o k) as [v |] eqn:E.
  - pose proof (own_replace_sum o k v ((if v =? 0 then 0 else v) + 1) E).
    destruct v; simpl in *; lia.
  - destruct (array_index k).
    + rewrite (sum_plain_perm _ _ (own_insert_index_perm _ _ _)).
      simpl. lia.
    + rewrite (sum_plain_perm _ _
                 (Permutation_sym (Permutation_cons_append o (k, 0 + 1)))).
      simpl. lia.
Qed.

Lemma occurrences_cons k k' ks :
  occurrences k (k' :: ks)
  = (if String.eqb k' k then 1 else 0) + occurrences k ks.
Proof.
  unfold occurrences. simpl.
  destruct (string_dec k' k) as [-> | Hne].
  - now rewrite String.eqb_refl.
  - apply String.eqb_neq in Hne. now rewrite Hne.
Qed.

(** After the increments, each key holds its number of occurrences on top
    of what it held before. *)
Lemma tally_get ks : forall (o : plain) k,
  own_get (fold_left plain_incr ks o) k
  = match occurrences k ks with
    | 0 => own_get o k
    | S n => Some (plain_get0 o k + S n)
    end.
Proof.
  induction ks as [| k' ks IH]; intros o k; [reflexivity |].
  cbn [fold_left]. rewrite IH, occurrences_cons.
  unfold plain_get0. rewrite own_get_incr. unfold plain_get0.
  destruct (String.eqb_spec k' k) as [E | Hne]; [subst k' |];
    destruct (occurrences k ks); destruct (own_get o k);
    simpl; try reflexivity; f_equal; lia.
Qed.

Lemma tally_NoDup ks : forall o : plain,
  NoDup (map fst o) -> NoDup (map fst (fold_left plain_incr ks o)).
Proof.
  induction ks as [| k ks IH]; intros o Hnd; [assumption |].
  cbn [fold_left]. apply IH. now apply own_set_NoDup.
Qed.

Lemma tally_sum ks : forall o : plain,
  sum_plain (fold_left plain_incr ks o) = sum_plain o + List.length ks.
Proof.
  induction ks as [| k ks IH]; intros o; simpl; [lia |].
  rewrite IH, plain_incr_sum. lia.
Qed.

(** The entries of a tally: every key that occurs, with its number of
    occurrences. *)
Lemma tally_entries ks k v :
  In (k, v) (tally ks) <-> v = occurrences k ks /\ 0 < v.
Proof.
  unfold tally. rewrite own_get_In by (apply tally_NoDup; constructor).
  rewrite tally_get. simpl.
  destruct (occurrences k ks); split.
  - discriminate.
  - lia.
  - intros H. injection H as <-. unfold plain_get0. simpl. lia.
  - intros [-> _]. reflexivity.
Qed.

(** *** Property order *)

Lemma key_precedes_nonindex k x :
  array_index k = None -> key_precedes k x -> array_index x = None.
Proof.
  unfold key_precedes. intros ->. destruct (array_index x); tauto.
Qed.

Lemma insert_index_ordered i k v (o : plain) :
  array_index k = Some i -> ~ In k (map fst o) ->
  StronglySorted key_precedes (map fst o) ->
  StronglySorted key_precedes (map fst (own_insert_index i (k, v) o)).
Proof.
  intros Hk. induction o as [| [k0 v0] o IH]; simpl; intros Hnotin Hs.
  - constructor; constructor.
  - inversion Hs as [| ? ? Hs' Hall]; subst.
    destruct (array_index k0) as [j |] eqn:Hk0.
    + destruct (N.ltb_spec i j) as [Hlt | Hge]; simpl.
      * constructor; [assumption |].
        constructor.
        { unfold key_precedes. now rewrite Hk, Hk0. }
        eapply Forall_impl; [| exact Hall].
        intros x Hx. unfold key_precedes in *. rewrite Hk0 in Hx.
        rewrite Hk. destruct (array_index x); [lia | exact I].
      * assert (i <> j).
        { intros ->. apply Hnotin. left.
          now apply (array_index_inj k0 k j). }
        constructor; [apply IH; tauto |].
        eapply Permutation_Forall;
          [symmetry; apply Permutation_map, own_insert_index_perm |].
        simpl. constructor; [| exact Hall].
        unfold key_precedes. rewrite Hk, Hk0. lia.
    + simpl. constructor; [assumption |].
      constructor.
      { unfold key_precedes. now rewrite Hk, Hk0. }
      eapply Forall_impl; [| exact Hall].
      intros x Hx. apply (key_precedes_nonindex _ _ Hk0) in Hx.
      unfold key_precedes. now rewrite Hk, Hx.
Qed.

Lemma append_nonindex_ordered k l :
  array_index k = None ->
  StronglySorted key_precedes l ->
  StronglySorted key_precedes (l ++ [k]).
Proof.
  intros Hk. induction 1 as [| x l Hs IH Hall]; simpl.
  - constructor; constructor.
  - constructor; [assumption |].
    apply Forall_app. split; [assumption |].
    constructor; [| constructor].
    unfold key_precedes. rewrite Hk. now destruct (array_index x).
Qed.

Lemma plain_incr_ordered (o : plain) k :
  StronglySorted key_precedes (map fst o) ->
  StronglySorted key_precedes (map fst (plain_incr o k)).
Proof.
  intros Hs. unfold plain_incr, own_set.
  destruct (own_get o k) eqn:E.
  - now rewrite own_replace_keys.
  - apply own_get_None in E.
    destruct (array_index k) eqn:Hk.
    + now apply insert_index_ordered.
    + rewrite map_app. now apply append_nonindex_ordered.
Qed.

Lemma tally_ordered ks : forall o : plain,
  StronglySorted key_precedes (map fst o) ->
  StronglySorted key_precedes (map fst (fold_left plain_incr ks o)).
Proof.
  induction ks as [| k ks IH]; intros o Hs; [assumption |].
  cbn [fold_left]. apply IH. now apply plain_incr_ordered.
Qed.

Lemma insert_index_nonindex_keys i k v (o : plain) :
  array_index k = Some i ->
  nonindex_keys (own_insert_index i (k, v) o) = nonindex_keys o.
Proof.
  intros Hk. unfold nonindex_keys.
  assert (Hf : not_index k = false)
    by (unfold not_index, is_array_index; now rewrite Hk).
  induction o as [| [k0 v0] o IH]; simpl.
  - now rewrite Hf.
  - destruct (array_index k0) eqn:Hk0; [destruct (i <? n)%N |]; simpl;
      rewrite ?Hf; try reflexivity.
    now rewrite IH.
Qed.

Lemma plain_incr_nonindex_keys (o : plain) k :
  nonindex_keys (plain_incr o k)
  = if not_index k && negb (mem k (nonindex_keys o))
    then nonindex_keys o ++ [k] else nonindex_keys o.
Proof.
  assert (Hmem : not_index k = true ->
                 mem k (nonindex_keys o) = true <-> In k (map fst o)).
  { intros Hk. unfold mem, nonindex_keys. rewrite existsb_exists. split.
    - intros [x [Hx E]]. apply String.eqb_eq in E. subst x.
      now apply filter_In in Hx.
    - intros H. exists k. rewrite filter_In, String.eqb_refl. tauto. }
  unfold plain_incr, own_set. destruct (own_get o k) eqn:E.
  - unfold nonindex_keys at 1. rewrite own_replace_keys.
    fold (nonindex_keys o).
    destruct (not_index k) eqn:Hk; [| reflexivity].
    assert (Hin : In k (map fst o)).
    { destruct (in_dec string_dec k (map fst o)); [assumption |].
      apply own_get_None in n0. congruence. }
    apply Hmem in Hin; [| reflexivity]. now rewrite Hin.
  - apply own_get_None in E.
    destruct (array_index k) eqn:Hk.
    + rewrite (insert_index_nonindex_keys _ _ _ _ Hk).
      unfold not_index, is_array_index. now rewrite Hk.
    + assert (Hn : not_index k = true)
        by (unfold not_index, is_array_index; now rewrite Hk).
      rewrite Hn. simpl.
      specialize (Hmem Hn).
      destruct (mem k (nonindex_keys o)).
      * exfalso. now apply E, Hmem.
      * simpl. unfold nonindex_keys. rewrite map_app, filter_app.
        simpl. now rewrite Hn.
Qed.

Lemma filter_compose {A : Type} (f g : A -> bool) l :
  filter f (filter g l) = filter (fun x => f x && g x) l.
Proof.
  induction l as [| x l IH]; simpl; [reflexivity |].
  destruct (g x); simpl; rewrite ?andb_false_r, ?andb_true_r;
    [destruct (f x) |]; now rewrite IH.
Qed.

Lemma mem_snoc x l k : mem x (l ++ [k]) = mem x l || String.eqb x k.
Proof.
  unfold mem. rewrite existsb_app. simpl. now rewrite orb_false_r.
Qed.

(** Keys that are not array indices are listed in order of first
    appearance. *)
Lemma tally_nonindex_keys ks : forall o : plain,
  nonindex_keys (fold_left plain_incr ks o)
  = nonindex_keys o
    ++ filter (fun k => negb (mem k (nonindex_keys o)))
         (first_seen (filter not_index ks)).
Proof.
  induction ks as [| k ks IH]; intros o.
  - simpl. now rewrite app_nil_r.
  - cbn [fold_left]. rewrite IH, plain_incr_nonindex_keys.
    cbn [filter]. destruct (not_index k) eqn:Hk; [| reflexivity].
    cbn [first_seen filter andb].
    destruct (mem k (nonindex_keys o)) eqn:Hm; cbn [negb].
    + f_equal. rewrite filter_compose. apply filter_ext_in.
      intros x _. destruct (String.eqb_spec x k) as [-> | Hne];
        [now rewrite Hm | now rewrite andb_true_r].
    + rewrite <- app_assoc. cbn [app]. do 2 f_equal.
      rewrite filter_compose. apply filter_ext.
      intros x. rewrite mem_snoc. now rewrite negb_orb.
Qed.

Lemma tally_first_seen ks :
  nonindex_keys (tally ks) = first_seen (filter not_index ks).
Proof.
  unfold tally. rewrite tally_nonindex_keys. simpl.
  induction (first_seen (filter not_index ks)) as [| x l IH];
    simpl; [reflexivity | now rewrite IH].
Qed.

Lemma nonindex_tail_split (o : plain) :
  Forall (fun k => array_index k = None) (map fst o) ->
  filter (fun e => is_array_index (fst e)) o = []
  /\ filter (fun e => not_index (fst e)) o = o.
Proof.
  induction o as [| [k v] o IH]; simpl; intros H; [tauto |].
  inversion H as [| ? ? Hk Ho]; subst.
  destruct (IH Ho) as [E1 E2].
  unfold not_index, is_array_index in *. rewrite Hk. simpl.
  now rewrite E1, E2.
Qed.

(** In property order the array-index keys come first. *)
Lemma ordered_split (o : plain) :
  StronglySorted key_precedes (map fst o) ->
  o = filter (fun e => is_array_index (fst e)) o
      ++ filter (fun e => not_index (fst e)) o.
Proof.
  induction o as [| [k v] o IH]; intros Hs; [reflexivity |].
  simpl in Hs. inversion Hs as [| ? ? Hs' Hall]; subst.
  cbn [filter fst].
  destruct (array_index k) eqn:Hk.
  - assert (E1 : is_array_index k = true)
      by (unfold is_array_index; now rewrite Hk).
    assert (E2 : not_index k = false)
      by (unfold not_index; now rewrite E1).
    rewrite E1, E2. cbn [app]. f_equal. now apply IH.
  - assert (E1 : is_array_index k = false)
      by (unfold is_array_index; now rewrite Hk).
    assert (E2 : not_index k = true)
      by (unfold not_index; now rewrite E1).
    rewrite E1, E2.
    assert (Ho : Forall (fun x => array_index x = None) (map fst o)).
    { eapply Forall_impl; [| exact Hall].
      intros x. now apply key_precedes_nonindex. }
    destruct (nonindex_tail_split o Ho) as [F1 F2].
    now rewrite F1, F2.
Qed.

Lemma sorted_map_filter {A B : Type} (R : B -> B -> Prop) (f : A -> B)
  (p : A -> bool) l :
  StronglySorted R (map f l) -> StronglySorted R (map f (filter p l)).
Proof.
  induction l as [| x l IH]; simpl; intros Hs; [constructor |].
  inversion Hs as [| ? ? Hs' Hall]; subst.
  destruct (p x); simpl; [| now apply IH].
  constructor; [now apply IH |].
  rewrite Forall_forall in *. intros y Hy. apply Hall.
  apply in_map_iff in Hy as [z [<- Hz]].
  apply in_map. now apply filter_In in Hz.
Qed.

Lemma index_sorted l :
  StronglySorted key_precedes l ->
  Forall (fun k => is_array_index k = true) l ->
  StronglySorted index_lt l.
Proof.
  induction 1 as [| k l Hs IH Hall]; intros Hidx; [constructor |].
  inversion Hidx as [| ? ? Hk Hl]; subst.
  constructor; [now apply IH |].
  rewrite Forall_forall in *. intros x Hx.
  specialize (Hall x Hx). specialize (Hl x Hx).
  unfold key_precedes, index_lt, is_array_index in *.
  destruct (array_index k), (array_index x); try discriminate; assumption.
Qed.

Lemma filter_by_count (f : string -> nat) (c : nat) (o : plain) :
  Forall (fun e => snd e = f (fst e)) o ->
  map fst (filter (fun e => snd e =? c) o)
  = filter (fun k => f k =? c) (map fst o).
Proof.
  induction o as [| [k v] o IH]; simpl; intros H; [reflexivity |].
  inversion H as [| ? ? Hv Ho]; subst. simpl in Hv. subst v.
  destruct (f k =? c); simpl; now rewrite IH.
Qed.

(** ** Aggregator *)

Lemma type_label_code work :
  match type work with
  | Some (String a t) => String a t
  | _ => "Other"
  end = type_label work.
Proof.
  unfold type_label. destruct (type work) as [[| a t] |]; reflexivity.
Qed.

Lemma year_key_code work (o : obj) :
  match year work with
  | Some y =>
      if number_truthy y then obj_incr o (Number_toString y) else o
  | None => o
  end
  = fold_left obj_incr
      (match counted_year work with
       | Some z => [Number_toString (Num z)]
       | None => []
       end) o.
Proof.
  unfold counted_year. destruct (year work) as [[| z] |]; try reflexivity.
  simpl. destruct (z =? 0)%Z; reflexivity.
Qed.

Lemma count_works_fold ws : forall c,
  fold_left count_work ws c
  = {| totalPubs := totalPubs c;
       yearCounts := fold_left obj_incr (year_keys ws) (yearCounts c);
       typeCounts := fold_left obj_incr (type_keys ws) (typeCounts c) |}.
Proof.
  induction ws as [| w ws IH]; intros c; [now destruct c |].
  cbn [fold_left]. rewrite IH. unfold count_work. cbn.
  rewrite type_label_code, year_key_code.
  now rewrite fold_left_app.
Qed.

Lemma count_profiles_fold data : forall c,
  fold_left count_profile data c
  = {| totalPubs := totalPubs c + List.length (all_works data);
       yearCounts :=
         fold_left obj_incr (year_keys (all_works data)) (yearCounts c);
       typeCounts :=
         fold_left obj_incr (type_keys (all_works data)) (typeCounts c) |}.
Proof.
  induction data as [| p data IH]; intros c.
  - destruct c. simpl. now rewrite Nat.add_0_r.
  - cbn [fold_left]. rewrite IH. unfold count_profile.
    rewrite count_works_fold. cbn.
    unfold year_keys, type_keys.
    rewrite flat_map_app, map_app, !fold_left_app, length_app.
    f_equal. unfold all_works. lia.
Qed.

Lemma all_works_length data :
  List.length (all_works data)
  = list_sum (map (fun p => List.length (works p)) data).
Proof.
  induction data as [| p data IH]; simpl; [reflexivity |].
  now rewrite length_app, IH.
Qed.

(** *** The counter object and the plain counter

    As long as no key names a member of [Object.prototype], the counter
    object holds numbers only and is the plain counter. *)

Lemma own_get_counts (o : plain) k :
  own_get (counts o) k = option_map Count (own_get o k).
Proof.
  induction o as [| [k' v] o IH]; [reflexivity |].
  cbn [counts map own_get fst snd]. fold (counts o).
  destruct (String.eqb k' k); [reflexivity | exact IH].
Qed.

Lemma own_replace_counts (o : plain) k v :
  own_replace (counts o) k (Count v) = counts (own_replace o k v).
Proof.
  induction o as [| [k' v'] o IH]; [reflexivity |].
  cbn [counts map own_replace fst snd]. fold (counts o).
  destruct (String.eqb k' k); [reflexivity |].
  rewrite IH. reflexivity.
Qed.

Lemma own_insert_index_counts i k v (o : plain) :
  own_insert_index i (k, Count v) (counts o)
  = counts (own_insert_index i (k, v) o).
Proof.
  induction o as [| [k' v'] o IH]; [reflexivity |].
  cbn [counts map own_insert_index fst snd]. fold (counts o).
  destruct (array_index k') as [j |]; [| reflexivity].
  destruct (i <? j)%N; [reflexivity |].
  rewrite IH. reflexivity.
Qed.

Lemma own_set_counts (o : plain) k v :
  own_set (counts o) k (Count v) = counts (own_set o k v).
Proof.
  unfold own_set. rewrite own_get_counts.
  destruct (own_get o k); cbn [option_map].
  - apply own_replace_counts.
  - destruct (array_index k).
    + apply own_insert_index_counts.
    + unfold counts. now rewrite map_app.
Qed.

Lemma obj_incr_counts (o : plain) k :
  inherited k = false -> obj_incr (counts o) k = counts (plain_incr o k).
Proof.
  unfold inherited. intros Hk.
  assert (Hp : String.eqb k "__proto__" = false).
  { destruct (String.eqb_spec k "__proto__") as [-> |]; [| reflexivity].
    discriminate Hk. }
  unfold obj_incr, obj_get, obj_set, plain_incr.
  rewrite Hp, own_get_counts.
  destruct (own_get o k) as [v |]; cbn [option_map or_zero_plus_one].
  - apply own_set_counts.
  - destruct (own_get Object_prototype k); [discriminate Hk |].
    apply own_set_counts.
Qed.

Lemma obj_tally_counts ks :
  Forall (fun k => inherited k = false) ks ->
  forall o : plain,
    fold_left obj_incr ks (counts o) = counts (fold_left plain_incr ks o).
Proof.
  induction 1 as [| k ks Hk _ IH]; intros o; [reflexivity |].
  cbn [fold_left]. rewrite obj_incr_counts by assumption. apply IH.
Qed.

(** A member of [Object.prototype] is named by a letter or an underscore
    first. *)
Lemma inherited_head k :
  inherited k = true ->
  match k with
  | String c _ => is_digit c = false /\ Ascii.eqb c "-" = false
  | EmptyString => False
  end.
Proof.
  unfold inherited, Object_prototype. cbn [own_get].
  repeat match goal with
         | |- context [String.eqb ?a k] =>
             destruct (String.eqb_spec a k) as [E | _];
             [subst k; intros _; split; reflexivity |]
         end.
  discriminate.
Qed.

(** The notation of a number never names one. *)
Lemma year_key_not_inherited z : inherited (Number_toString (Num z)) = false.
Proof.
  destruct (inherited (Number_toString (Num z))) eqn:E; [| reflexivity].
  apply inherited_head in E. unfold Number_toString in E.
  destruct (z <? 0)%Z; [destruct E as [_ E]; discriminate E |].
  destruct (decimal_of_N_spec (Z.abs_N z)) as (Hd & Hne & _).
  destruct (decimal_of_N (Z.abs_N z)) as [| c s']; [contradiction |].
  simpl in Hd. apply andb_true_iff in Hd as [Hc _].
  destruct E as [E _]. congruence.
Qed.

Lemma year_keys_not_inherited ws :
  Forall (fun k => inherited k = false) (year_keys ws).
Proof.
  apply Forall_forall. intros k Hk. unfold year_keys in Hk.
  apply in_flat_map in Hk as [w [_ Hk]].
  destruct (counted_year w) as [z |]; [| contradiction].
  destruct Hk as [<- | []]. apply year_key_not_inherited.
Qed.

Lemma sort_insert_map {A B : Type} (f : A -> B)
  (cmpA : A -> A -> Z) (cmpB : B -> B -> Z) :
  (forall a b, cmpB (f a) (f b) = cmpA a b) ->
  forall x l,
    sort_insert cmpB (f x) (map f l) = map f (sort_insert cmpA x l).
Proof.
  intros Hc x l. induction l as [| y l IH]; [reflexivity |].
  cbn [map sort_insert]. rewrite Hc.
  destruct (cmpA x y <=? 0)%Z; [reflexivity |].
  cbn [map]. now rewrite IH.
Qed.

Lemma Array_sort_map {A B : Type} (f : A -> B)
  (cmpA : A -> A -> Z) (cmpB : B -> B -> Z) :
  (forall a b, cmpB (f a) (f b) = cmpA a b) ->
  forall l, Array_sort cmpB (map f l) = map f (Array_sort cmpA l).
Proof.
  intros Hc l. unfold Array_sort.
  induction l as [| x l IH]; [reflexivity |].
  cbn [map fold_right]. rewrite IH. now apply sort_insert_map.
Qed.

(** The year histogram holds numbers only, whatever the works. *)
Lemma year_histogram_counts ws :
  Array_sort (fun a b : number * slot =>
                compare_result (number_sub (fst a) (fst b)))
    (map (fun e => (parseInt (fst e) None, snd e))
         (obj_tally (year_keys ws)))
  = counts
      (Array_sort (fun a b : number * nat =>
                     compare_result (number_sub (fst a) (fst b)))
         (map (fun e => (parseInt (fst e) None, snd e))
              (tally (year_keys ws)))).
Proof.
  unfold obj_tally, tally.
  pose proof (obj_tally_counts _ (year_keys_not_inherited ws) []) as E.
  change (@counts string []) with (@nil (string * slot)) in E. rewrite E.
  unfold counts. rewrite map_map.
  rewrite <- (Array_sort_map
                (fun e : number * nat => (fst e, Count (snd e)))
                (fun a b => compare_result (number_sub (fst a) (fst b)))
                (fun a b => compare_result (number_sub (fst a) (fst b))))
    by reflexivity.
  now rewrite map_map.
Qed.

(** The type histogram holds numbers only when no label names a member of
    [Object.prototype]. *)
Lemma type_histogram_counts labels :
  Forall (fun t => inherited t = false) labels ->
  Array_sort (fun a b : string * slot =>
                compare_result
                  (number_sub (slot_number (snd b)) (slot_number (snd a))))
    (obj_tally labels)
  = counts
      (Array_sort (fun a b : string * nat =>
                     (Z.of_nat (snd b) - Z.of_nat (snd a))%Z)
         (tally labels)).
Proof.
  intros Hl. unfold obj_tally, tally.
  pose proof (obj_tally_counts _ Hl []) as E.
  change (@counts string []) with (@nil (string * slot)) in E. rewrite E.
  unfold counts. apply Array_sort_map. reflexivity.
Qed.

(** The summary of a non-empty collection, with the loops resolved. *)
Lemma stats_nonempty data :
  data <> [] ->
  stats data
  = Some {| totalResearchers := List.length data;
            totalPublications := List.length (all_works data);
            avgPublications :=
              float_div (float_of_nat (List.length (all_works data)))
                        (float_of_nat (List.length data));
            publicationsByYear :=
              counts
                (Array_sort
                   (fun a b => compare_result (number_sub (fst a) (fst b)))
                   (map (fun e => (parseInt (fst e) None, snd e))
                        (tally (year_keys (all_works data)))));
            publicationsByType :=
              Array_sort
                (fun a b =>
                   compare_result
                     (number_sub (slot_number (snd b))
                                 (slot_number (snd a))))
                (obj_tally (type_keys (all_works data)));
            processedProfiles := data |}.
Proof.
  intros Hne. unfold stats.
  destruct data as [| p data]; [congruence |].
  cbn [List.length Nat.eqb Nat.ltb Nat.leb].
  rewrite count_profiles_fold. cbn [yearCounts typeCounts totalPubs].
  fold (obj_tally (year_keys (all_works (p :: data)))).
  fold (obj_tally (type_keys (all_works (p :: data)))).
  rewrite year_histogram_counts. reflexivity.
Qed.

(** The same when no label names a member of [Object.prototype]. *)
Lemma stats_plain data :
  data <> [] ->
  Forall (fun w => inherited (type_label w) = false) (all_works data) ->
  stats data
  = Some {| totalResearchers := List.length data;
            totalPublications := List.length (all_works data);
            avgPublications :=
              float_div (float_of_nat (List.length (all_works data)))
                        (float_of_nat (List.length data));
            publicationsByYear :=
              counts
                (Array_sort
                   (fun a b => compare_result (number_sub (fst a) (fst b)))
                   (map (fun e => (parseInt (fst e) None, snd e))
                        (tally (year_keys (all_works data)))));
            publicationsByType :=
              counts
                (Array_sort
                   (fun a b => (Z.of_nat (snd b) - Z.of_nat (snd a))%Z)
                   (tally (type_keys (all_works data))));
            processedProfiles := data |}.
Proof.
  intros Hne Hl. rewrite (stats_nonempty data Hne).
  rewrite type_histogram_counts; [reflexivity |].
  unfold type_keys. apply Forall_forall. intros t Ht.
  apply in_map_iff in Ht as [w [<- Hw]].
  rewrite Forall_forall in Hl. now apply Hl.
Qed.

Lemma sum_counts_counts {K : Type} (h : list (K * nat)) :
  sum_counts (counts h) = sum_plain h.
Proof.
  induction h as [| e h IH]; [reflexivity |].
  cbn [counts map sum_counts sum_plain fold_right snd]. fold (counts h).
  fold (sum_counts (counts h)). fold (sum_plain h). now rewrite IH.
Qed.

Lemma Forall_fst_counts {K : Type} (P : K -> Prop) (h : list (K * nat)) :
  Forall (fun e => P (fst e)) h ->
  Forall (fun e : K * slot => P (fst e)) (counts h).
Proof.
  induction 1 as [| e h He _ IH]; [constructor |].
  cbn [counts map]. constructor; [exact He | exact IH].
Qed.

Lemma In_counts {K : Type} (h : list (K * nat)) k c :
  In (k, Count c) (counts h) <-> In (k, c) h.
Proof.
  unfold counts. rewrite in_map_iff. split.
  - intros [[k' c'] [E H]]. simpl in E. now injection E as <- <-.
  - intros H. now exists (k, c).
Qed.

Lemma sum_plain_map_key {K K' : Type} (f : K -> K') (l : list (K * nat)) :
  sum_plain (map (fun e => (f (fst e), snd e)) l) = sum_plain l.
Proof.
  induction l as [| e l IH]; simpl; [reflexivity | now rewrite IH].
Qed.

Lemma year_keys_length ws :
  List.length (year_keys ws)
  = List.length
      (filter (fun w => match counted_year w with
                        | Some _ => true
                        | None => false
                        end) ws).
Proof.
  induction ws as [| w ws IH]; simpl; [reflexivity |].
  rewrite length_app, IH. now destruct (counted_year w).
Qed.

Lemma filter_length_full {A : Type} (f : A -> bool) l :
  List.length (filter f l) <= List.length l
  /\ (List.length (filter f l) = List.length l
      <-> Forall (fun x => f x = true) l).
Proof.
  induction l as [| x l [IHle IHeq]]; simpl.
  - split; [lia | split; [constructor | reflexivity]].
  - destruct (f x) eqn:E; simpl.
    + split; [lia |]. split.
      * intros H. constructor; [assumption | apply IHeq; lia].
      * intros H. inversion H; subst. f_equal. now apply IHeq.
    + split; [lia |]. split; [lia |].
      intros H. inversion H; subst. congruence.
Qed.

(** Seven publications over twenty researchers: the binary64 number
    nearest to 0.35, which is just below it. *)
Example average_example :
  float_div (float_of_nat 7) (float_of_nat 20)
  = S754_finite false 6305039478318694 (-54).
Proof. reflexivity. Qed.

(** C2 (as stated, refuted).  For the empty sequence the aggregator
    produces no summary at all, so there is no average equal to zero. *)
Lemma empty_sequence_counterexample :
  ~ exists s, stats [] = Some s /\ avgPublications s = S754_zero false.
Proof. intros [s [H _]]. discriminate H. Qed.

(** C2 (amended).  The empty sequence yields no summary.  For every
    non-empty sequence of profiles the summary exists, its publication count
    is the sum of the profiles' work counts, its researcher count is the
    length of the sequence, and its average is the binary64 quotient of the
    two. *)
Theorem summary_counts_and_average :
  stats [] = None
  /\ forall data : list OrcidProfileData,
       data <> [] ->
       exists s,
         stats data = Some s
         /\ totalPublications s
            = list_sum (map (fun p => List.length (works p)) data)
         /\ totalResearchers s = List.length data
         /\ 0 < totalResearchers s
         /\ avgPublications s
            = float_div (float_of_nat (totalPublications s))
                        (float_of_nat (totalResearchers s))
         /\ processedProfiles s = data.
Proof.
  split; [reflexivity |].
  intros data Hne. eexists. split; [now apply stats_nonempty |].
  cbn. repeat split.
  - apply all_works_length.
  - destruct data; [congruence | simpl; lia].
Qed.



Lemma year_keys_In k ws :
  In k (year_keys ws)
  <-> exists w z, In w ws /\ counted_year w = Some z
                  /\ k = Number_toString (Num z).
Proof.
  unfold year_keys. rewrite in_flat_map. split.
  - intros [w [Hw Hk]]. destruct (counted_year w) as [z |] eqn:E;
      [| contradiction].
    destruct Hk as [<- | []]. now exists w, z.
  - intros [w [z [Hw [E ->]]]]. exists w. split; [assumption |].
    rewrite E. now left.
Qed.

Lemma year_keys_occurrences z ws :
  occurrences (Number_toString (Num z)) (year_keys ws) = works_in_year z ws.
Proof.
  unfold occurrences, works_in_year.
  induction ws as [| w ws IH]; [reflexivity |].
  cbn [year_keys flat_map filter]. fold (year_keys ws).
  rewrite count_occ_app, IH.
  destruct (counted_year w) as [z' |]; [| reflexivity].
  cbn [count_occ].
  destruct (Z.eqb_spec z' z) as [-> | Hne].
  - destruct (string_dec _ _); [reflexivity | congruence].
  - destruct (string_dec _ _) as [E | _]; [| reflexivity].
    apply Number_toString_inj in E. contradiction.
Qed.

Lemma occurrences_pos k ks : 0 < occurrences k ks <-> In k ks.
Proof. unfold occurrences. symmetry. apply count_occ_In. Qed.

Lemma NoDup_map_in_inj {A B : Type} (f : A -> B) l :
  (forall x y, In x l -> In y l -> f x = f y -> x = y) ->
  NoDup l -> NoDup (map f l).
Proof.
  induction l as [| x l IH]; simpl; intros Hinj Hnd; [constructor |].
  inversion Hnd as [| ? ? Hnotin Hnd']; subst.
  constructor.
  - intros H. apply in_map_iff in H as [y [E Hy]].
    apply Hnotin. rewrite (Hinj x y); auto.
  - apply IH; auto.
Qed.

Lemma sorted_strengthen {A : Type} (R R' : A -> A -> Prop) (P : A -> Prop) l :
  (forall a b, P a -> P b -> R a b -> R' a b) ->
  Forall P l -> StronglySorted R l -> StronglySorted R' l.
Proof.
  intros Himp HP Hs. induction Hs as [| x l Hs IH Hall]; [constructor |].
  inversion HP as [| ? ? Px Pl]; subst.
  constructor; [now apply IH |].
  rewrite Forall_forall in *. intros y Hy. apply Himp; auto.
Qed.

(** The entries of the year counter, read back with [parseInt]. *)
Lemma year_entries ws y c :
  In (y, c) (map (fun e => (parseInt (fst e) None, snd e))
               (tally (year_keys ws)))
  <-> exists z, y = Num z /\ z <> 0%Z
                /\ c = works_in_year z ws /\ 0 < c.
Proof.
  rewrite in_map_iff. split.
  - intros [[k v] [E Hin]]. simpl in E. injection E as <- <-.
    apply tally_entries in Hin as [-> Hpos].
    pose proof Hpos as Hk. apply occurrences_pos, year_keys_In in Hk.
    destruct Hk as [w [z [Hw [Hz ->]]]].
    exists z. rewrite parseInt_Number_toString, year_keys_occurrences.
    rewrite year_keys_occurrences in Hpos.
    repeat split; try assumption.
    unfold counted_year in Hz.
    destruct (year w) as [[| z'] |]; try discriminate.
    destruct (Z.eqb_spec z' 0); [discriminate | congruence].
  - intros [z [-> [_ [-> Hpos]]]].
    exists (Number_toString (Num z), works_in_year z ws). split.
    + cbn [fst snd]. now rewrite parseInt_Number_toString.
    + apply tally_entries. now rewrite year_keys_occurrences.
Qed.

Lemma year_entries_distinct ws :
  NoDup (map year_key
           (map (fun e => (parseInt (fst e) None, snd e))
                (tally (year_keys ws)))).
Proof.
  rewrite map_map. unfold year_key. simpl.
  assert (Hkeys : NoDup (map fst (tally (year_keys ws))))
    by (apply tally_NoDup; constructor).
  assert (Hform : forall e, In e (tally (year_keys ws)) ->
                            exists z, fst e = Number_toString (Num z)).
  { intros [k v] Hin. apply tally_entries in Hin as [-> Hpos].
    apply occurrences_pos, year_keys_In in Hpos.
    destruct Hpos as [w [z [_ [_ ->]]]]. now exists z. }
  rewrite <- (map_map fst (fun k => compare_result (parseInt k None))).
  apply NoDup_map_in_inj; [| assumption].
  intros k k' Hk Hk' E.
  apply in_map_iff in Hk as [e [<- He]].
  apply in_map_iff in Hk' as [e' [<- He']].
  destruct (Hform e He) as [z Hz], (Hform e' He') as [z' Hz'].
  rewrite Hz, Hz' in *. rewrite !parseInt_Number_toString in E.
  simpl in E. now subst.
Qed.

(** C5 (as stated, refuted).  A work whose year is zero, or NaN, has a
    year that is not null and yet gets no entry. *)
Lemma nonnull_year_counterexample :
  exists s,
    stats [ {| orcidId := "0000-0002-1825-0097"; fullName := "Researcher";
               works :=
                 [ {| title := "A"; year := Some (Num 0);
                      type := Some "BOOK"; journal := None; doi := None;
                      putCode := Some "1" |};
                   {| title := "B"; year := Some NaN;
                      type := Some "BOOK"; journal := None; doi := None;
                      putCode := Some "2" |} ] |} ] = Some s
    /\ publicationsByYear s = [].
Proof. eexists. split; [vm_compute; reflexivity | reflexivity]. Qed.

(** C5 (amended).  For every non-empty sequence of works whose years are
    safe integers (or null, or NaN) the summary exists and its year
    histogram has an entry [(y, c)], the count being a number, exactly
    when [y] is a year that is counted (not null, not NaN, not zero) of at
    least one work and [c] is the number of works of that year; the
    entries are strictly ascending by year, hence one per distinct counted
    year. *)
Theorem year_histogram_entries :
  forall data : list OrcidProfileData,
    data <> [] ->
    Forall safe_year (all_works data) ->
    exists s h,
      stats data = Some s
      /\ publicationsByYear s = counts h
      /\ (forall y c,
             In (y, c) h
             <-> exists z, y = Num z /\ z <> 0%Z
                           /\ c = works_in_year z (all_works data)
                           /\ 0 < c)
      /\ StronglySorted (fun a b => number_lt (fst a) (fst b)) h.
Proof.
  intros data Hne _. do 2 eexists. split; [now apply stats_nonempty |].
  split; [reflexivity |].
  set (L := map (fun e => (parseInt (fst e) None, snd e))
              (tally (year_keys (all_works data)))).
  set (cmp := fun a b : number * nat =>
                compare_result (number_sub (fst a) (fst b))).
  assert (HP : Forall (fun e : number * nat => exists z, fst e = Num z) L).
  { apply Forall_forall. intros [y c] Hin.
    apply year_entries in Hin as [z [-> _]]. now exists z. }
  assert (Hcmp : forall a b : number * nat,
             (exists z, fst a = Num z) -> (exists z, fst b = Num z) ->
             cmp a b = (year_key a - year_key b)%Z).
  { intros a b [za Ha] [zb Hb]. unfold cmp, year_key.
    now rewrite Ha, Hb. }
  split.
  - intros y c. rewrite <- year_entries. fold L. split; intros H.
    + eapply Permutation_in; [apply Array_sort_perm | exact H].
    + eapply Permutation_in;
        [symmetry; apply Array_sort_perm | exact H].
  - apply (sorted_strengthen
             (fun a b => (year_key a < year_key b)%Z) _
             (fun e => exists z, fst e = Num z)).
    + intros a b [za Ha] [zb Hb]. unfold year_key, number_lt.
      now rewrite Ha, Hb.
    + now apply Array_sort_Forall.
    + apply sorted_distinct_strict.
      * now apply (Array_sort_sorted cmp year_key _ Hcmp).
      * eapply Permutation_NoDup;
          [apply Permutation_map; symmetry; apply Array_sort_perm |].
        apply year_entries_distinct.
Qed.

Lemma map_fst_filter {A B : Type} (p : A -> bool) (l : list (A * B)) :
  map fst (filter (fun e => p (fst e)) l) = filter p (map fst l).
Proof.
  induction l as [| e l IH]; simpl; [reflexivity |].
  destruct (p (fst e)); simpl; now rewrite IH.
Qed.

(** Entries of one count, in the order of the type counter: array-index
    labels in ascending numeric order, then the other labels in order of
    first appearance. *)
Lemma tally_ties ks c :
  exists idxs,
    map fst (filter (fun e => snd e =? c) (tally ks))
    = idxs ++ filter (fun t => occurrences t ks =? c)
                (first_seen (filter not_index ks))
    /\ Forall (fun k => is_array_index k = true) idxs
    /\ StronglySorted index_lt idxs.
Proof.
  assert (Hord : StronglySorted key_precedes (map fst (tally ks)))
    by (apply tally_ordered; constructor).
  assert (Hocc : Forall (fun e => snd e = occurrences (fst e) ks) (tally ks)).
  { apply Forall_forall. intros [k v] Hin.
    now apply tally_entries in Hin as [-> _]. }
  set (byc := fun e : string * nat => snd e =? c).
  set (Tidx := filter (fun e : string * nat => is_array_index (fst e))
                 (tally ks)).
  set (Tstr := filter (fun e : string * nat => not_index (fst e)) (tally ks)).
  exists (map fst (filter byc Tidx)). repeat split.
  - rewrite (ordered_split (tally ks) Hord) at 1. fold Tidx Tstr.
    rewrite filter_app, map_app. f_equal. unfold byc.
    rewrite (filter_by_count (fun k => occurrences k ks)).
    + unfold Tstr. now rewrite map_fst_filter with (p := not_index),
        <- tally_first_seen.
    + unfold Tstr. apply Forall_forall. intros e He.
      apply filter_In in He as [He _].
      rewrite Forall_forall in Hocc. now apply Hocc.
  - apply Forall_forall. intros k Hk.
    apply in_map_iff in Hk as [e [<- He]].
    apply filter_In in He as [He _]. unfold Tidx in He.
    now apply filter_In in He as [_ He].
  - apply index_sorted.
    + unfold Tidx. now do 2 apply sorted_map_filter.
    + apply Forall_forall. intros k Hk.
      apply in_map_iff in Hk as [e [<- He]].
      apply filter_In in He as [He _]. unfold Tidx in He.
      now apply filter_In in He as [_ He].
Qed.

Lemma count_sort_stable c (l : plain) :
  filter (fun e => snd e =? c)
    (Array_sort (fun a b => (Z.of_nat (snd b) - Z.of_nat (snd a))%Z) l)
  = filter (fun e => snd e =? c) l.
Proof.
  pose proof (Array_sort_stable
                (fun a b : string * nat =>
                   (Z.of_nat (snd b) - Z.of_nat (snd a))%Z)
                count_key (fun _ => True)) as Hst.
  assert (Hext : forall l' : plain,
            filter (fun e => snd e =? c) l'
            = filter (fun e => (count_key e =? - Z.of_nat c)%Z) l').
  { intros l'. apply filter_ext. intros e. unfold count_key.
    destruct (Nat.eqb_spec (snd e) c), (Z.eqb_spec (- Z.of_nat (snd e))
                                                   (- Z.of_nat c));
      try reflexivity; lia. }
  rewrite !Hext. apply Hst.
  - intros a b _ _. unfold count_key. lia.
  - apply Forall_forall. intros; exact I.
Qed.

(** C4 (as stated, refuted).  With the labels "B" then "1", each seen once,
    the histogram lists "1" before "B": the tie is not in order of first
    appearance, because an object lists its integer-like keys first. *)
Lemma tie_order_counterexample :
  exists s,
    stats [ {| orcidId := "0000-0002-1825-0097"; fullName := "Researcher";
               works :=
                 [ {| title := "A"; year := Some (Num 2020);
                      type := Some "B"; journal := None; doi := None;
                      putCode := Some "1" |};
                   {| title := "B"; year := Some (Num 2021);
                      type := Some "1"; journal := None; doi := None;
                      putCode := Some "2" |} ] |} ] = Some s
    /\ publicationsByType s = [("1", Count 1); ("B", Count 1)]
    /\ first_seen ["B"; "1"] = ["B"; "1"].
Proof. eexists. split; [vm_compute; reflexivity |]. split; reflexivity. Qed.

(** C4 (amended).  For every non-empty sequence in which no work is
    labelled with the name of a member of [Object.prototype], the summary
    exists and its type histogram has one entry per label, a work being
    labelled by its type or by "Other" when the type is missing or empty,
    with the number of works of that label; the entries are in
    non-increasing order of
    count; entries of equal count keep the order in which the counter
    object lists its keys, that is integer-like labels in ascending numeric
    order first and then the other labels in order of first appearance (so
    plain first-appearance order when no label is integer-like); an "Other"
    entry is present whenever some work is unlabelled.  The types
    ["JOURNAL_ARTICLE", "JOURNAL_ARTICLE", "", null] give
    JOURNAL_ARTICLE: 2 and Other: 2. *)
Theorem type_histogram_entries :
  (forall data : list OrcidProfileData,
      data <> [] ->
      Forall (fun w => inherited (type_label w) = false) (all_works data) ->
      exists s hist,
        stats data = Some s
        /\ publicationsByType s = counts hist
        /\ let labels := type_keys (all_works data) in
           (forall t c, In (t, c) hist
                        <-> c = occurrences t labels /\ 0 < c)
           /\ NoDup (map fst hist)
           /\ StronglySorted (fun a b => snd b <= snd a) hist
           /\ (forall c, exists idxs,
                  map fst (filter (fun e => snd e =? c) hist)
                  = idxs ++ filter (fun t => occurrences t labels =? c)
                              (first_seen (filter not_index labels))
                  /\ Forall (fun k => is_array_index k = true) idxs
                  /\ StronglySorted index_lt idxs)
           /\ (forallb not_index labels = true ->
               forall c,
                 map fst (filter (fun e => snd e =? c) hist)
                 = filter (fun t => occurrences t labels =? c)
                     (first_seen labels))
           /\ ((exists w, In w (all_works data) /\ type_label w = "Other")
               -> exists c, In ("Other", c) hist /\ 0 < c))
  /\ option_map publicationsByType (stats [sample_profile])
     = Some [("JOURNAL_ARTICLE", Count 2); ("Other", Count 2)].
Proof.
  split; [| vm_compute; reflexivity].
  intros data Hne Hproto. do 2 eexists. split; [now apply stats_plain |].
  split; [reflexivity |]. cbv zeta.
  set (labels := type_keys (all_works data)).
  set (cmp := fun a b : string * nat =>
                (Z.of_nat (snd b) - Z.of_nat (snd a))%Z).
  assert (Hentries : forall t c,
             In (t, c) (Array_sort cmp (tally labels))
             <-> c = occurrences t labels /\ 0 < c).
  { intros t c. rewrite <- tally_entries. split; intros H.
    - eapply Permutation_in; [apply Array_sort_perm | exact H].
    - eapply Permutation_in;
        [symmetry; apply Array_sort_perm | exact H]. }
  assert (Hties : forall c, exists idxs,
             map fst (filter (fun e => snd e =? c)
                        (Array_sort cmp (tally labels)))
             = idxs ++ filter (fun t => occurrences t labels =? c)
                         (first_seen (filter not_index labels))
             /\ Forall (fun k => is_array_index k = true) idxs
             /\ StronglySorted index_lt idxs).
  { intros c. unfold cmp. rewrite count_sort_stable. apply tally_ties. }
  split; [exact Hentries |].
  split; [| split; [| split; [exact Hties | split]]].
  - eapply Permutation_NoDup;
      [apply Permutation_map; symmetry; apply Array_sort_perm |].
    apply tally_NoDup. constructor.
  - apply (sorted_strengthen
             (fun a b => (count_key a <= count_key b)%Z) _
             (fun _ => True)).
    + intros a b _ _. unfold count_key. lia.
    + apply Forall_forall. intros; exact I.
    + apply (Array_sort_sorted cmp count_key (fun _ => True)).
      * intros a b _ _. unfold cmp, count_key. lia.
      * apply Forall_forall. intros; exact I.
  - intros Hall c. destruct (Hties c) as [idxs [E [Hidx _]]].
    rewrite (forallb_filter_id _ _ Hall) in E.
    destruct idxs as [| k idxs]; [exact E |]. exfalso.
    inversion Hidx as [| ? ? Hk _]; subst.
    assert (Hin : In k (map fst (filter (fun e => snd e =? c)
                                   (Array_sort cmp (tally labels)))))
      by (rewrite E; now left).
    apply in_map_iff in Hin as [[k' v] [Ek He]]. simpl in Ek. subst k'.
    apply filter_In in He as [He _].
    apply Hentries in He as [Hv Hpos].
    assert (Hlab : In k labels) by (apply occurrences_pos; lia).
    rewrite forallb_forall in Hall. specialize (Hall k Hlab).
    unfold not_index in Hall. rewrite Hk in Hall. discriminate.
  - intros [w [Hw Hl]]. exists (occurrences "Other" labels).
    assert (Hpos : 0 < occurrences "Other" labels).
    { apply occurrences_pos. unfold labels, type_keys.
      rewrite <- Hl. now apply in_map. }
    split; [now apply Hentries | exact Hpos].
Qed.

(** ** Record Fetcher *)

Lemma works_of_groups_spec groups :
  match works_of_groups groups with
  | inr ws =>
      Forall2 (fun g w => exists s, first_summary g = Some s
                                    /\ w = work_of_summary s) groups ws
  | inl _ => exists g, In g groups /\ first_summary g = None
  end.
Proof.
  induction groups as [| g groups IH]; simpl; [constructor |].
  unfold work_of_group, first_summary.
  destruct (work_summary g) as [[| s rest] |] eqn:E.
  - exists g. unfold first_summary. rewrite E. tauto.
  - destruct (works_of_groups groups) as [e | ws].
    + destruct IH as [g' [Hin Hg']]. exists g'. tauto.
    + constructor; [| exact IH].
      exists s. unfold first_summary. now rewrite E.
  - exists g. unfold first_summary. rewrite E. tauto.
Qed.

Lemma works_of_groups_all groups summaries :
  Forall2 (fun g s => first_summary g = Some s) groups summaries ->
  works_of_groups groups = inr (map work_of_summary summaries).
Proof.
  induction 1 as [| g s groups summaries Hg _ IH]; [reflexivity |].
  simpl. rewrite IH. unfold work_of_group.
  unfold first_summary in Hg.
  destruct (work_summary g) as [[| s' rest] |]; try discriminate.
  now injection Hg as ->.
Qed.

Lemma fetch_attempt_fails cleanId net :
  (exists e, fetch_attempt cleanId net = inl e) <-> fetch_fails net.
Proof.
  destruct net as [| status body]; simpl.
  - split; [tauto | intros _; now eexists].
  - destruct (response_ok status); simpl.
    + destruct body as [data |].
      * unfold groups_of.
        pose proof (works_of_groups_spec
                      (match group data with
                       | Some gs => gs
                       | None => []
                       end)) as Hspec.
        destruct (works_of_groups _) as [e | ws].
        -- split; [intros _; now right | intros _; now eexists].
        -- split; [intros [e He]; discriminate |].
           intros [H | [g [Hin Hg]]]; [discriminate |].
           exfalso. clear - Hspec Hin Hg.
           induction Hspec as [| g' w gs ws [s [Hs _]] _ IH];
             [contradiction |].
           destruct Hin as [-> | Hin]; [congruence | now apply IH].
      * split; [intros _; now right | intros _; now eexists].
    + split; [intros _; now left |].
      intros _. destruct (status =? 404); now eexists.
Qed.

Lemma mock_work_fields rnd orcid i :
  (forall j n, 0 < n -> rnd j n < n) ->
  (exists y, year (mock_work rnd orcid i) = Some (Num y)
             /\ In y mock_years /\ (2018 <= y <= 2024)%Z)
  /\ (exists t, type (mock_work rnd orcid i) = Some t /\ In t mock_types).
Proof.
  intros Hrnd. unfold mock_work. cbn [year type]. split.
  - assert (H : rnd (1 + 2 * i) (List.length mock_years)
                < List.length mock_years) by (apply Hrnd; simpl; lia).
    destruct (nth_error mock_years _) as [y |] eqn:E;
      [| apply nth_error_None in E; lia].
    exists y. apply nth_error_In in E. split; [reflexivity |].
    split; [assumption |].
    simpl in E. lia.
  - assert (H : rnd (2 + 2 * i) (List.length mock_types)
                < List.length mock_types) by (apply Hrnd; simpl; lia).
    destruct (nth_error mock_types _) as [t |] eqn:E;
      [| apply nth_error_None in E; lia].
    exists t. apply nth_error_In in E. tauto.
Qed.

(** C1.  A call of the fetcher always settles by resolving, to a profile
    whose identifier is the trimmed input.  The [try] block throws exactly
    on a network failure, a status outside 200-299, a body that does not
    parse or a group with no first summary; then the call resolves after
    the 500 ms timer to the synthetic profile, which has from 5 to 24 works,
    each with a year among 2018-2024 and a type among the four mock types. *)
Theorem fetcher_never_raises :
  forall (rnd : nat -> nat -> nat) (input : string) (net : FetchOutcome),
    (forall i n, 0 < n -> rnd i n < n) ->
    let run := fetchOrcidData rnd input net in
    (exists p, settled run = resolve p /\ orcidId p = trim input)
    /\ ((exists e, fetch_attempt (trim input) net = inl e)
        <-> fetch_fails net)
    /\ (forall e,
           fetch_attempt (trim input) net = inl e ->
           let mock := generateMockData rnd (trim input) in
           settled run = resolve mock
           /\ delay run = 500
           /\ warned run = Some e
           /\ orcidId mock = trim input
           /\ 5 <= List.length (works mock) <= 24
           /\ Forall (fun w =>
                        (exists y, year w = Some (Num y)
                                   /\ In y mock_years
                                   /\ (2018 <= y <= 2024)%Z)
                        /\ (exists t, type w = Some t /\ In t mock_types))
                (works mock)).
Proof.
  intros rnd input net Hrnd run. split; [| split].
  - unfold run, fetchOrcidData.
    destruct (fetch_attempt (trim input) net) as [e | p] eqn:E; cbn.
    + eexists. split; reflexivity.
    + exists p. split; [reflexivity |].
      unfold fetch_attempt in E. destruct net as [| status body];
        [discriminate |].
      destruct (negb (response_ok status));
        [destruct (status =? 404); discriminate |].
      destruct body as [d |]; [| discriminate].
      destruct (works_of_groups _); [discriminate |].
      now injection E as <-.
  - apply fetch_attempt_fails.
  - intros e He mock. unfold run, fetchOrcidData. rewrite He. cbn.
    repeat split.
    + rewrite length_map, length_seq. lia.
    + rewrite length_map, length_seq.
      assert (rnd 0 20 < 20) by (apply Hrnd; lia). lia.
    + apply Forall_forall. intros w Hw.
      apply in_map_iff in Hw as [i [<- _]].
      now apply mock_work_fields.
Qed.

Lemma fetcher_never_raises_witness :
  exists p,
    settled (fetchOrcidData (fun i n => (7 * i + 3) mod n)
               " 0000-0002-1825-0097 " (Responded 503 None)) = resolve p
    /\ orcidId p = "0000-0002-1825-0097"
    /\ List.length (works p) = 8.
Proof.
  assert (Hrnd : forall i n, 0 < n -> (7 * i + 3) mod n < n)
    by (intros i n Hn; apply Nat.mod_upper_bound; lia).
  destruct (fetcher_never_raises (fun i n => (7 * i + 3) mod n)
              " 0000-0002-1825-0097 " (Responded 503 None) Hrnd)
    as (_ & _ & Hmock).
  destruct (Hmock (FetchError "0000-0002-1825-0097") eq_refl)
    as (Hs & _ & _ & Hid & _).
  eexists. split; [exact Hs |]. split; [exact Hid | reflexivity].
Defined.

Lemma truthy_spec s t :
  truthy s = Some t <-> s = Some t /\ t <> EmptyString.
Proof.
  destruct s as [[| c s'] |]; simpl; split;
    try discriminate; try (intros [H1 H2]; congruence).
  intros H. injection H as <-. split; [reflexivity | discriminate].
Qed.

Lemma truthy_none s :
  truthy s = None <-> s = None \/ s = Some EmptyString.
Proof.
  destruct s as [[| c s'] |]; simpl; split; try tauto; try discriminate.
  intros [H | H]; discriminate.
Qed.

(** [find] returns the first entry tagged "doi". *)
Lemma find_first_doi ids e :
  find is_doi ids = Some e
  <-> exists before after,
        ids = before ++ e :: after
        /\ Forall (fun x => external_id_type x <> Some "doi") before
        /\ external_id_type e = Some "doi".
Proof.
  assert (Hdoi : forall x, is_doi x = true
                           <-> external_id_type x = Some "doi").
  { intros x. unfold is_doi. destruct (external_id_type x) as [t |].
    - rewrite String.eqb_eq. split; congruence.
    - split; discriminate. }
  induction ids as [| x ids IH]; simpl.
  - split; [discriminate |].
    intros (before & after & E & _). now destruct before.
  - destruct (is_doi x) eqn:Ex.
    + split.
      * intros H. injection H as <-. exists [], ids.
        repeat split; [constructor | now apply Hdoi].
      * intros (before & after & E & Hb & He).
        destruct before as [| b before].
        -- simpl in E. congruence.
        -- simpl in E. injection E as <- _.
           inversion Hb as [| ? ? Hx _]; subst.
           apply Hdoi in Ex. contradiction.
    + rewrite IH. split.
      * intros (before & after & -> & Hb & He).
        exists (x :: before), after. repeat split; try assumption.
        constructor; [| assumption].
        intros H. apply Hdoi in H. congruence.
      * intros (before & after & E & Hb & He).
        destruct before as [| b before].
        -- simpl in E. injection E as -> _.
           apply Hdoi in He. congruence.
        -- simpl in E. injection E as <- ->.
           inversion Hb; subst. now exists before, after.
Qed.

(** C8 (as stated, refuted).  A title, year or type that is present but
    empty is treated as absent: the record gets "Untitled", a null year and
    "UNKNOWN", where using the present member would give an empty title,
    the parse of the empty string and an empty label.  And a response with
    a group that has no summary is not mapped at all: the synthetic profile
    is returned. *)
Lemma empty_member_counterexample :
  let s := sample_summary (Some "") (Some "") (Some "") in
  (title (work_of_summary s) = "Untitled"
   /\ title (spec_work_of_summary s) = "")
  /\ (year (work_of_summary s) = None
      /\ year (spec_work_of_summary s) = Some NaN)
  /\ (type (work_of_summary s) = Some "UNKNOWN"
      /\ type (spec_work_of_summary s) = Some "")
  /\ fetchOrcidData (fun _ _ => 0) "0000-0002-1825-0097"
       (Responded 200
          (Some {| group := Some [ {| work_summary := Some [] |} ] |}))
     = {| settled :=
            resolve (generateMockData (fun _ _ => 0) "0000-0002-1825-0097");
          delay := 500;
          warned := Some TypeError |}.
Proof. repeat split. Qed.

(** C8 (amended).  On a response with a success status whose body parses
    and whose groups each have a first summary, the fetcher resolves at
    once to the profile of the trimmed identifier whose works are the
    records of the first summaries, in order.  In a record the title is the
    summary's title value, or "Untitled" when that is absent or empty; the
    year is [parseInt] (radix 10) of the year value, or null when that is
    absent or empty; the type is the summary's type with every underscore
    replaced by a space, or "UNKNOWN" when that is absent or empty; the
    local identifier is the put-code; the external identifier is the value
    of the first external-id entry tagged "doi", absent when there is
    none. *)
Theorem response_mapping :
  forall (rnd : nat -> nat -> nat) (input : string) (status : nat)
         (body : WorksResponse) (summaries : list WorkSummary),
    response_ok status = true ->
    Forall2 (fun g s => first_summary g = Some s) (groups_of body) summaries ->
    fetchOrcidData rnd input (Responded status (Some body))
    = {| settled :=
           resolve {| orcidId := trim input;
                      fullName := "Researcher " +++ trim input;
                      works := map work_of_summary summaries |};
         delay := 0;
         warned := None |}
    /\ forall s : WorkSummary,
         let w := work_of_summary s in
         (forall t, title_value s = Some t -> t <> "" -> title w = t)
         /\ (title_value s = None \/ title_value s = Some ""
             -> title w = "Untitled")
         /\ (forall y, year_value s = Some y -> y <> ""
                       -> year w = Some (parseInt y (Some 10%N)))
         /\ (year_value s = None \/ year_value s = Some "" -> year w = None)
         /\ (forall t, summary_type s = Some t -> t <> ""
                       -> type w = Some (replace_underscores t))
         /\ (summary_type s = None \/ summary_type s = Some ""
             -> type w = Some "UNKNOWN")
         /\ putCode w = put_code s
         /\ (forall ids before e after,
                external_id_list s = Some ids ->
                ids = before ++ e :: after ->
                Forall (fun x => external_id_type x <> Some "doi") before ->
                external_id_type e = Some "doi" ->
                doi w = external_id_value e)
         /\ (forall ids,
                external_id_list s = Some ids ->
                Forall (fun x => external_id_type x <> Some "doi") ids ->
                doi w = None)
         /\ (external_id_list s = None -> doi w = None).
Proof.
  intros rnd input status body summaries Hok Hgroups. split.
  - unfold fetchOrcidData, fetch_attempt. rewrite Hok. cbn [negb].
    fold (groups_of body).
    now rewrite (works_of_groups_all _ _ Hgroups).
  - intros s w. unfold w, work_of_summary.
    fold (title_value s) (year_value s) (external_id_list s).
    cbn [title year type putCode doi].
    split; [| split; [| split; [| split; [| split; [| split;
      [| split; [| split; [| split]]]]]]]].
    + intros t Ht Hne.
      assert (H : truthy (title_value s) = Some t)
        by (now apply truthy_spec).
      now rewrite H.
    + intros H. apply truthy_none in H. now rewrite H.
    + intros y Hy Hne.
      assert (H : truthy (year_value s) = Some y)
        by (now apply truthy_spec).
      now rewrite H.
    + intros H. apply truthy_none in H. now rewrite H.
    + intros t Ht Hne.
      assert (H : truthy (summary_type s) = Some t)
        by (now apply truthy_spec).
      now rewrite H.
    + intros H. apply truthy_none in H. now rewrite H.
    + reflexivity.
    + intros ids before e after Hids E Hb He. rewrite Hids. cbn [chain].
      assert (H : find is_doi ids = Some e).
      { apply find_first_doi. now exists before, after. }
      now rewrite H.
    + intros ids Hids Hall. rewrite Hids. cbn [chain].
      destruct (find is_doi ids) as [e |] eqn:E; [| reflexivity].
      apply find_first_doi in E as (before & after & -> & _ & He).
      apply Forall_app in Hall as [_ Hall].
      inversion Hall; subst. contradiction.
    + intros H. now rewrite H.
Qed.

Lemma response_mapping_witness :
  settled
    (fetchOrcidData (fun _ _ => 0) " 0000-0002-1825-0097"
       (Responded 200
          (Some (sample_response
                   [ sample_summary (Some "On Proofs") (Some "2019")
                       (Some "JOURNAL_ARTICLE");
                     sample_summary None None None ]))))
  = resolve
      {| orcidId := "0000-0002-1825-0097";
         fullName := "Researcher 0000-0002-1825-0097";
         works :=
           [ {| title := "On Proofs"; year := Some (Num 2019);
                type := Some "JOURNAL ARTICLE"; journal := None;
                doi := Some "10.1000/a"; putCode := Some "1234" |};
             {| title := "Untitled"; year := None;
                type := Some "UNKNOWN"; journal := None;
                doi := Some "10.1000/a"; putCode := Some "1234" |} ] |}.
Proof.
  assert (Hg : Forall2 (fun g s => first_summary g = Some s)
                 (groups_of
                    (sample_response
                       [ sample_summary (Some "On Proofs") (Some "2019")
                           (Some "JOURNAL_ARTICLE");
                         sample_summary None None None ]))
                 [ sample_summary (Some "On Proofs") (Some "2019")
                     (Some "JOURNAL_ARTICLE");
                   sample_summary None None None ])
    by (repeat constructor).
  rewrite (proj1 (response_mapping (fun _ _ => 0) " 0000-0002-1825-0097"
                    200 _ _ eq_refl Hg)).
  reflexivity.
Defined.

(** ** Batch Orchestrator *)

Lemma fetch_calls_app e1 e2 :
  fetch_calls (e1 ++ e2) = fetch_calls e1 ++ fetch_calls e2.
Proof. apply flat_map_app. Qed.

Lemma warnings_app e1 e2 : warnings (e1 ++ e2) = warnings e1 ++ warnings e2.
Proof. apply flat_map_app. Qed.

(** The loop calls the fetcher once per identifier, in order, whatever the
    earlier calls returned. *)
Lemma batch_loop_spec fetcher ids : forall k results events,
  exists trace,
    batch_loop fetcher k ids results events
    = (results ++ obtained fetcher k ids, events ++ trace)
    /\ fetch_calls trace = ids
    /\ warnings trace = map skip_message (skipped fetcher k ids).
Proof.
  induction ids as [| id ids IH]; intros k results events.
  - exists []. simpl. now rewrite !app_nil_r.
  - cbn [batch_loop obtained skipped].
    destruct (fetcher k id) as [p | msg].
    + destruct (IH (S k) (results ++ [p]) (events ++ [FetchCall id]))
        as (trace & E & Hc & Hw).
      exists (FetchCall id :: trace). rewrite E, <- !app_assoc.
      repeat split; simpl; congruence.
    + destruct (IH (S k) results
                  (events ++ [FetchCall id; ConsoleWarn (skip_message id)]))
        as (trace & E & Hc & Hw).
      exists (FetchCall id :: ConsoleWarn (skip_message id) :: trace).
      rewrite E, <- !app_assoc. repeat split; simpl; congruence.
Qed.

(** With a fetcher that never rejects, as [fetchOrcidData] is, every
    identifier yields a profile and nothing is skipped. *)
Lemma obtained_all fetcher ids : forall k,
  (forall j id, exists p, fetcher j id = resolve p) ->
  List.length (obtained fetcher k ids) = List.length ids
  /\ skipped fetcher k ids = [].
Proof.
  induction ids as [| id ids IH]; intros k Hres; [split; reflexivity |].
  cbn [obtained skipped]. destruct (Hres k id) as [p ->].
  destruct (IH (S k) Hres) as [Hlen Hskip].
  split; [simpl; now rewrite Hlen | exact Hskip].
Qed.

(** The loop leaves the trace of a strictly sequential run. *)
Lemma batch_loop_trace fetcher ids : forall k results events,
  batch_loop fetcher k ids results events
  = (results ++ obtained fetcher k ids,
     events ++ sequential_trace fetcher k ids).
Proof.
  induction ids as [| id ids IH]; intros k results events.
  - simpl. now rewrite !app_nil_r.
  - cbn [batch_loop obtained sequential_trace].
    destruct (fetcher k id) as [p | msg]; rewrite IH, <- !app_assoc;
      reflexivity.
Qed.

Lemma sequential_trace_app fetcher l1 : forall k l2,
  sequential_trace fetcher k (l1 ++ l2)
  = sequential_trace fetcher k l1
    ++ sequential_trace fetcher (k + List.length l1) l2.
Proof.
  induction l1 as [| id l1 IH]; intros k l2.
  - simpl. now rewrite Nat.add_0_r.
  - cbn [app sequential_trace List.length]. rewrite IH.
    replace (S k + List.length l1) with (k + S (List.length l1)) by lia.
    now rewrite <- !app_assoc.
Qed.

Lemma sequential_trace_projections fetcher ids : forall k,
  fetch_calls (sequential_trace fetcher k ids) = ids
  /\ warnings (sequential_trace fetcher k ids)
     = map skip_message (skipped fetcher k ids).
Proof.
  induction ids as [| id ids IH]; intros k; [split; reflexivity |].
  cbn [sequential_trace skipped]. destruct (IH (S k)) as [Hc Hw].
  destruct (fetcher k id); simpl; rewrite ?Hc, ?Hw; split; reflexivity.
Qed.

(** C7.  With a file whose identifiers are [ids]: when [ids] is empty the
    orchestrator ends with the empty-batch error and has made no call and
    written no diagnostic; otherwise it ends without error, has called the
    fetcher once per identifier in order, holds the profiles of the calls
    that resolved, in order, and has written one diagnostic per call that
    was rejected.  The calls are strictly sequential: the trace of events
    is call, diagnostic of that call if rejected, next call, and so on; so
    when the call for an identifier is made, exactly the calls for the
    identifiers before it have been made and exactly the diagnostics of
    the rejected ones among them have been written. *)
Theorem batch_orchestrator :
  forall (fetcher : nat -> string -> Promise OrcidProfileData)
         (st : AppState) (file : FileRead) (ids : list string),
    csvFile st = Some file ->
    parseCsvFile file = resolve ids ->
    (ids = [] ->
     handleBatchAnalyze fetcher st
     = ({| csvFile := Some file; loading := false;
           error := Some EmptyBatchError; data := [] |}, []))
    /\ (ids <> [] ->
        exists events,
          handleBatchAnalyze fetcher st
          = ({| csvFile := Some file; loading := false; error := None;
                data := obtained fetcher 0 ids |}, events)
          /\ fetch_calls events = ids
          /\ warnings events = map skip_message (skipped fetcher 0 ids)
          /\ events = sequential_trace fetcher 0 ids
          /\ (forall before id after,
                 ids = before ++ id :: after ->
                 exists earlier later,
                   events = earlier ++ FetchCall id :: later
                   /\ fetch_calls earlier = before
                   /\ warnings earlier
                      = map skip_message (skipped fetcher 0 before))).
Proof.
  intros fetcher st file ids Hfile Hparse.
  unfold handleBatchAnalyze. rewrite Hfile, Hparse. split.
  - intros ->. reflexivity.
  - intros Hne. destruct ids as [| id0 ids0] eqn:Eids; [congruence |].
    cbn [List.length Nat.eqb]. rewrite batch_loop_trace. cbn [app].
    rewrite <- Eids. clear Eids Hne Hparse.
    exists (sequential_trace fetcher 0 ids).
    destruct (sequential_trace_projections fetcher ids 0) as [Hc Hw].
    split; [reflexivity |]. split; [exact Hc |]. split; [exact Hw |].
    split; [reflexivity |].
    intros before id after ->. rewrite sequential_trace_app.
    destruct (sequential_trace_projections fetcher before 0) as [Hc' Hw'].
    exists (sequential_trace fetcher 0 before). eexists.
    split; [cbn [sequential_trace]; reflexivity |].
    split; assumption.
Qed.

(** ** Chat Context Builder *)

Lemma append_empty_r (s : string) : (s +++ "")%string = s.
Proof. induction s as [| c s IH]; simpl; [reflexivity | now rewrite IH]. Qed.

Lemma join_from_tail sep l : forall R k,
  join_from sep R (S k) l = (R +++ tail_join sep l)%string.
Proof.
  induction l as [| x l IH]; intros R k; simpl.
  - now rewrite append_empty_r.
  - rewrite IH. now rewrite !append_assoc_string.
Qed.

Lemma concat_tail sep l : forall x,
  String.concat sep (x :: l) = (x +++ tail_join sep l)%string.
Proof.
  induction l as [| y l IH]; intros x.
  - simpl. now rewrite append_empty_r.
  - change (String.concat sep (x :: y :: l))
      with (x +++ sep +++ String.concat sep (y :: l))%string.
    now rewrite IH.
Qed.

(** [join] is the usual concatenation with separators. *)
Lemma Array_join_concat sep l : Array_join sep l = String.concat sep l.
Proof.
  destruct l as [| x l]; [reflexivity |].
  unfold Array_join. cbn [join_from Nat.eqb].
  now rewrite join_from_tail, concat_tail.
Qed.

Lemma split_last_digit s :
  s <> EmptyString -> all_digits s = true ->
  exists d,
    substring (String.length s - 1) 1 s = String d EmptyString
    /\ is_digit d = true
    /\ all_digits (substring 0 (String.length s - 1) s) = true
    /\ String.length (substring 0 (String.length s - 1) s)
       = String.length s - 1.
Proof.
  induction s as [| c s IH]; intros Hne Hd; [congruence |].
  simpl in Hd. apply andb_true_iff in Hd as [Hc Hs].
  destruct s as [| c' s'].
  - exists c. repeat split; assumption.
  - destruct IH as (d & E1 & Hdig & Hall & Hlen);
      [discriminate | assumption |].
    exists d.
    replace (String.length (String c (String c' s')) - 1)
      with (S (String.length (String c' s') - 1))
      by (cbn [String.length]; lia).
    set (s := String c' s') in *.
    change (substring (S (String.length s - 1)) 1 (String c s))
      with (substring (String.length s - 1) 1 s).
    change (substring 0 (S (String.length s - 1)) (String c s))
      with (String c (substring 0 (String.length s - 1) s)).
    repeat split; try assumption.
    + cbn [all_digits]. now rewrite Hc, Hall.
    + cbn [String.length]. now rewrite Hlen.
Qed.

Lemma with_point_shape ds :
  ds <> EmptyString -> all_digits ds = true ->
  exists whole d,
    with_point ds = (whole +++ "." +++ String d EmptyString)%string
    /\ whole <> EmptyString /\ all_digits whole = true
    /\ is_digit d = true.
Proof.
  intros Hne Hd. unfold with_point.
  destruct (Nat.leb_spec (String.length ds) 1) as [Hshort | Hlong].
  - destruct ds as [| c [| c' s']]; [congruence | | simpl in Hshort; lia].
    exists "0", c. simpl in Hd. rewrite andb_true_r in Hd.
    repeat split; [discriminate | assumption].
  - destruct (split_last_digit ds Hne Hd) as (d & E1 & Hdig & Hall & Hlen).
    exists (substring 0 (String.length ds - 1) ds), d.
    rewrite E1. repeat split; try assumption.
    intros E. rewrite E in Hlen. simpl in Hlen. lia.
Qed.

Lemma toFixed1_one_decimal x : is_finite x = true -> one_decimal (toFixed1 x).
Proof.
  destruct x as [s | s | | s m e]; try discriminate; intros _.
  - exists "", "0", "0"%char. repeat split; [now left | discriminate].
  - destruct (decimal_of_N_spec (tenths m e)) as (Hd & Hne & _).
    destruct (with_point_shape _ Hne Hd) as (whole & d & E & Hw & Ha & Hdig).
    exists (if s then "-" else ""), whole, d.
    unfold toFixed1. rewrite E.
    repeat split; try assumption. destruct s; [now right | now left].
Qed.

(** *** What the printed numbers denote *)

Lemma digit_char_zero d : (d < 10)%N -> digit_char d = "0"%char -> d = 0%N.
Proof.
  intros H E. pose proof (digit_char_value d H) as Hv.
  rewrite E in Hv. change (digit_value "0") with (Some 0%N) in Hv.
  congruence.
Qed.

(** The leading digit of a positive number is not zero. *)
Lemma digits_loop_head fuel : forall n,
  N.to_nat (N.log2 n) < fuel -> (0 < n)%N ->
  exists c rest,
    digits_loop fuel n EmptyString = String c rest /\ c <> "0"%char.
Proof.
  induction fuel as [| fuel IH]; intros n Hf Hpos; [lia |].
  cbn [digits_loop]. cbv zeta.
  destruct (N.ltb_spec n 10) as [Hlt | Hge].
  - rewrite N.mod_small by assumption.
    exists (digit_char n), EmptyString. split; [reflexivity |].
    intros E. apply digit_char_zero in E; lia.
  - rewrite digits_loop_acc.
    assert (Hq : N.to_nat (N.log2 (n / 10)) < fuel).
    { pose proof (log2_div10 n Hge). lia. }
    assert (Hq0 : (0 < n / 10)%N) by (apply N.div_str_pos; lia).
    destruct (IH (n / 10)%N Hq Hq0) as (c & rest & E & Hc).
    rewrite E. now exists c, (rest +++ String (digit_char (n mod 10)) "").
Qed.

Lemma numeral_decimal n : numeral (decimal_of_N n) n.
Proof.
  destruct (decimal_of_N_spec n) as (Hd & Hne & Hv).
  repeat split; try assumption.
  destruct (N.eq_dec n 0) as [-> | Hn]; [exact I |].
  destruct (digits_loop_head (S (N.to_nat (N.log2 n))) n) as (c & rest & E & Hc);
    [lia | lia |].
  unfold decimal_of_N. rewrite E. simpl. now destruct rest.
Qed.

Lemma numeral_show_nat n : numeral (show_nat n) (N.of_nat n).
Proof.
  unfold show_nat, Number_toString.
  destruct (Z.ltb_spec (Z.of_nat n) 0) as [H | _]; [lia |].
  replace (Z.abs_N (Z.of_nat n)) with (N.of_nat n) by lia.
  apply numeral_decimal.
Qed.

Lemma number_text_toString y : number_text (Number_toString y) y.
Proof.
  destruct y as [| z]; [reflexivity |].
  exists (decimal_of_N (Z.abs_N z)). split; [apply numeral_decimal |].
  reflexivity.
Qed.

Lemma slot_text_show v : slot_text (show_slot v) v.
Proof. destruct v as [n | t]; [apply numeral_show_nat | reflexivity]. Qed.

Lemma split_last_concat s :
  s <> EmptyString ->
  (substring 0 (String.length s - 1) s
   +++ substring (String.length s - 1) 1 s)%string = s.
Proof.
  induction s as [| c s IH]; intros Hne; [congruence |].
  destruct s as [| c' s']; [reflexivity |].
  replace (String.length (String c (String c' s')) - 1)
    with (S (String.length (String c' s') - 1))
    by (cbn [String.length]; lia).
  set (t := String c' s') in *.
  change (substring (S (String.length t - 1)) 1 (String c t))
    with (substring (String.length t - 1) 1 t).
  change (substring 0 (S (String.length t - 1)) (String c t))
    with (String c (substring 0 (String.length t - 1) t)).
  cbn [append]. f_equal. apply IH. discriminate.
Qed.

(** The point goes before the last digit, and nothing else changes. *)
Lemma with_point_numeral ds t :
  numeral ds t ->
  exists whole d,
    with_point ds = (whole +++ "." +++ String d EmptyString)%string
    /\ all_digits whole = true /\ whole <> EmptyString
    /\ no_leading_zero whole /\ is_digit d = true
    /\ digits_value 10 (whole +++ String d EmptyString) 0 = t.
Proof.
  intros (Hd & Hne & Hlead & Hv). unfold with_point.
  destruct ds as [| c [| c' s']]; [congruence | |].
  - exists "0", c. simpl in Hd. rewrite andb_true_r in Hd.
    split; [reflexivity |]. split; [reflexivity |].
    split; [discriminate |]. split; [exact I |].
    split; [exact Hd | exact Hv].
  - set (ds := String c (String c' s')) in *.
    assert (Hlong : (String.length ds <=? 1) = false) by reflexivity.
    rewrite Hlong.
    destruct (split_last_digit ds Hne Hd) as (d & E1 & Hdig & Hall & Hlen).
    pose proof (split_last_concat ds Hne) as Hcat. rewrite E1 in Hcat.
    exists (substring 0 (String.length ds - 1) ds), d.
    rewrite E1, Hcat. repeat split; try assumption.
    + intros E. rewrite E in Hlen. simpl in Hlen. lia.
    + unfold ds. cbn [String.length Nat.sub]. cbn [substring].
      destruct (String.length s'); [exact I | exact Hlead].
Qed.

Lemma tenths_nearest m e : nearest_tenths m e (tenths m e).
Proof.
  unfold nearest_tenths, tenths. cbv zeta.
  destruct (Z.leb_spec 0 e) as [He | He].
  - rewrite (Z.max_r 0 e) by lia. rewrite (Z.max_l 0 (- e)) by lia.
    rewrite !N2Z.inj_mul, N2Z.inj_pow, Z2N.id by lia.
    change (Z.of_N 10) with 10%Z. change (Z.of_N 2) with 2%Z.
    change (Z.of_N (N.pos m)) with (Z.pos m).
    change (2 ^ 0)%Z with 1%Z.
    set (X := (Z.pos m * 2 ^ e)%Z).
    replace (20 * Z.pos m * 2 ^ e)%Z with (20 * X)%Z by (unfold X; ring).
    replace (10 * Z.pos m * 2 ^ e)%Z with (10 * X)%Z by (unfold X; ring).
    lia.
  - rewrite (Z.max_l 0 e) by lia. rewrite (Z.max_r 0 (- e)) by lia.
    change (2 ^ 0)%Z with 1%Z.
    set (k := Z.to_N (- e)).
    assert (Hq : (2 ^ (- e))%Z = Z.of_N (2 ^ k)).
    { unfold k. rewrite N2Z.inj_pow, Z2N.id by lia. reflexivity. }
    rewrite Hq.
    assert (Hk : (2 ^ (k + 1) = 2 * 2 ^ k)%N)
      by (rewrite N.add_1_r, N.pow_succ_r'; reflexivity).
    rewrite Hk.
    set (q := (2 ^ k)%N) in *.
    assert (Hq0 : (0 < q)%N).
    { unfold q. apply N.neq_0_lt_0. apply N.pow_nonzero. discriminate. }
    pose proof (N.div_mod (20 * N.pos m + q) (2 * q)) as Hdm.
    pose proof (N.mod_lt (20 * N.pos m + q) (2 * q)) as Hlt.
    set (t := ((20 * N.pos m + q) / (2 * q))%N) in *.
    set (r := ((20 * N.pos m + q) mod (2 * q))%N) in *.
    assert (Hdm' : (20 * N.pos m + q = 2 * q * t + r)%N) by (apply Hdm; lia).
    assert (Hlt' : (r < 2 * q)%N) by (apply Hlt; lia).
    clear Hdm Hlt.
    assert (HZ : (20 * Z.pos m + Z.of_N q
                  = 2 * Z.of_N q * Z.of_N t + Z.of_N r)%Z).
    { apply (f_equal Z.of_N) in Hdm'.
      rewrite !N2Z.inj_add, !N2Z.inj_mul in Hdm'. exact Hdm'. }
    assert (HrZ : (0 <= Z.of_N r < 2 * Z.of_N q)%Z) by lia.
    set (Y := (Z.of_N q * Z.of_N t)%Z) in *.
    replace (2 * Z.of_N q * Z.of_N t)%Z with (2 * Y)%Z in HZ
      by (unfold Y; ring).
    replace (2 * Z.of_N t * Z.of_N q)%Z with (2 * Y)%Z by (unfold Y; ring).
    lia.
Qed.

Lemma average_text_toFixed1 x : average_text (toFixed1 x) x.
Proof.
  destruct x as [s | s | | s m e]; try reflexivity.
  destruct (with_point_numeral _ _ (numeral_decimal (tenths m e)))
    as (whole & d & E & Hall & Hne & Hlead & Hdig & Hv).
  exists whole, d. unfold toFixed1. rewrite E, Hv.
  split; [reflexivity |]. split; [exact Hall |]. split; [exact Hne |].
  split; [exact Hlead |]. split; [exact Hdig | apply tenths_nearest].
Qed.

(** The layout of the instruction, in the printing functions of the
    code. *)
Lemma systemInstruction_layout (ctx : AnalysisStats) :
  systemInstruction (Some ctx)
  = (preamble
     +++ briefing_head
     +++ briefing_line "Total Researchers Analyzed"
           (show_nat (totalResearchers ctx))
     +++ briefing_line "Total Publications"
           (show_nat (totalPublications ctx))
     +++ briefing_line "Average Publications per Researcher"
           (toFixed1 (avgPublications ctx))
     +++ briefing_line "Top Years"
           (String.concat ", "
              (map (fun e => entry_label (Number_toString (fst e)) (snd e))
                   (firstn 3 (publicationsByYear ctx))))
     +++ briefing_line "Top Types"
           (String.concat ", "
              (map (fun e => entry_label (fst e) (snd e))
                   (firstn 3 (publicationsByType ctx))))
     +++ briefing_tail)%string.
Proof.
  unfold systemInstruction, briefing_head, briefing_line, briefing_tail,
    line_start, entry_label, Array_slice, nl, indent, LF.
  rewrite !Array_join_concat.
  cbn [Nat.sub skipn].
  rewrite !append_assoc_string. reflexivity.
Qed.

(** C9.  Without a summary the instruction is the preamble alone.  With a
    summary whose numbers are in the range JavaScript writes in plain
    decimal notation, it is the preamble followed by a block of five
    captioned lines: the decimal numeral of the number of researchers; the
    decimal numeral of the number of publications; the average with one
    digit after the point, denoting the multiple of one tenth nearest to
    the average; the first three entries of the year histogram; and the
    first three entries of the type histogram, each entry written
    "label (count)" with the numeral of its year or its type label and the
    numeral of its count, and the entries joined by ", ".  The session
    gets this instruction when an API key is set. *)
Theorem system_instruction_briefing :
  systemInstruction None
  = "You are a helpful research assistant bot analyzing academic publication data."
  /\ (forall ctx : AnalysisStats,
         safe_summary ctx ->
         exists researchers publications average years types,
           systemInstruction (Some ctx)
           = (systemInstruction None
              +++ briefing_head
              +++ briefing_line "Total Researchers Analyzed" researchers
              +++ briefing_line "Total Publications" publications
              +++ briefing_line "Average Publications per Researcher"
                    average
              +++ briefing_line "Top Years" (String.concat ", " years)
              +++ briefing_line "Top Types" (String.concat ", " types)
              +++ briefing_tail)%string
           /\ numeral researchers (N.of_nat (totalResearchers ctx))
           /\ numeral publications (N.of_nat (totalPublications ctx))
           /\ average_text average (avgPublications ctx)
           /\ Forall2 year_entry_text
                (firstn 3 (publicationsByYear ctx)) years
           /\ Forall2 type_entry_text
                (firstn 3 (publicationsByType ctx)) types)
  /\ (forall key contextData,
         key <> EmptyString ->
         create_chat (Some key) contextData
         = Some {| model := "gemini-3-pro-preview";
                   config_systemInstruction :=
                     systemInstruction contextData |}).
Proof.
  split; [reflexivity |]. split.
  - intros ctx _.
    exists (show_nat (totalResearchers ctx)),
           (show_nat (totalPublications ctx)),
           (toFixed1 (avgPublications ctx)),
           (map (fun e => entry_label (Number_toString (fst e)) (snd e))
                (firstn 3 (publicationsByYear ctx))),
           (map (fun e => entry_label (fst e) (snd e))
                (firstn 3 (publicationsByType ctx))).
    split; [apply systemInstruction_layout |].
    split; [apply numeral_show_nat |].
    split; [apply numeral_show_nat |].
    split; [apply average_text_toFixed1 |].
    split.
    + induction (firstn 3 (publicationsByYear ctx)) as [| e l IH];
        constructor; [| exact IH].
      exists (Number_toString (fst e)), (show_slot (snd e)).
      split; [reflexivity |].
      split; [apply number_text_toString | apply slot_text_show].
    + induction (firstn 3 (publicationsByType ctx)) as [| e l IH];
        constructor; [| exact IH].
      exists (show_slot (snd e)).
      split; [reflexivity | apply slot_text_show].
  - intros key contextData Hne. unfold create_chat.
    destruct key; [congruence | reflexivity].
Qed.

(** ** Instances on sample data *)

Lemma summary_counts_witness :
  exists s,
    stats [sample_profile; sample_profile] = Some s
    /\ totalPublications s = 8 /\ totalResearchers s = 2.
Proof.
  destruct (proj2 summary_counts_and_average [sample_profile; sample_profile])
    as (s & Hs & Hp & Hr & _); [discriminate |].
  exists s. split; [exact Hs |]. split; [exact Hp | exact Hr].
Defined.


Lemma year_histogram_witness :
  exists s,
    stats [sample_profile] = Some s
    /\ In (Num 2021, Count 2) (publicationsByYear s).
Proof.
  destruct (year_histogram_entries [sample_profile])
    as (s & h & Hs & Hh & Hent & _).
  - discriminate.
  - repeat constructor; unfold safe_integer; simpl; lia.
  - exists s. split; [exact Hs |]. rewrite Hh. apply In_counts.
    apply Hent. exists 2021%Z. split; [reflexivity |].
    split; [discriminate |]. split; [reflexivity | repeat constructor].
Defined.

Lemma type_histogram_witness :
  exists s,
    stats [sample_profile] = Some s
    /\ In ("Other", Count 2) (publicationsByType s).
Proof.
  destruct (proj1 type_histogram_entries [sample_profile])
    as (s & h & Hs & Hh & Hent & _).
  - discriminate.
  - repeat constructor.
  - exists s. split; [exact Hs |]. rewrite Hh. apply In_counts.
    apply Hent. split; [reflexivity | repeat constructor].
Defined.

Lemma batch_orchestrator_witness :
  (exists events,
      handleBatchAnalyze sample_fetcher
        {| csvFile := Some sample_upload; loading := false;
           error := None; data := [] |}
      = ({| csvFile := Some sample_upload; loading := false; error := None;
            data := [ {| orcidId := "0000-0001-5109-3700";
                         fullName := "Researcher 0000-0001-5109-3700";
                         works := [] |} ] |}, events)
      /\ events
         = [ FetchCall "0000-0002-1825-0097";
             ConsoleWarn "Skipping 0000-0002-1825-0097 due to error";
             FetchCall "0000-0001-5109-3700" ])
  /\ handleBatchAnalyze sample_fetcher
       {| csvFile := Some (ReadText "orcid"); loading := false;
          error := None; data := [] |}
     = ({| csvFile := Some (ReadText "orcid"); loading := false;
           error := Some EmptyBatchError; data := [] |}, []).
Proof.
  split.
  - destruct (proj2 (batch_orchestrator sample_fetcher
                       {| csvFile := Some sample_upload; loading := false;
                          error := None; data := [] |}
                       sample_upload
                       ["0000-0002-1825-0097"; "0000-0001-5109-3700"]
                       eq_refl eq_refl))
      as (events & Hrun & _ & _ & Htrace & _); [discriminate |].
    exists events. split; [exact Hrun | exact Htrace].
  - apply (proj1 (batch_orchestrator sample_fetcher
                    {| csvFile := Some (ReadText "orcid"); loading := false;
                       error := None; data := [] |}
                    (ReadText "orcid") [] eq_refl eq_refl)).
    reflexivity.
Defined.

Lemma system_instruction_witness :
  (exists researchers publications average years types,
      systemInstruction (Some sample_stats)
      = (systemInstruction None
         +++ briefing_head
         +++ briefing_line "Total Researchers Analyzed" researchers
         +++ briefing_line "Total Publications" publications
         +++ briefing_line "Average Publications per Researcher" average
         +++ briefing_line "Top Years" (String.concat ", " years)
         +++ briefing_line "Top Types" (String.concat ", " types)
         +++ briefing_tail)%string
      /\ numeral researchers 20
      /\ numeral publications 7
      /\ average_text average (avgPublications sample_stats))
  /\ create_chat (Some "key") (Some sample_stats)
     = Some {| model := "gemini-3-pro-preview";
               config_systemInstruction :=
                 systemInstruction (Some sample_stats) |}.
Proof.
  split.
  - destruct (proj1 (proj2 system_instruction_briefing) sample_stats)
      as (r & p & a & ys & ts & E & Hr & Hp & Ha & _).
    + unfold safe_summary.
      split; [vm_compute; split; discriminate |].
      split; [vm_compute; split; discriminate |].
      split; [vm_compute; reflexivity |].
      split;
        repeat (constructor; [vm_compute; repeat split; discriminate |]);
        constructor.
    + exists r, p, a, ys, ts. split; [exact E |]. split; [exact Hr |].
      split; [exact Hp | exact Ha].
  - apply (proj2 (proj2 system_instruction_briefing)). discriminate.
Defined.

(* ===================================================================== *)
(** * Part III: further properties of the code *)
(* ===================================================================== *)

(** ** Identifier Extractor: what [parseCsvFile] returns *)

Lemma trimEnd_keeps s : forall c,
  last_char s = Some c -> is_ws c = false -> trimEnd s = s.
Proof.
  induction s as [| a s IH]; intros c Hlast Hc; [discriminate |].
  destruct s as [| b s'].
  - simpl in Hlast. injection Hlast as <-. simpl. now rewrite Hc.
  - change (last_char (String a (String b s')))
      with (last_char (String b s')) in Hlast.
    assert (E := IH c Hlast Hc).
    remember (String b s') as t eqn:Et. simpl. rewrite E.
    now subst t.
Qed.

Ltac shape_step H id :=
  let c := fresh "c" in
  let Hc := fresh "Hc" in
  destruct id as [| c id]; [discriminate H |];
  cbn [shape_match] in H; apply andb_true_iff in H as [Hc H].

(** A string of the shape has nineteen characters and no white space at
    either end. *)
Lemma orcid_shape_trimmed id :
  orcid_shape id = true -> String.length id = 19 /\ trim id = id.
Proof.
  intros H. unfold orcid_shape in H.
  do 19 (shape_step H id).
  destruct id; [| discriminate H].
  split; [reflexivity |].
  unfold trim.
  destruct (is_digit_not_special c Hc) as (Hws & _).
  cbn [trimStart]. rewrite Hws.
  apply trimEnd_keeps with (c := c17); [reflexivity |].
  unfold is_digit_or_X in Hc17.
  apply orb_true_iff in Hc17 as [Hd | Hx].
  - now destruct (is_digit_not_special c17 Hd).
  - apply Ascii.eqb_eq in Hx. now subst.
Qed.

Lemma scan_rows_shaped idx rows :
  Forall (fun id => orcid_shape id = true) (scan_rows idx rows).
Proof.
  induction rows as [| line rows IH]; simpl; [constructor |].
  destruct (_ >? _)%Z; [| assumption].
  destruct (matches ORCID_RE _) eqn:E; [| assumption].
  constructor; [| assumption]. now rewrite <- ORCID_RE_shape.
Qed.

Lemma scan_rows_length idx rows :
  List.length (scan_rows idx rows) <= List.length rows.
Proof.
  induction rows as [| line rows IH]; simpl; [lia |].
  destruct (_ >? _)%Z; [| lia].
  destruct (matches ORCID_RE _); simpl; lia.
Qed.

Lemma split_lines_nonempty s : split_lines s <> [].
Proof.
  destruct s as [| c s]; simpl; [discriminate |].
  destruct (Ascii.eqb c LF); [discriminate |].
  destruct (Ascii.eqb c CR).
  - destruct s as [| c' s'].
    + destruct (split_lines ""); discriminate.
    + destruct (Ascii.eqb c' LF); [discriminate |].
      destruct (split_lines (String c' s')); discriminate.
  - destruct (split_lines s); discriminate.
Qed.

(** Splitting after a first line [l] that holds no line feed: [l] is put
    in front of the first line of the rest, unless [l] ends with a carriage
    return that a line feed at the start of the rest completes. *)
Lemma split_lines_app l : forall rest,
  no_LF l = true ->
  (ends_with_CR l = true ->
   match rest with String c _ => Ascii.eqb c LF = false | _ => True end) ->
  split_lines (l +++ rest) = prepend_line l (split_lines rest).
Proof.
  induction l as [| a l IH]; intros rest Hlf Hcr.
  - simpl. pose proof (split_lines_nonempty rest).
    destruct (split_lines rest); [congruence | reflexivity].
  - cbn [no_LF] in Hlf. apply andb_true_iff in Hlf as [Ha Hl].
    apply negb_true_iff in Ha.
    assert (Htail : split_lines (l +++ rest)
                    = prepend_line l (split_lines rest)).
    { apply IH; [assumption |]. intros H. apply Hcr.
      unfold ends_with_CR in *. destruct l as [| b l']; [discriminate |].
      exact H. }
    assert (Hkeep :
      match split_lines (l +++ rest) with
      | [] => [String a EmptyString]
      | line :: lines => String a line :: lines
      end = prepend_line (String a l) (split_lines rest)).
    { rewrite Htail. pose proof (split_lines_nonempty rest).
      destruct (split_lines rest); [congruence | reflexivity]. }
    change (String a l +++ rest)%string with (String a (l +++ rest)%string).
    cbn [split_lines]. rewrite Ha.
    destruct (Ascii.eqb a CR) eqn:Ea; [| exact Hkeep].
    destruct l as [| b l'].
    + cbn [append]. destruct rest as [| c rest']; [exact Hkeep |].
      assert (Hc : Ascii.eqb c LF = false).
      { apply Hcr. unfold ends_with_CR. simpl. exact Ea. }
      rewrite Hc. exact Hkeep.
    + cbn [append]. cbn [no_LF] in Hl.
      apply andb_true_iff in Hl as [Hb _]. apply negb_true_iff in Hb.
      rewrite Hb. exact Hkeep.
Qed.

Lemma split_lines_single l : no_LF l = true -> split_lines l = [l].
Proof.
  intros H. rewrite <- (append_empty_r l) at 1.
  rewrite split_lines_app; [| assumption | tauto].
  simpl. now rewrite append_empty_r.
Qed.

(** Joining lines with LF, or with CR LF, and splitting gives the lines
    back. *)
Lemma split_lines_join_LF l ls :
  Forall (fun x => no_LF x = true /\ ends_with_CR x = false) (l :: ls) ->
  split_lines (String.concat (String LF EmptyString) (l :: ls)) = l :: ls.
Proof.
  revert l. induction ls as [| l' ls IH]; intros l Hall.
  - simpl. inversion Hall as [| ? ? [Hl _] _]; subst.
    now apply split_lines_single.
  - inversion Hall as [| ? ? [Hl Hcr] Hrest]; subst.
    change (String.concat (String LF EmptyString) (l :: l' :: ls))
      with (l +++ String LF
              (String.concat (String LF EmptyString) (l' :: ls)))%string.
    rewrite split_lines_app; [| assumption | congruence].
    cbn [split_lines]. change (Ascii.eqb LF LF) with true. cbn iota.
    rewrite (IH l' Hrest). simpl. now rewrite append_empty_r.
Qed.

Lemma split_lines_join_CRLF l ls :
  Forall (fun x => no_LF x = true) (l :: ls) ->
  split_lines (String.concat CRLF (l :: ls)) = l :: ls.
Proof.
  revert l. induction ls as [| l' ls IH]; intros l Hall.
  - simpl. inversion Hall; subst. now apply split_lines_single.
  - inversion Hall as [| ? ? Hl Hrest]; subst.
    change (String.concat CRLF (l :: l' :: ls))
      with (l +++ String CR
              (String LF (String.concat CRLF (l' :: ls))))%string.
    rewrite split_lines_app; [| assumption | intros _; reflexivity].
    cbn [split_lines]. change (Ascii.eqb CR LF) with false.
    change (Ascii.eqb CR CR) with true. change (Ascii.eqb LF LF) with true.
    cbn iota. rewrite (IH l' Hrest). simpl. now rewrite append_empty_r.
Qed.

Lemma indexOf_first x l idx :
  indexOf x l = Z.of_nat idx ->
  nth_error l idx = Some x
  /\ forall j, j < idx -> nth_error l j <> Some x.
Proof.
  revert idx. induction l as [| y l IH]; intros idx H; simpl in H; [lia |].
  destruct (String.eqb_spec y x) as [-> | Hne].
  - assert (idx = 0) by lia. subst. split; [reflexivity | lia].
  - pose proof (indexOf_range x l) as R.
    destruct (Z.eqb_spec (indexOf x l) (-1)) as [E | E]; [lia |].
    destruct idx as [| idx]; [lia |].
    destruct (IH idx) as [Hn Hbefore]; [lia |].
    split; [exact Hn |].
    intros [| j] Hj; simpl; [congruence | apply Hbefore; lia].
Qed.

Lemma extracted_shape_helper file ids :
  parseCsvFile file = resolve ids -> Forall (fun id => trim id = id) ids.
Proof.
  intros H. destruct file as [text |]; [| discriminate].
  unfold parseCsvFile in H.
  destruct (_ =? _)%Z; [discriminate |]. injection H as <-.
  eapply Forall_impl; [| apply scan_rows_shaped].
  intros id Hid. now apply orcid_shape_trimmed.
Qed.

(** X1.  Whatever the upload, every identifier the extractor returns has
    the shape [dddd-dddd-dddd-dddc], has nineteen characters and carries no
    surrounding white space. *)
Theorem extracted_identifiers_canonical :
  forall (file : FileRead) (ids : list string),
    parseCsvFile file = resolve ids ->
    Forall (fun id => orcid_shape id = true
                      /\ String.length id = 19
                      /\ trim id = id) ids.
Proof.
  intros file ids H. destruct file as [text |]; [| discriminate].
  unfold parseCsvFile in H.
  destruct (_ =? _)%Z; [discriminate |]. injection H as <-.
  eapply Forall_impl; [| apply scan_rows_shaped].
  intros id Hid. split; [assumption |]. now apply orcid_shape_trimmed.
Qed.

Lemma extracted_identifiers_witness :
  Forall (fun id => orcid_shape id = true
                    /\ String.length id = 19
                    /\ trim id = id)
    ["0000-0002-1825-0097"; "0000-0001-5109-3700"].
Proof.
  exact (extracted_identifiers_canonical sample_upload _ eq_refl).
Defined.

(** X2.  The extractor returns at most one identifier per line after the
    first; an upload without any line feed yields no identifier. *)
Theorem extracted_identifiers_bounded :
  forall (text : string) (ids : list string),
    parseCsvFile (ReadText text) = resolve ids ->
    List.length ids <= List.length (split_lines text) - 1
    /\ (no_LF text = true -> ids = []).
Proof.
  intros text ids H. unfold parseCsvFile in H.
  destruct (_ =? _)%Z; [discriminate |]. injection H as <-.
  split.
  - pose proof (scan_rows_length
                  (indexOf "orcid" (csv_header text))
                  (tl (split_lines text))) as Hlen.
    destruct (split_lines text); simpl in *; lia.
  - intros Hlf. now rewrite (split_lines_single text Hlf).
Qed.

Lemma extracted_identifiers_bounded_witness :
  parseCsvFile (ReadText "orcid, 0000-0002-1825-0097") = resolve [].
Proof.
  destruct (parseCsvFile (ReadText "orcid, 0000-0002-1825-0097"))
    as [ids | msg] eqn:E; [| discriminate E].
  destruct (extracted_identifiers_bounded _ ids E) as [_ H].
  now rewrite (H eq_refl).
Defined.

(** X3.  Line endings do not matter: lines that hold no line feed and do
    not end with a carriage return give the same result joined by LF and
    joined by CR LF. *)
Theorem line_endings_agree :
  forall (l : string) (ls : list string),
    Forall (fun x => no_LF x = true /\ ends_with_CR x = false) (l :: ls) ->
    split_lines (String.concat (String LF EmptyString) (l :: ls)) = l :: ls
    /\ split_lines (String.concat CRLF (l :: ls)) = l :: ls
    /\ parseCsvFile
         (ReadText (String.concat (String LF EmptyString) (l :: ls)))
       = parseCsvFile (ReadText (String.concat CRLF (l :: ls))).
Proof.
  intros l ls Hall.
  assert (H1 := split_lines_join_LF l ls Hall).
  assert (H2 : split_lines (String.concat CRLF (l :: ls)) = l :: ls).
  { apply split_lines_join_CRLF. eapply Forall_impl; [| exact Hall].
    intros x [Hx _]. exact Hx. }
  split; [exact H1 |]. split; [exact H2 |].
  unfold parseCsvFile, csv_header. now rewrite H1, H2.
Qed.

Lemma line_endings_witness :
  parseCsvFile
    (ReadText (String.concat (String LF EmptyString)
                 ["name,orcid"; "Alice,0000-0002-1825-0097"; ""]))
  = parseCsvFile
      (ReadText (String.concat CRLF
                   ["name,orcid"; "Alice,0000-0002-1825-0097"; ""])).
Proof.
  apply (line_endings_agree "name,orcid" ["Alice,0000-0002-1825-0097"; ""]).
  repeat constructor.
Defined.

(** X4.  The identifier column is the leftmost header cell that reads
    "orcid" once lower-cased and trimmed: the cell at the index found is
    such a cell and no cell before it is. *)
Theorem identifier_column_leftmost :
  forall (text : string) (idx : nat),
    indexOf "orcid" (csv_header text) = Z.of_nat idx ->
    let cells := split_on "," (hd EmptyString (split_lines text)) in
    (exists cell, nth_error cells idx = Some cell
                  /\ toLowerCase (trim cell) = "orcid")
    /\ forall j cell, j < idx -> nth_error cells j = Some cell ->
                      toLowerCase (trim cell) <> "orcid".
Proof.
  intros text idx H cells.
  rewrite csv_header_cells in H. fold cells in H.
  destruct (indexOf_first _ _ _ H) as [Hn Hbefore].
  split.
  - rewrite nth_error_map in Hn.
    destruct (nth_error cells idx) as [cell |]; [| discriminate].
    exists cell. split; [reflexivity |]. simpl in Hn. congruence.
  - intros j cell Hj Hcell E. apply (Hbefore j Hj).
    rewrite nth_error_map, Hcell. simpl. now rewrite E.
Qed.

Lemma identifier_column_witness :
  exists cell,
    nth_error (split_on "," "id, ORCID ,orcid") 1 = Some cell
    /\ toLowerCase (trim cell) = "orcid".
Proof.
  exact (proj1 (identifier_column_leftmost "id, ORCID ,orcid" 1 eq_refl)).
Defined.

(** ** Aggregator: years from the registry and independence of order *)

Lemma Number_toString_nonempty z : Number_toString (Num z) <> EmptyString.
Proof.
  unfold Number_toString. destruct (z <? 0)%Z; [discriminate |].
  now destruct (decimal_of_N_spec (Z.abs_N z)) as (_ & H & _).
Qed.

(** [parseInt] with radix 10 reads back the decimal notation. *)
Lemma parseInt10_digits s :
  all_digits s = true -> s <> EmptyString ->
  parseInt s (Some 10%N) = Num (Z.of_N (digits_value 10 s 0))
  /\ parseInt (String "-" s) (Some 10%N)
     = Num (- Z.of_N (digits_value 10 s 0)).
Proof.
  intros Hd Hne.
  assert (Hstrip :
    match s with
    | String c (String x rest) =>
        if false && Ascii.eqb c "0" && (Ascii.eqb x "x" || Ascii.eqb x "X")
        then (16%N, rest) else (10%N, s)
    | _ => (10%N, s)
    end = (10%N, s)).
  { destruct s as [| c [| x rest]]; reflexivity. }
  destruct s as [| c s']; [congruence |].
  assert (Hc : is_digit c = true)
    by (simpl in Hd; now apply andb_true_iff in Hd).
  destruct (is_digit_not_special c Hc) as (Hws & Hm & Hp & _).
  split.
  - unfold parseInt. cbn [trimStart]. rewrite Hws, Hm, Hp.
    cbn [N.eqb N.ltb N.compare Pos.compare Pos.compare_cont negb andb orb].
    change (10 =? 16)%positive with false. rewrite Hstrip. rewrite take_digits_all by assumption. reflexivity.
  - unfold parseInt. cbn [trimStart].
    change (is_ws "-") with false. cbn iota.
    change (Ascii.eqb "-" "-") with true. cbn iota.
    cbn [N.eqb N.ltb N.compare Pos.compare Pos.compare_cont negb andb orb].
    change (10 =? 16)%positive with false. rewrite Hstrip. rewrite take_digits_all by assumption. reflexivity.
Qed.

Lemma parseInt10_Number_toString z :
  parseInt (Number_toString (Num z)) (Some 10%N) = Num z.
Proof.
  destruct (decimal_of_N_spec (Z.abs_N z)) as (Hd & Hne & Hv).
  destruct (parseInt10_digits _ Hd Hne) as [Hpos Hneg].
  unfold Number_toString. destruct (Z.ltb_spec z 0).
  - rewrite Hneg, Hv. f_equal. lia.
  - rewrite Hpos, Hv. f_equal. lia.
Qed.

(** X5.  From the registry to the histogram: a summary whose year value is
    the decimal notation of a safe integer gives a record with that year,
    and the aggregator counts the record under it unless the integer is
    zero; the key the aggregator writes for such a year is read back as
    that year. *)
Theorem registry_year_counted :
  forall (summary : WorkSummary) (z : Z),
    safe_integer z ->
    year_value summary = Some (Number_toString (Num z)) ->
    year (work_of_summary summary) = Some (Num z)
    /\ counted_year (work_of_summary summary)
       = (if (z =? 0)%Z then None else Some z)
    /\ parseInt (Number_toString (Num z)) None = Num z.
Proof.
  intros summary z _ Hy.
  assert (Hyear : year (work_of_summary summary) = Some (Num z)).
  { unfold work_of_summary. cbn [year]. fold (year_value summary).
    rewrite Hy. pose proof (Number_toString_nonempty z) as Hne.
    destruct (Number_toString (Num z)) eqn:E; [congruence |].
    cbn [truthy]. rewrite <- E. now rewrite parseInt10_Number_toString. }
  split; [exact Hyear |]. split.
  - unfold counted_year. now rewrite Hyear.
  - apply parseInt_Number_toString.
Qed.

Lemma registry_year_witness :
  counted_year
    (work_of_summary (sample_summary (Some "T") (Some "2019") None))
  = Some 2019%Z.
Proof.
  destruct (registry_year_counted
              (sample_summary (Some "T") (Some "2019") None) 2019%Z)
    as (_ & H & _).
  - unfold safe_integer. lia.
  - reflexivity.
  - exact H.
Defined.

Lemma works_in_year_perm z ws ws' :
  Permutation ws ws' -> works_in_year z ws = works_in_year z ws'.
Proof.
  unfold works_in_year.
  induction 1 as [| w l l' _ IH | w w' l | l l' l'' _ IH1 _ IH2];
    simpl; try congruence.
  - destruct (match counted_year w with Some z' => _ | None => _ end);
      simpl; congruence.
  - destruct (match counted_year w with Some z' => _ | None => _ end),
             (match counted_year w' with Some z' => _ | None => _ end);
      reflexivity.
Qed.

Lemma year_histogram_In ws y c :
  In (y, c)
     (Array_sort (fun a b => compare_result (number_sub (fst a) (fst b)))
        (map (fun e => (parseInt (fst e) None, snd e))
             (tally (year_keys ws))))
  <-> exists z, y = Num z /\ z <> 0%Z /\ c = works_in_year z ws /\ 0 < c.
Proof.
  rewrite <- year_entries. split; intros H.
  - eapply Permutation_in; [apply Array_sort_perm | exact H].
  - eapply Permutation_in; [symmetry; apply Array_sort_perm | exact H].
Qed.

Lemma year_histogram_sorted ws :
  StronglySorted (fun a b => number_lt (fst a) (fst b))
    (Array_sort (fun a b => compare_result (number_sub (fst a) (fst b)))
       (map (fun e => (parseInt (fst e) None, snd e))
            (tally (year_keys ws)))).
Proof.
  set (L := map (fun e => (parseInt (fst e) None, snd e))
              (tally (year_keys ws))).
  set (cmp := fun a b : number * nat =>
                compare_result (number_sub (fst a) (fst b))).
  assert (HP : Forall (fun e : number * nat => exists z, fst e = Num z) L).
  { apply Forall_forall. intros [y c] Hin.
    apply year_entries in Hin as [z [-> _]]. now exists z. }
  assert (Hcmp : forall a b : number * nat,
             (exists z, fst a = Num z) -> (exists z, fst b = Num z) ->
             cmp a b = (year_key a - year_key b)%Z).
  { intros a b [za Ha] [zb Hb]. unfold cmp, year_key. now rewrite Ha, Hb. }
  apply (sorted_strengthen
           (fun a b => (year_key a < year_key b)%Z) _
           (fun e => exists z, fst e = Num z)).
  - intros a b [za Ha] [zb Hb]. unfold year_key, number_lt.
    now rewrite Ha, Hb.
  - now apply Array_sort_Forall.
  - apply sorted_distinct_strict.
    + now apply (Array_sort_sorted cmp year_key _ Hcmp).
    + eapply Permutation_NoDup;
        [apply Permutation_map; symmetry; apply Array_sort_perm |].
      apply year_entries_distinct.
Qed.

(** Two lists in strict order with the same elements are equal. *)
Lemma sorted_same_elements {A : Type} (R : A -> A -> Prop) :
  (forall x, ~ R x x) -> (forall x y z, R x y -> R y z -> R x z) ->
  forall l1 l2,
    StronglySorted R l1 -> StronglySorted R l2 ->
    (forall x, In x l1 <-> In x l2) -> l1 = l2.
Proof.
  intros Hirr Htr. induction l1 as [| h1 t1 IH]; intros l2 Hs1 Hs2 Hin.
  - destruct l2 as [| h2 t2]; [reflexivity |].
    exfalso. apply (proj2 (Hin h2)). now left.
  - destruct l2 as [| h2 t2].
    + exfalso. apply (proj1 (Hin h1)). now left.
    + inversion Hs1 as [| ? ? Hs1' Hall1]; subst.
      inversion Hs2 as [| ? ? Hs2' Hall2]; subst.
      rewrite Forall_forall in Hall1, Hall2.
      assert (h1 = h2).
      { destruct (proj1 (Hin h1) (or_introl eq_refl)) as [E | H1];
          [now symmetry |].
        destruct (proj2 (Hin h2) (or_introl eq_refl)) as [E | H2];
          [assumption |].
        exfalso. apply (Hirr h1). eapply Htr; [apply Hall1 | apply Hall2];
          assumption. }
      subst h2. f_equal. apply IH; try assumption.
      intros x. split; intros Hx.
      * destruct (proj1 (Hin x) (or_intror Hx)) as [E | H]; [| assumption].
        subst x. exfalso. apply (Hirr h1). now apply Hall1.
      * destruct (proj2 (Hin x) (or_intror Hx)) as [E | H]; [| assumption].
        subst x. exfalso. apply (Hirr h1). now apply Hall2.
Qed.

(** X6.  The year histogram does not depend on the order of the profiles
    nor on how the works are spread over them: two non-empty collections
    with the same works in any order, their years being safe integers (or
    null, or NaN), have the same year histogram. *)
Theorem year_histogram_order_independent :
  forall data data' : list OrcidProfileData,
    data <> [] -> data' <> [] ->
    Forall safe_year (all_works data) ->
    Permutation (all_works data) (all_works data') ->
    option_map publicationsByYear (stats data)
    = option_map publicationsByYear (stats data').
Proof.
  intros data data' Hne Hne' _ Hperm.
  rewrite (stats_nonempty data Hne), (stats_nonempty data' Hne').
  cbn [option_map publicationsByYear]. do 2 f_equal.
  apply (sorted_same_elements
           (fun a b : number * nat => number_lt (fst a) (fst b))).
  - intros [[| z] c]; simpl; [tauto | lia].
  - intros [[| x] cx] [[| y] cy] [[| z] cz]; simpl; try tauto; lia.
  - apply year_histogram_sorted.
  - apply year_histogram_sorted.
  - intros [y c]. rewrite !year_histogram_In.
    split; intros [z (Hy & Hz & Hc & Hpos)]; exists z;
      repeat split; try assumption.
    + rewrite Hc. now apply works_in_year_perm.
    + rewrite Hc. symmetry. now apply works_in_year_perm.
Qed.

Lemma year_histogram_order_witness :
  option_map publicationsByYear
    (stats [sample_profile;
            {| orcidId := "0000-0001-5109-3700"; fullName := "Researcher";
               works := [sample_work (Some (Num 1999)) (Some "BOOK")] |}])
  = option_map publicationsByYear
      (stats [{| orcidId := "0000-0001-5109-3700"; fullName := "Researcher";
                 works := [sample_work (Some (Num 1999)) (Some "BOOK")] |};
              sample_profile]).
Proof.
  apply year_histogram_order_independent.
  - discriminate.
  - discriminate.
  - repeat constructor; unfold safe_integer; simpl; lia.
  - apply (Permutation_flat_map works). apply perm_swap.
Defined.

Lemma type_histogram_In labels t c :
  In (t, c)
     (Array_sort (fun a b : string * nat =>
                    (Z.of_nat (snd b) - Z.of_nat (snd a))%Z)
        (tally labels))
  <-> c = occurrences t labels /\ 0 < c.
Proof.
  rewrite <- tally_entries. split; intros H.
  - eapply Permutation_in; [apply Array_sort_perm | exact H].
  - eapply Permutation_in; [symmetry; apply Array_sort_perm | exact H].
Qed.

Lemma type_histogram_NoDup labels :
  NoDup (map fst
           (Array_sort (fun a b : string * nat =>
                          (Z.of_nat (snd b) - Z.of_nat (snd a))%Z)
              (tally labels))).
Proof.
  eapply Permutation_NoDup;
    [apply Permutation_map; symmetry; apply Array_sort_perm |].
  apply tally_NoDup. constructor.
Qed.

Lemma type_histogram_sorted labels :
  StronglySorted (fun a b => snd b <= snd a)
    (Array_sort (fun a b : string * nat =>
                   (Z.of_nat (snd b) - Z.of_nat (snd a))%Z)
       (tally labels)).
Proof.
  apply (sorted_strengthen
           (fun a b => (count_key a <= count_key b)%Z) _ (fun _ => True)).
  - intros a b _ _. unfold count_key. lia.
  - apply Forall_forall. intros; exact I.
  - apply (Array_sort_sorted _ count_key (fun _ => True)).
    + intros a b _ _. unfold count_key. lia.
    + apply Forall_forall. intros; exact I.
Qed.

Lemma occurrences_perm k ks ks' :
  Permutation ks ks' -> occurrences k ks = occurrences k ks'.
Proof.
  intros H. unfold occurrences.
  now apply (proj1 (Permutation_count_occ string_dec ks ks')).
Qed.

(** Two lists of numbers in non-increasing order that are permutations of
    each other are equal. *)
Lemma descending_perm_eq (l1 : list nat) : forall l2,
  StronglySorted (fun a b => b <= a) l1 ->
  StronglySorted (fun a b => b <= a) l2 ->
  Permutation l1 l2 -> l1 = l2.
Proof.
  induction l1 as [| h1 t1 IH]; intros l2 Hs1 Hs2 Hp.
  - apply Permutation_nil in Hp. now subst.
  - destruct l2 as [| h2 t2];
      [apply Permutation_sym, Permutation_nil in Hp; discriminate |].
    inversion Hs1 as [| ? ? Hs1' Hall1]; subst.
    inversion Hs2 as [| ? ? Hs2' Hall2]; subst.
    rewrite Forall_forall in Hall1, Hall2.
    assert (h1 <= h2).
    { assert (Hin : In h1 (h2 :: t2))
        by (eapply Permutation_in; [exact Hp | now left]).
      destruct Hin as [-> | Hin]; [lia | now apply Hall2]. }
    assert (h2 <= h1).
    { assert (Hin : In h2 (h1 :: t1))
        by (eapply Permutation_in; [symmetry; exact Hp | now left]).
      destruct Hin as [-> | Hin]; [lia | now apply Hall1]. }
    assert (h1 = h2) by lia. subst h2. f_equal.
    apply IH; try assumption. now apply Permutation_cons_inv in Hp.
Qed.

Lemma sorted_map_snd (l : list (string * nat)) :
  StronglySorted (fun a b => snd b <= snd a) l ->
  StronglySorted (fun a b => b <= a) (map snd l).
Proof.
  induction 1 as [| x l Hs IH Hall]; simpl; constructor; [assumption |].
  rewrite Forall_forall in *. intros y Hy.
  apply in_map_iff in Hy as [e [<- He]]. now apply Hall.
Qed.

(** X7.  The type histogram depends on the order of the works only for the
    order among entries of equal count: two non-empty collections with the
    same works in any order, none labelled with the name of a member of
    [Object.prototype], have the same entries (as a permutation), the same
    sequence of counts and the same publication count. *)
Theorem type_histogram_order_independent :
  forall data data' : list OrcidProfileData,
    data <> [] -> data' <> [] ->
    Forall (fun w => inherited (type_label w) = false) (all_works data) ->
    Permutation (all_works data) (all_works data') ->
    exists s s',
      stats data = Some s /\ stats data' = Some s'
      /\ Permutation (publicationsByType s) (publicationsByType s')
      /\ map snd (publicationsByType s) = map snd (publicationsByType s')
      /\ totalPublications s = totalPublications s'.
Proof.
  intros data data' Hne Hne' Hproto Hperm.
  assert (Hproto' : Forall (fun w => inherited (type_label w) = false)
                      (all_works data'))
    by (eapply Permutation_Forall; eassumption).
  do 2 eexists. split; [now apply stats_plain |].
  split; [now apply stats_plain |].
  cbn [publicationsByType totalPublications].
  assert (Hlab : Permutation (type_keys (all_works data))
                   (type_keys (all_works data')))
    by (now apply Permutation_map).
  assert (Hp : Permutation
                 (Array_sort (fun a b : string * nat =>
                                (Z.of_nat (snd b) - Z.of_nat (snd a))%Z)
                    (tally (type_keys (all_works data))))
                 (Array_sort (fun a b : string * nat =>
                                (Z.of_nat (snd b) - Z.of_nat (snd a))%Z)
                    (tally (type_keys (all_works data'))))).
  { apply NoDup_Permutation.
    - eapply NoDup_map_inv. apply type_histogram_NoDup.
    - eapply NoDup_map_inv. apply type_histogram_NoDup.
    - intros [t c]. rewrite !type_histogram_In.
      now rewrite (occurrences_perm t _ _ Hlab). }
  split; [now apply Permutation_map |]. split.
  - unfold counts. rewrite !map_map. cbn [snd].
    rewrite <- !(map_map snd Count). f_equal.
    apply descending_perm_eq.
    + apply sorted_map_snd, type_histogram_sorted.
    + apply sorted_map_snd, type_histogram_sorted.
    + now apply Permutation_map.
  - now apply Permutation_length.
Qed.

Lemma type_histogram_order_witness :
  exists s s',
    stats [sample_profile;
           {| orcidId := "0000-0001-5109-3700"; fullName := "Researcher";
              works := [sample_work (Some (Num 1999)) (Some "BOOK")] |}]
    = Some s
    /\ stats [{| orcidId := "0000-0001-5109-3700"; fullName := "Researcher";
                 works := [sample_work (Some (Num 1999)) (Some "BOOK")] |};
              sample_profile] = Some s'
    /\ map snd (publicationsByType s) = map snd (publicationsByType s').
Proof.
  destruct (type_histogram_order_independent
              [sample_profile;
               {| orcidId := "0000-0001-5109-3700"; fullName := "Researcher";
                  works := [sample_work (Some (Num 1999)) (Some "BOOK")] |}]
              [{| orcidId := "0000-0001-5109-3700"; fullName := "Researcher";
                  works := [sample_work (Some (Num 1999)) (Some "BOOK")] |};
               sample_profile])
    as (s & s' & H1 & H2 & _ & H3 & _).
  - discriminate.
  - discriminate.
  - repeat constructor.
  - apply (Permutation_flat_map works). apply perm_swap.
  - exists s, s'. split; [exact H1 |]. split; [exact H2 | exact H3].
Defined.

(** ** Record Fetcher: the records it hands out *)

Lemma append_length_string (a b : string) :
  String.length (a +++ b) = String.length a + String.length b.
Proof. induction a as [| x a IH]; simpl; [reflexivity | now rewrite IH]. Qed.

Lemma append_inv_tail (t : string) : forall a b,
  (a +++ t)%string = (b +++ t)%string -> a = b.
Proof.
  induction a as [| x a IH]; intros b H.
  - destruct b as [| y b]; [reflexivity |].
    apply (f_equal String.length) in H.
    rewrite !append_length_string in H. simpl in H. lia.
  - destruct b as [| y b].
    + apply (f_equal String.length) in H.
      rewrite !append_length_string in H. simpl in H. lia.
    + simpl in H. injection H as -> H. f_equal. now apply IH.
Qed.

Lemma show_nat_inj a b : show_nat a = show_nat b -> a = b.
Proof.
  unfold show_nat. intros H. apply Number_toString_inj in H. lia.
Qed.

(** X8.  Within a synthetic profile the works are told apart by each of
    their local identifier, their external identifier and their title:
    no two works share any of them, whatever the random source. *)
Theorem mock_works_distinct :
  forall (rnd : nat -> nat -> nat) (orcid : string),
    let ws := works (generateMockData rnd orcid) in
    NoDup (map putCode ws) /\ NoDup (map doi ws) /\ NoDup (map title ws).
Proof.
  intros rnd orcid ws. unfold ws, generateMockData. cbn [works].
  rewrite !map_map. cbn [putCode doi title mock_work].
  repeat split; apply NoDup_map_in_inj; try apply seq_NoDup;
    intros i j _ _ H.
  - injection H as H. now apply show_nat_inj.
  - injection H as H. now apply show_nat_inj.
  - injection H as H. apply append_inv_tail in H.
    apply show_nat_inj in H. lia.
Qed.





(** ** Aggregating synthetic profiles *)

Lemma works_in_year_pos z ws :
  0 < works_in_year z ws ->
  exists w, In w ws /\ counted_year w = Some z.
Proof.
  unfold works_in_year. intros H.
  destruct (filter _ ws) as [| w l] eqn:E; [simpl in H; lia |].
  assert (Hin : In w (filter
                        (fun w => match counted_year w with
                                  | Some z' => (z' =? z)%Z
                                  | None => false
                                  end) ws))
    by (rewrite E; now left).
  apply filter_In in Hin as [Hin Hz]. exists w. split; [assumption |].
  destruct (counted_year w) as [z' |]; [| discriminate].
  apply Z.eqb_eq in Hz. now subst.
Qed.

Lemma mock_profile_works rnd orcid :
  (forall i n, 0 < n -> rnd i n < n) ->
  5 <= List.length (works (generateMockData rnd orcid)) <= 24
  /\ Forall (fun w => (exists z, counted_year w = Some z /\ In z mock_years)
                      /\ In (type_label w) mock_types)
       (works (generateMockData rnd orcid)).
Proof.
  intros Hrnd. cbn [generateMockData works]. split.
  - rewrite length_map, length_seq.
    assert (rnd 0 20 < 20) by (apply Hrnd; lia). lia.
  - apply Forall_forall. intros w Hw.
    apply in_map_iff in Hw as [i [<- _]].
    destruct (mock_work_fields rnd orcid i Hrnd)
      as [[y (Hy & Hin & Hrange)] [t (Ht & Htin)]].
    split.
    + exists y. split; [| assumption]. unfold counted_year. rewrite Hy.
      destruct (Z.eqb_spec y 0); [lia | reflexivity].
    + unfold type_label. rewrite Ht.
      destruct (String.eqb_spec t ""); [| assumption].
      subst t. simpl in Htin.
      destruct Htin as [H | [H | [H | [H | []]]]]; discriminate H.
Qed.

(** X10.  A collection made of synthetic profiles only: the summary has
    from 5 to 24 publications per researcher, every publication is counted
    in the year histogram, whose entries are years from 2018 to 2024 and so
    at most seven, and the type histogram has at most four entries, all
    among the mock types. *)
Theorem mock_collection_summary :
  forall data : list OrcidProfileData,
    data <> [] ->
    Forall (fun p => exists rnd orcid,
                       (forall i n, 0 < n -> rnd i n < n)
                       /\ p = generateMockData rnd orcid) data ->
    exists s,
      stats data = Some s
      /\ 5 * totalResearchers s <= totalPublications s
         <= 24 * totalResearchers s
      /\ sum_counts (publicationsByYear s) = totalPublications s
      /\ Forall (fun e => exists z, fst e = Num z /\ (2018 <= z <= 2024)%Z)
           (publicationsByYear s)
      /\ List.length (publicationsByYear s) <= 7
      /\ Forall (fun e => In (fst e) mock_types) (publicationsByType s)
      /\ List.length (publicationsByType s) <= 4.
Proof.
  intros data Hne Hmock.
  assert (Hlen : 5 * List.length data <= List.length (all_works data)
                 <= 24 * List.length data).
  { clear Hne. induction Hmock as [| p data (rnd & orcid & Hrnd & ->) _ IH];
      [simpl; lia |].
    destruct (mock_profile_works rnd orcid Hrnd) as [Hl _].
    unfold all_works in *. cbn [flat_map List.length].
    rewrite length_app. lia. }
  assert (Hworks : Forall (fun w =>
                      (exists z, counted_year w = Some z /\ In z mock_years)
                      /\ In (type_label w) mock_types) (all_works data)).
  { clear Hne Hlen.
    induction Hmock as [| p data (rnd & orcid & Hrnd & ->) _ IH];
      [constructor |].
    unfold all_works in *. cbn [flat_map]. apply Forall_app. split;
      [| exact IH].
    now destruct (mock_profile_works rnd orcid Hrnd). }
  assert (Hproto : Forall (fun w => inherited (type_label w) = false)
                     (all_works data)).
  { eapply Forall_impl; [| exact Hworks]. intros w [_ Ht].
    simpl in Ht. destruct Ht as [<- | [<- | [<- | [<- | []]]]]; reflexivity. }
  eexists. split; [now apply stats_plain |].
  cbn [totalResearchers totalPublications publicationsByYear
       publicationsByType].
  rewrite Forall_forall in Hworks.
  assert (Hyears : forall e,
            In e (Array_sort
                    (fun a b => compare_result (number_sub (fst a) (fst b)))
                    (map (fun e => (parseInt (fst e) None, snd e))
                       (tally (year_keys (all_works data))))) ->
            exists z, fst e = Num z /\ In z mock_years).
  { intros [y c] Hin. apply year_histogram_In in Hin
      as (z & -> & _ & -> & Hpos).
    apply works_in_year_pos in Hpos as (w & Hw & Hz).
    destruct (Hworks w Hw) as [(z' & Hz' & Hin') _].
    exists z. split; [reflexivity | congruence]. }
  assert (Htypes : forall e,
            In e (Array_sort
                    (fun a b : string * nat =>
                       (Z.of_nat (snd b) - Z.of_nat (snd a))%Z)
                    (tally (type_keys (all_works data)))) ->
            In (fst e) mock_types).
  { intros [t c] Hin. apply type_histogram_In in Hin as [-> Hpos].
    apply occurrences_pos in Hpos. unfold type_keys in Hpos.
    apply in_map_iff in Hpos as (w & <- & Hw).
    now destruct (Hworks w Hw). }
  split; [exact Hlen |]. split; [| split; [| split; [| split]]].
  - rewrite sum_counts_counts.
    rewrite (sum_plain_perm _ _ (Array_sort_perm _ _)).
    rewrite (sum_plain_map_key (fun k => parseInt k None)).
    unfold tally. rewrite tally_sum, year_keys_length. simpl.
    apply filter_length_full. apply Forall_forall. intros w Hw.
    destruct (Hworks w Hw) as [(z & -> & _) _]. reflexivity.
  - apply (Forall_fst_counts
             (fun y => exists z, y = Num z /\ (2018 <= z <= 2024)%Z)).
    apply Forall_forall. intros e He.
    destruct (Hyears e He) as (z & Hz & Hin). exists z.
    split; [assumption |]. simpl in Hin. lia.
  - unfold counts. rewrite length_map.
    assert (Hnd : NoDup (map fst
              (Array_sort
                 (fun a b => compare_result (number_sub (fst a) (fst b)))
                 (map (fun e => (parseInt (fst e) None, snd e))
                    (tally (year_keys (all_works data))))))).
    { apply (NoDup_map_inv compare_result). rewrite map_map.
      eapply Permutation_NoDup;
        [apply Permutation_map; symmetry; apply Array_sort_perm |].
      apply year_entries_distinct. }
    rewrite <- (length_map fst).
    change 7 with (List.length (map Num mock_years)).
    apply NoDup_incl_length; [exact Hnd |].
    intros y Hy. apply in_map_iff in Hy as (e & <- & He).
    destruct (Hyears e He) as (z & -> & Hin). now apply in_map.
  - apply (Forall_fst_counts (fun t => In t mock_types)).
    apply Forall_forall. exact Htypes.
  - unfold counts. rewrite length_map. rewrite <- (length_map fst).
    change 4 with (List.length mock_types).
    apply NoDup_incl_length; [apply type_histogram_NoDup |].
    intros t Ht. apply in_map_iff in Ht as (e & <- & He).
    now apply Htypes.
Qed.

Lemma mock_collection_witness :
  exists s,
    stats [generateMockData (fun i n => (7 * i + 3) mod n)
             "0000-0002-1825-0097"] = Some s
    /\ sum_counts (publicationsByYear s) = totalPublications s.
Proof.
  destruct (mock_collection_summary
              [generateMockData (fun i n => (7 * i + 3) mod n)
                 "0000-0002-1825-0097"])
    as (s & Hs & _ & Hsum & _).
  - discriminate.
  - constructor; [| constructor].
    exists (fun i n => (7 * i + 3) mod n), "0000-0002-1825-0097".
    split; [| reflexivity].
    intros i n Hn. apply Nat.mod_upper_bound. lia.
  - exists s. split; [exact Hs | exact Hsum].
Defined.

(** ** App: the handlers with the registry fetcher *)

Lemma fetchOrcidData_resolves rnd input net :
  exists p, settled (fetchOrcidData rnd input net) = resolve p
            /\ orcidId p = trim input.
Proof.
  unfold fetchOrcidData.
  destruct (fetch_attempt (trim input) net) as [e | p] eqn:E; cbn.
  - eexists. split; reflexivity.
  - exists p. split; [reflexivity |].
    unfold fetch_attempt in E. destruct net as [| status body];
      [discriminate |].
    destruct (negb (response_ok status));
      [destruct (status =? 404); discriminate |].
    destruct body as [d |]; [| discriminate].
    destruct (works_of_groups _); [discriminate |].
    now injection E as <-.
Qed.

Lemma registry_obtained rnd net ids : forall k,
  map orcidId (obtained (registry_fetcher rnd net) k ids) = map trim ids
  /\ skipped (registry_fetcher rnd net) k ids = [].
Proof.
  induction ids as [| id ids IH]; intros k; [split; reflexivity |].
  cbn [obtained skipped].
  destruct (fetchOrcidData_resolves (rnd k) id (net k id)) as (p & Hf & Hp).
  fold (registry_fetcher rnd net k id) in Hf. rewrite Hf.
  destruct (IH (S k)) as [Hm Hs]. split; [| exact Hs].
  cbn [map]. now rewrite Hp, Hm.
Qed.

Lemma message_or_nonempty msg fallback :
  fallback <> EmptyString -> message_or msg fallback <> EmptyString.
Proof. destruct msg; simpl; [tauto | discriminate]. Qed.

(** X11.  Analysing a single identifier with the registry fetcher never
    ends in an error: for an identifier that is not blank the handler makes
    one call with the identifier as typed and ends, not loading, with
    exactly one profile, whose identifier is the trimmed input and for
    which a summary of one researcher exists; for a blank identifier it
    does nothing. *)
Theorem single_analysis_outcome :
  forall (rnd : nat -> nat -> nat -> nat)
         (net : nat -> string -> FetchOutcome)
         (singleId : string) (st : AppState),
    (trim singleId = EmptyString ->
     handleSingleAnalyze (registry_fetcher rnd net) singleId st = (st, []))
    /\ (trim singleId <> EmptyString ->
        exists p s,
          handleSingleAnalyze (registry_fetcher rnd net) singleId st
          = ({| csvFile := csvFile st; loading := false; error := None;
                data := [p] |}, [FetchCall singleId])
          /\ orcidId p = trim singleId
          /\ stats [p] = Some s
          /\ totalResearchers s = 1
          /\ totalPublications s = List.length (works p)).
Proof.
  intros rnd net singleId st. unfold handleSingleAnalyze. split.
  - intros ->. reflexivity.
  - intros Hne. destruct (trim singleId) as [| c t] eqn:E; [congruence |].
    destruct (fetchOrcidData_resolves (rnd 0) singleId (net 0 singleId))
      as (p & Hf & Hp).
    fold (registry_fetcher rnd net 0 singleId) in Hf. rewrite Hf.
    exists p. eexists. split; [reflexivity |].
    split; [now rewrite Hp, E |].
    split; [apply stats_nonempty; discriminate |].
    cbn. split; [reflexivity |]. now rewrite app_nil_r.
Qed.

Lemma single_analysis_witness :
  exists p s,
    handleSingleAnalyze
      (registry_fetcher (fun _ i n => (7 * i + 3) mod n)
                        (fun _ _ => NetworkFailure))
      " 0000-0002-1825-0097 "
      {| csvFile := None; loading := false; error := None; data := [] |}
    = ({| csvFile := None; loading := false; error := None; data := [p] |},
       [FetchCall " 0000-0002-1825-0097 "])
    /\ orcidId p = "0000-0002-1825-0097"
    /\ stats [p] = Some s
    /\ totalResearchers s = 1.
Proof.
  destruct (proj2 (single_analysis_outcome
                     (fun _ i n => (7 * i + 3) mod n)
                     (fun _ _ => NetworkFailure)
                     " 0000-0002-1825-0097 "
                     {| csvFile := None; loading := false; error := None;
                        data := [] |}))
    as (p & s & H1 & H2 & H3 & H4 & _); [discriminate |].
  exists p, s. repeat split; assumption.
Defined.

(** X12.  The Analyze button: while an analysis is loading a click does
    nothing, in either mode.  In single mode a click calls the fetcher
    exactly when nothing is loading and the identifier is not blank, so a
    white-space-only identifier leaves the button enabled and the click
    without effect.  In batch mode an enabled button means a file is chosen
    and the click runs the batch handler. *)
Theorem analyze_button :
  forall (fetcher : nat -> string -> Promise OrcidProfileData)
         (inputType : InputType) (singleId : string) (st : AppState),
    (loading st = true ->
     analyze_click fetcher inputType singleId st = (st, []))
    /\ fetch_calls (snd (analyze_click fetcher single singleId st))
       = (if loading st then []
          else match trim singleId with
               | EmptyString => []
               | _ => [singleId]
               end)
    /\ (singleId <> EmptyString -> trim singleId = EmptyString ->
        analyze_disabled false single singleId (csvFile st) = false
        /\ (loading st = false ->
            analyze_click fetcher single singleId st = (st, [])))
    /\ (analyze_disabled (loading st) batch singleId (csvFile st) = false ->
        csvFile st <> None
        /\ analyze_click fetcher batch singleId st
           = handleBatchAnalyze fetcher st).
Proof.
  intros fetcher inputType singleId st.
  split; [| split; [| split]].
  - intros Hl. unfold analyze_click, analyze_disabled. now rewrite Hl.
  - unfold analyze_click, analyze_disabled, handleSingleAnalyze.
    destruct (loading st); [reflexivity |]. cbn [orb andb].
    destruct singleId as [| c t]; [reflexivity |].
    rewrite orb_false_r. cbn iota.
    destruct (trim (String c t)); [reflexivity |].
    destruct (fetcher 0 (String c t)); reflexivity.
  - intros Hne Hblank. split.
    + unfold analyze_disabled. destruct singleId; [congruence |].
      reflexivity.
    + intros Hl. unfold analyze_click, analyze_disabled.
      rewrite Hl. destruct singleId; [congruence |].
      cbn [orb andb]. unfold handleSingleAnalyze. now rewrite Hblank.
  - intros Hen. unfold analyze_click. rewrite Hen.
    split; [| reflexivity].
    unfold analyze_disabled in Hen. destruct (csvFile st); [discriminate |].
    destruct (loading st); discriminate.
Qed.

Lemma analyze_button_witness :
  analyze_disabled false single "   " None = false
  /\ analyze_click sample_fetcher single "   "
       {| csvFile := None; loading := false; error := None; data := [] |}
     = ({| csvFile := None; loading := false; error := None; data := [] |},
        []).
Proof.
  destruct (proj1 (proj2 (proj2
              (analyze_button sample_fetcher single "   "
                 {| csvFile := None; loading := false; error := None;
                    data := [] |}))))
    as [H1 H2]; [discriminate | reflexivity |].
  split; [exact H1 | exact (H2 eq_refl)].
Defined.

(** X13.  A batch with the registry fetcher: for an upload that yields at
    least one identifier the handler calls the fetcher once per identifier,
    skips none and writes no diagnostic, and ends without error with one
    profile per identifier, in order, each carrying its identifier; a
    summary of as many researchers exists. *)
Theorem batch_with_registry_fetcher :
  forall (rnd : nat -> nat -> nat -> nat)
         (net : nat -> string -> FetchOutcome)
         (st : AppState) (file : FileRead) (ids : list string),
    csvFile st = Some file ->
    parseCsvFile file = resolve ids ->
    ids <> [] ->
    exists st' events s,
      handleBatchAnalyze (registry_fetcher rnd net) st = (st', events)
      /\ error st' = None /\ loading st' = false
      /\ map orcidId (data st') = ids
      /\ fetch_calls events = ids
      /\ warnings events = []
      /\ stats (data st') = Some s
      /\ totalResearchers s = List.length ids.
Proof.
  intros rnd net st file ids Hfile Hparse Hne.
  unfold handleBatchAnalyze. rewrite Hfile, Hparse.
  destruct ids as [| id ids]; [congruence |].
  cbn [List.length Nat.eqb].
  destruct (batch_loop_spec (registry_fetcher rnd net) (id :: ids) 0 [] [])
    as (trace & E & Hc & Hw).
  rewrite E. cbn [app].
  destruct (registry_obtained rnd net (id :: ids) 0) as [Hids Hskip].
  assert (Htrim : map trim (id :: ids) = id :: ids).
  { pose proof (extracted_shape_helper file (id :: ids) Hparse) as Hall.
    clear - Hall. induction Hall as [| x l Hx _ IH]; [reflexivity |].
    cbn [map]. now rewrite Hx, IH. }
  assert (Hdata : obtained (registry_fetcher rnd net) 0 (id :: ids) <> []).
  { intros H. rewrite H in Hids. rewrite Htrim in Hids. discriminate. }
  do 3 eexists. split; [reflexivity |]. cbn [error loading data].
  split; [reflexivity |]. split; [reflexivity |].
  split; [now rewrite Hids |]. split; [exact Hc |].
  split; [now rewrite Hw, Hskip |].
  split; [now apply stats_nonempty |].
  cbn [totalResearchers].
  rewrite <- (length_map orcidId), Hids, Htrim. reflexivity.
Qed.

Lemma batch_with_registry_witness :
  exists st' events s,
    handleBatchAnalyze (registry_fetcher sample_rnd sample_net)
      {| csvFile := Some sample_upload; loading := false; error := None;
         data := [] |} = (st', events)
    /\ map orcidId (data st')
       = ["0000-0002-1825-0097"; "0000-0001-5109-3700"]
    /\ warnings events = []
    /\ stats (data st') = Some s
    /\ totalResearchers s = 2.
Proof.
  destruct (batch_with_registry_fetcher sample_rnd sample_net
              {| csvFile := Some sample_upload; loading := false;
                 error := None; data := [] |}
              sample_upload
              ["0000-0002-1825-0097"; "0000-0001-5109-3700"]
              eq_refl eq_refl)
    as (st' & events & s & H & _ & _ & Hids & _ & Hw & Hs & Hn);
    [discriminate |].
  exists st', events, s. repeat split; assumption.
Defined.

(** X14.  Whenever a handler gets past its guard it leaves the state not
    loading, with the chosen file untouched; an error it leaves is never
    blank and comes with an empty collection, so results and an error are
    never shown together. *)
Theorem handlers_leave_consistent_state :
  forall (fetcher : nat -> string -> Promise OrcidProfileData)
         (singleId : string) (st : AppState),
    let consistent (st' : AppState) :=
      loading st' = false
      /\ csvFile st' = csvFile st
      /\ (forall msg, error st' = Some msg ->
                      msg <> EmptyString /\ data st' = []) in
    (csvFile st <> None ->
     consistent (fst (handleBatchAnalyze fetcher st)))
    /\ (trim singleId <> EmptyString ->
        consistent (fst (handleSingleAnalyze fetcher singleId st))).
Proof.
  intros fetcher singleId st consistent. unfold consistent. split.
  - intros Hfile. unfold handleBatchAnalyze.
    destruct (csvFile st) as [file |] eqn:E; [| congruence].
    destruct (parseCsvFile file) as [ids | msg].
    + destruct (List.length ids =? 0).
      * cbn. repeat split; try assumption;
          injection H as <-; discriminate.
      * destruct (batch_loop fetcher 0 ids [] []) as [results events].
        cbn. repeat split; try assumption; discriminate.
    + cbn. repeat split; try assumption; injection H as <-.
      apply message_or_nonempty. discriminate.
  - intros Hne. unfold handleSingleAnalyze.
    destruct (trim singleId); [congruence |].
    destruct (fetcher 0 singleId) as [p | msg].
    + cbn. repeat split; discriminate.
    + cbn. repeat split; injection H as <-.
      apply message_or_nonempty. discriminate.
Qed.

Lemma handlers_consistent_witness :
  loading (fst (handleBatchAnalyze sample_fetcher
                  {| csvFile := Some ReadFailure; loading := true;
                     error := None; data := [sample_profile] |})) = false
  /\ data (fst (handleBatchAnalyze sample_fetcher
                  {| csvFile := Some ReadFailure; loading := true;
                     error := None; data := [sample_profile] |})) = [].
Proof.
  destruct (proj1 (handlers_leave_consistent_state sample_fetcher ""
                     {| csvFile := Some ReadFailure; loading := true;
                        error := None; data := [sample_profile] |}))
    as (Hl & _ & He); [discriminate |].
  split; [exact Hl |].
  exact (proj2 (He "Failed to read file" eq_refl)).
Defined.

(** ** App: the "Latest Work" cell *)

Lemma year_or_zero_value w : year_or_zero w = Num (year_in_cell w).
Proof.
  unfold year_or_zero, year_in_cell, counted_year.
  destruct (year w) as [[| z] |]; try reflexivity.
  simpl. destruct (z =? 0)%Z; reflexivity.
Qed.

Lemma Math_max_value ws : forall z0,
  Math_max (Num z0) (map year_or_zero ws)
  = Num (fold_left Z.max (map year_in_cell ws) z0).
Proof.
  unfold Math_max. induction ws as [| w ws IH]; intros z0; [reflexivity |].
  cbn [map fold_left]. rewrite year_or_zero_value. cbn [Math_max2].
  apply IH.
Qed.

Lemma fold_max_bounds zs : forall z0,
  (z0 <= fold_left Z.max zs z0)%Z
  /\ Forall (fun z => (z <= fold_left Z.max zs z0)%Z) zs
  /\ In (fold_left Z.max zs z0) (z0 :: zs).
Proof.
  induction zs as [| z zs IH]; intros z0; cbn [fold_left].
  - split; [lia |]. split; [constructor | now left].
  - destruct (IH (Z.max z0 z)) as (H0 & Hall & Hin).
    pose proof (Z.le_max_l z0 z) as Hl. pose proof (Z.le_max_r z0 z) as Hr.
    remember (fold_left Z.max zs (Z.max z0 z)) as X eqn:EX.
    remember (Z.max z0 z) as Y eqn:EY.
    split; [lia |]. split; [constructor; [lia | exact Hall] |].
    subst Y.
    destruct Hin as [E | Hin]; [| right; now right].
    destruct (Z.max_spec z0 z) as [[_ Hm] | [_ Hm]]; rewrite Hm in E.
    + right. now left.
    + now left.
Qed.

(** What the cell shows for a profile with works: the greatest of the
    years the works count for, or "N/A" when that is zero. *)
Lemma latest_work_max p w ws (m : Z) :
  works p = w :: ws ->
  In m (map year_in_cell (works p)) ->
  Forall (fun z => (z <= m)%Z) (map year_in_cell (works p)) ->
  latest_work p
  = if (m =? 0)%Z then "N/A" else Number_toString (Num m).
Proof.
  intros Hw Hin Hall. unfold latest_work. rewrite Hw in *.
  cbn [map]. rewrite year_or_zero_value, Math_max_value.
  destruct (fold_max_bounds (map year_in_cell ws) (year_in_cell w))
    as (H0 & Hle & Hmem).
  set (m' := fold_left Z.max (map year_in_cell ws) (year_in_cell w)) in *.
  assert (m' = m).
  { cbn [map] in Hin, Hall. rewrite Forall_forall in Hall, Hle.
    assert (m' <= m)%Z by (apply Hall; exact Hmem).
    assert (m <= m')%Z.
    { destruct Hin as [<- | Hin]; [exact H0 | now apply Hle]. }
    lia. }
  subst m'. rewrite H. cbn [number_truthy].
  now destruct (m =? 0)%Z.
Qed.

Lemma Number_toString_not_dash z : Number_toString (Num z) <> "-".
Proof.
  unfold Number_toString.
  destruct (decimal_of_N_spec (Z.abs_N z)) as (Hd & Hne & _).
  destruct (decimal_of_N (Z.abs_N z)) as [| c s]; [congruence |].
  destruct (z <? 0)%Z; [discriminate |].
  simpl in Hd. apply andb_true_iff in Hd as [Hc _].
  intros E. injection E as -> _. discriminate Hc.
Qed.

Lemma latest_work_greatest p w z :
  In w (works p) -> counted_year w = Some z ->
  (forall w' z', In w' (works p) -> counted_year w' = Some z' ->
                 (z' <= z)%Z) ->
  ((0 < z)%Z \/ (forall w', In w' (works p) -> counted_year w' <> None)) ->
  latest_work p = Number_toString (Num z).
Proof.
  intros Hw Hz Hmax Hcase.
  destruct (works p) as [| w0 ws] eqn:E; [contradiction |].
  assert (Hnz : z <> 0%Z).
  { unfold counted_year in Hz. destruct (year w) as [[| y] |];
      try discriminate.
    destruct (Z.eqb_spec y 0); [discriminate | congruence]. }
  rewrite (latest_work_max p w0 ws z E).
  - destruct (Z.eqb_spec z 0); [contradiction | reflexivity].
  - rewrite E. apply in_map_iff. exists w. split; [| assumption].
    unfold year_in_cell. now rewrite Hz.
  - rewrite E. apply Forall_forall. intros y Hy.
    apply in_map_iff in Hy as (w' & <- & Hw').
    unfold year_in_cell.
    destruct (counted_year w') as [z' |] eqn:Ez'.
    + now apply (Hmax w' z').
    + destruct Hcase as [Hpos | Hall]; [lia |].
      exfalso. now apply (Hall w' Hw').
Qed.

(** X15.  The "Latest Work" cell shows "-" exactly for a profile without
    works.  For a profile with works it shows the greatest year among its
    works when that year is positive; it shows "N/A" when no work has a
    positive year and some work has no counted year (null, NaN or zero);
    and when every work has a negative year it shows the greatest of
    them. *)
Theorem latest_work_cell :
  forall p : OrcidProfileData,
    (latest_work p = "-" <-> works p = [])
    /\ (forall w z,
           In w (works p) -> counted_year w = Some z ->
           (forall w' z', In w' (works p) -> counted_year w' = Some z' ->
                          (z' <= z)%Z) ->
           ((0 < z)%Z
            \/ (forall w', In w' (works p) -> counted_year w' <> None)) ->
           latest_work p = Number_toString (Num z))
    /\ (works p <> [] ->
        (forall w z, In w (works p) -> counted_year w = Some z -> (z < 0)%Z) ->
        (exists w, In w (works p) /\ counted_year w = None) ->
        latest_work p = "N/A").
Proof.
  intros p. split; [| split].
  - split.
    + intros H. destruct (works p) as [| w ws] eqn:E; [reflexivity |].
      exfalso. unfold latest_work in H. rewrite E in H. cbn [map] in H.
      rewrite year_or_zero_value, Math_max_value in H.
      cbn [number_truthy] in H.
      destruct (negb _); [| discriminate].
      now apply Number_toString_not_dash in H.
    + intros E. unfold latest_work. now rewrite E.
  - apply latest_work_greatest.
  - intros Hne Hneg (w & Hw & Hnone).
    destruct (works p) as [| w0 ws] eqn:E; [congruence |].
    rewrite (latest_work_max p w0 ws 0%Z E); [reflexivity | |].
    + rewrite E. apply in_map_iff. exists w. split; [| assumption].
      unfold year_in_cell. now rewrite Hnone.
    + rewrite E. apply Forall_forall. intros y Hy.
      apply in_map_iff in Hy as (w' & <- & Hw').
      unfold year_in_cell.
      destruct (counted_year w') as [z' |] eqn:Ez'; [| lia].
      specialize (Hneg w' z' Hw' Ez'). lia.
Qed.

Lemma latest_work_witness : latest_work sample_profile = "2021".
Proof.
  apply (proj1 (proj2 (latest_work_cell sample_profile))
           (sample_work (Some (Num 2021)) (Some "JOURNAL_ARTICLE"))
           2021%Z).
  - now left.
  - reflexivity.
  - intros w' z' Hw' Hz'. simpl in Hw'.
    destruct Hw' as [<- | [<- | [<- | [<- | []]]]];
      injection Hz' as <- || discriminate Hz'; discriminate.
  - left. reflexivity.
Defined.

Lemma sorted_last_greatest {A : Type} (R : A -> A -> Prop) (d : A) l :
  StronglySorted R l ->
  forall y, In y l -> y = last l d \/ R y (last l d).
Proof.
  induction 1 as [| x l Hs IH Hall]; intros y Hy; [contradiction |].
  destruct l as [| x' l'].
  - destruct Hy as [<- | []]. now left.
  - change (last (x :: x' :: l') d) with (last (x' :: l') d).
    destruct Hy as [<- | Hy]; [| now apply IH].
    right. rewrite Forall_forall in Hall. apply Hall.
    assert (Hne : x' :: l' <> []) by discriminate.
    destruct (exists_last Hne) as (l0 & a & E). rewrite E.
    rewrite last_last. apply in_or_app. right. now left.
Qed.

Lemma last_map {A B : Type} (f : A -> B) (l : list A) (d : A) :
  last (map f l) (f d) = f (last l d).
Proof.
  induction l as [| x l IH]; [reflexivity |].
  destruct l as [| x' l']; [reflexivity |]. exact IH.
Qed.

(** X16.  The cell and the chart agree: for a profile analysed alone whose
    works have years that are safe integers (or null, or NaN) and a
    greatest counted year, the last entry of the year histogram is that
    year with the number of works of that year, and when the year is
    positive the "Latest Work" cell shows it. *)
Theorem latest_work_is_last_bar :
  forall (p : OrcidProfileData) (w : OrcidWork) (z : Z),
    Forall safe_year (works p) ->
    In w (works p) -> counted_year w = Some z ->
    (forall w' z', In w' (works p) -> counted_year w' = Some z' ->
                   (z' <= z)%Z) ->
    exists s,
      stats [p] = Some s
      /\ last (publicationsByYear s) (NaN, Count 0)
         = (Num z, Count (works_in_year z (works p)))
      /\ ((0 < z)%Z ->
          latest_work p
          = Number_toString
              (fst (last (publicationsByYear s) (NaN, Count 0)))).
Proof.
  intros p w z _ Hw Hz Hmax.
  eexists. split; [apply stats_nonempty; discriminate |].
  cbn [publicationsByYear].
  assert (Hws : all_works [p] = works p)
    by (unfold all_works; simpl; apply app_nil_r).
  rewrite Hws.
  set (hist := Array_sort
                 (fun a b => compare_result (number_sub (fst a) (fst b)))
                 (map (fun e => (parseInt (fst e) None, snd e))
                    (tally (year_keys (works p))))).
  assert (Hnz : z <> 0%Z).
  { unfold counted_year in Hz. destruct (year w) as [[| y] |];
      try discriminate.
    destruct (Z.eqb_spec y 0); [discriminate | congruence]. }
  assert (Hpos : 0 < works_in_year z (works p)).
  { unfold works_in_year.
    assert (Hin : In w (filter
                          (fun w => match counted_year w with
                                    | Some z' => (z' =? z)%Z
                                    | None => false
                                    end) (works p))).
    { apply filter_In. split; [assumption |].
      rewrite Hz. apply Z.eqb_refl. }
    destruct (filter _ (works p)); [contradiction | simpl; lia]. }
  assert (Hin : In (Num z, works_in_year z (works p)) hist).
  { apply year_histogram_In. exists z. tauto. }
  assert (Hlast : last hist (NaN, 0) = (Num z, works_in_year z (works p))).
  { destruct (sorted_last_greatest _ (NaN, 0) hist
                (year_histogram_sorted (works p)) _ Hin) as [E | Hlt];
      [now symmetry |].
    exfalso.
    assert (Hl : In (last hist (NaN, 0)) hist).
    { destruct hist as [| e l]; [contradiction |].
      assert (Hne : e :: l <> []) by discriminate.
      destruct (exists_last Hne) as (l0 & a & E). rewrite E, last_last.
      apply in_or_app. right. now left. }
    destruct (last hist (NaN, 0)) as [y c].
    apply year_histogram_In in Hl as (z' & -> & _ & -> & Hpos').
    apply works_in_year_pos in Hpos' as (w' & Hw' & Hz').
    specialize (Hmax w' z' Hw' Hz'). simpl in Hlt. lia. }
  assert (Hlast' : last (counts hist) (NaN, Count 0)
                   = (Num z, Count (works_in_year z (works p)))).
  { unfold counts.
    change (NaN, Count 0)
      with ((fun e : number * nat => (fst e, Count (snd e))) (NaN, 0)).
    rewrite last_map. now rewrite Hlast. }
  split; [exact Hlast' |].
  intros Hz0. rewrite Hlast'. cbn [fst].
  apply (latest_work_greatest p w z); auto.
Qed.

Lemma latest_work_last_bar_witness :
  exists s,
    stats [sample_profile] = Some s
    /\ last (publicationsByYear s) (NaN, Count 0) = (Num 2021, Count 2)
    /\ latest_work sample_profile
       = Number_toString
           (fst (last (publicationsByYear s) (NaN, Count 0))).
Proof.
  destruct (latest_work_is_last_bar sample_profile
              (sample_work (Some (Num 2021)) (Some "JOURNAL_ARTICLE"))
              2021%Z) as (s & Hs & Hlast & Hcell).
  - repeat constructor; unfold safe_integer; simpl; lia.
  - now left.
  - reflexivity.
  - intros w' z' Hw' Hz'. simpl in Hw'.
    destruct Hw' as [<- | [<- | [<- | [<- | []]]]];
      injection Hz' as <- || discriminate Hz'; discriminate.
  - exists s. split; [exact Hs |]. split; [exact Hlast |].
    apply Hcell. reflexivity.
Defined.

(** ** ChatBot: one exchange *)

Lemma show_response_untouched mid full msgs :
  Forall (fun m => msg_id m <> mid) msgs ->
  show_response mid full msgs = msgs.
Proof.
  induction 1 as [| m msgs Hm _ IH]; [reflexivity |].
  unfold show_response in *. cbn [map]. rewrite IH.
  apply String.eqb_neq in Hm. now rewrite Hm.
Qed.

Lemma show_response_model now full seen full' old :
  Forall (fun m => msg_id m <> Number_toString (Num (now 2 + 1))) old ->
  show_response (Number_toString (Num (now 2 + 1))) full'
    (old ++ [model_message now full seen])
  = old ++ [model_message now full' true].
Proof.
  intros Hold. unfold show_response. rewrite map_app.
  fold (show_response (Number_toString (Num (now 2 + 1))) full' old).
  rewrite (show_response_untouched _ _ _ Hold).
  cbn [map model_message msg_id]. now rewrite String.eqb_refl.
Qed.

Lemma truthy_chunk c :
  match truthy c with
  | Some t => chunk_texts [c] = t
  | None => chunk_texts [c] = EmptyString
  end.
Proof.
  destruct c as [[| a t] |]; simpl; try reflexivity.
  now rewrite append_empty_r.
Qed.

Lemma chunk_texts_cons c rest :
  chunk_texts (c :: rest) = (chunk_texts [c] +++ chunk_texts rest)%string.
Proof.
  destruct c as [t |]; simpl; [| reflexivity].
  now rewrite append_empty_r.
Qed.

(** The loop over a stream of chunks: the model's message ends up holding
    the texts received, in order. *)
Lemma consume_stream_chunks now old (threw : bool) chunks :
  forall full seen,
    Forall (fun m => msg_id m <> Number_toString (Num (now 2 + 1))) old ->
    consume_stream (Number_toString (Num (now 2 + 1)))
      (stream_of chunks (if threw then StreamThrow else StreamEnd))
      full (old ++ [model_message now full seen])
    = (old ++ [model_message now (full +++ chunk_texts chunks)
                 (seen || any_text chunks)], threw).
Proof.
  induction chunks as [| c chunks IH]; intros full seen Hold.
  - cbn [stream_of chunk_texts any_text existsb].
    rewrite append_empty_r, orb_false_r. now destruct threw.
  - cbn [stream_of consume_stream]. rewrite (chunk_texts_cons c chunks).
    pose proof (truthy_chunk c) as Hc.
    unfold any_text. cbn [existsb]. fold (any_text chunks).
    destruct (truthy c) as [t |].
    + rewrite (show_response_model now full seen _ old Hold).
      rewrite (IH _ true Hold). rewrite Hc.
      now rewrite append_assoc_string, orb_true_r.
    + rewrite (IH full seen Hold). rewrite Hc. reflexivity.
Qed.

Lemma consume_stream_headers mid stream : forall full msgs,
  Forall2 (fun a b => same_header a b /\ (b = a \/ msg_id a = mid))
    msgs (fst (consume_stream mid stream full msgs)).
Proof.
  assert (Hrefl : forall msgs : list ChatMessage,
            Forall2 (fun a b => same_header a b /\ (b = a \/ msg_id a = mid))
              msgs msgs).
  { induction msgs as [| m msgs IH]; constructor; [| exact IH].
    unfold same_header. tauto. }
  induction stream as [| | c rest IH]; intros full msgs;
    [apply Hrefl | apply Hrefl |].
  cbn [consume_stream]. destruct (truthy c) as [t |]; [| apply IH].
  specialize (IH (full +++ t)%string (show_response mid (full +++ t) msgs)).
  revert IH.
  generalize (fst (consume_stream mid rest (full +++ t)
                     (show_response mid (full +++ t) msgs))).
  unfold show_response.
  induction msgs as [| m msgs IHm]; intros final H; cbn [map] in H.
  - inversion H. constructor.
  - inversion H as [| m1 f1 ? fs [Hh Hc] Hrest]; subst.
    constructor; [| now apply IHm].
    unfold same_header in *.
    destruct (String.eqb_spec (msg_id m) mid) as [E | E].
    + cbn [msg_id role timestamp] in Hh. split; [tauto | now right].
    + split; [exact Hh | exact Hc].
Qed.

(** X17.  An exchange whose stream ends normally: when the input is not
    blank, a session exists, the clock has not gone back and no earlier
    message carries the identifier of the new model message, the history
    gains the user's message (the input as typed) and one model message
    whose text is the texts of the chunks in order of arrival; that message
    stays in the thinking state exactly when no chunk carried text.  The
    input is sent as typed and cleared, and nothing is left processing. *)
Theorem chat_exchange_streams :
  forall (now : nat -> Z) (chunks : list (option string))
         (st : ChatState) (cfg : ChatConfig),
    trim (inputValue st) <> EmptyString ->
    chatSession st = Some cfg ->
    (now 0%nat <= now 2%nat)%Z ->
    Forall (fun m => msg_id m <> Number_toString (Num (now 2 + 1)))
      (messages st) ->
    handleSend now (SendStream (stream_of chunks StreamEnd)) st
    = ({| messages :=
            messages st
            ++ [user_message now st;
                model_message now (chunk_texts chunks) (any_text chunks)];
          inputValue := EmptyString;
          isProcessing := false;
          chatSession := Some cfg |},
       [Sent (inputValue st)]).
Proof.
  intros now chunks st cfg Hin Hs Hclock Hold.
  unfold handleSend. rewrite Hs.
  destruct (trim (inputValue st)); [congruence |].
  assert (Hold' : Forall (fun m => msg_id m
                                   <> Number_toString (Num (now 2 + 1)))
                    (messages st ++ [user_message now st])).
  { apply Forall_app. split; [exact Hold |].
    constructor; [| constructor]. cbn [user_message msg_id].
    intros E. apply Number_toString_inj in E. lia. }
  pose proof (consume_stream_chunks now _ false chunks EmptyString false
                Hold') as Hc.
  cbn [orb append] in Hc. unfold model_message at 1 in Hc. cbn [negb] in Hc.
  fold (user_message now st). rewrite Hc.
  now rewrite <- app_assoc.
Qed.

Lemma chat_exchange_streams_witness :
  messages
    (fst (handleSend (fun n => 1000 + Z.of_nat n)%Z
            (SendStream (stream_of [Some "Hel"; None; Some ""; Some "lo"]
                           StreamEnd))
            {| messages := []; inputValue := "Hi"; isProcessing := false;
               chatSession :=
                 Some {| model := "gemini-3-pro-preview";
                         config_systemInstruction := preamble |} |}))
  = [ {| msg_id := "1000"; role := Role_user; text := "Hi";
         timestamp := 1001; isThinking := None |};
      {| msg_id := "1003"; role := Role_model; text := "Hello";
         timestamp := 1003; isThinking := Some false |} ].
Proof.
  rewrite (chat_exchange_streams (fun n => 1000 + Z.of_nat n)%Z
             [Some "Hel"; None; Some ""; Some "lo"] _
             {| model := "gemini-3-pro-preview";
                config_systemInstruction := preamble |}).
  - reflexivity.
  - discriminate.
  - reflexivity.
  - discriminate.
  - constructor.
Defined.

(** X18.  An exchange that fails: when the request is rejected the
    history gains the user's message and the apology; when the stream
    throws after some chunks (under the conditions of X17) the history
    gains the user's message, the model message holding the texts received
    so far, and the apology.  Either way the failure is reported on the
    console and nothing is left processing. *)
Theorem chat_exchange_fails :
  forall (now : nat -> Z) (chunks : list (option string))
         (st : ChatState) (cfg : ChatConfig),
    trim (inputValue st) <> EmptyString ->
    chatSession st = Some cfg ->
    handleSend now SendRejected st
    = ({| messages :=
            messages st ++ [user_message now st; apology_message now 2];
          inputValue := EmptyString;
          isProcessing := false;
          chatSession := Some cfg |},
       [Sent (inputValue st); ConsoleError])
    /\ ((now 0%nat <= now 2%nat)%Z ->
        Forall (fun m => msg_id m <> Number_toString (Num (now 2 + 1)))
          (messages st) ->
        handleSend now (SendStream (stream_of chunks StreamThrow)) st
        = ({| messages :=
                messages st
                ++ [user_message now st;
                    model_message now (chunk_texts chunks)
                      (any_text chunks);
                    apology_message now 4];
              inputValue := EmptyString;
              isProcessing := false;
              chatSession := Some cfg |},
           [Sent (inputValue st); ConsoleError])).
Proof.
  intros now chunks st cfg Hin Hs. unfold handleSend. rewrite Hs.
  destruct (trim (inputValue st)); [congruence |]. split.
  - fold (user_message now st) (apology_message now 2).
    now rewrite <- app_assoc.
  - intros Hclock Hold.
    assert (Hold' : Forall (fun m => msg_id m
                                     <> Number_toString (Num (now 2 + 1)))
                      (messages st ++ [user_message now st])).
    { apply Forall_app. split; [exact Hold |].
      constructor; [| constructor]. cbn [user_message msg_id].
      intros E. apply Number_toString_inj in E. lia. }
    pose proof (consume_stream_chunks now _ true chunks EmptyString false
                  Hold') as Hc.
    cbn [orb append] in Hc. unfold model_message at 1 in Hc.
    cbn [negb] in Hc.
    fold (user_message now st) (apology_message now 4). rewrite Hc.
    now rewrite <- !app_assoc.
Qed.

Lemma chat_exchange_fails_witness :
  map text
    (messages
       (fst (handleSend (fun n => 1000 + Z.of_nat n)%Z
               (SendStream (stream_of [Some "Hel"] StreamThrow))
               {| messages := []; inputValue := "Hi"; isProcessing := false;
                  chatSession :=
                    Some {| model := "gemini-3-pro-preview";
                            config_systemInstruction := preamble |} |})))
  = ["Hi"; "Hel"; apology].
Proof.
  destruct (chat_exchange_fails (fun n => 1000 + Z.of_nat n)%Z
              [Some "Hel"]
              {| messages := []; inputValue := "Hi"; isProcessing := false;
                 chatSession :=
                   Some {| model := "gemini-3-pro-preview";
                           config_systemInstruction := preamble |} |}
              {| model := "gemini-3-pro-preview";
                 config_systemInstruction := preamble |})
    as [_ H].
  - discriminate.
  - reflexivity.
  - rewrite H; [reflexivity | simpl; lia | constructor].
Defined.

(** X19.  Whatever the outcome of an exchange, the history is kept: every
    earlier message stays in its place with its identifier, author and
    time, and with its text too unless it carries the identifier of the
    new model message; at most three messages are added.  With a blank
    input or without a session nothing changes and nothing is sent;
    otherwise the input is sent exactly once, as typed, and the handler
    ends with the input cleared and not processing. *)
Theorem chat_history_kept :
  forall (now : nat -> Z) (outcome : SendOutcome) (st : ChatState),
    let st' := fst (handleSend now outcome st) in
    let events := snd (handleSend now outcome st) in
    (exists kept added,
        messages st' = kept ++ added
        /\ List.length added <= 3
        /\ Forall2 (fun a b =>
                      same_header a b
                      /\ (b = a
                          \/ msg_id a = Number_toString (Num (now 2 + 1))))
             (messages st) kept)
    /\ (trim (inputValue st) = EmptyString \/ chatSession st = None ->
        st' = st /\ events = [])
    /\ (trim (inputValue st) <> EmptyString -> chatSession st <> None ->
        fetch_sent events = [inputValue st]
        /\ inputValue st' = EmptyString
        /\ isProcessing st' = false
        /\ chatSession st' = chatSession st).
Proof.
  intros now outcome st st' events.
  assert (Hrefl : forall msgs : list ChatMessage,
            Forall2 (fun a b =>
                       same_header a b
                       /\ (b = a
                           \/ msg_id a = Number_toString (Num (now 2 + 1))))
              msgs msgs).
  { induction msgs as [| m msgs IH]; constructor; [| exact IH].
    unfold same_header. tauto. }
  unfold st', events, handleSend.
  destruct (trim (inputValue st)) as [| c t] eqn:Ht.
  - split; [| split].
    + exists (messages st), []. rewrite app_nil_r.
      split; [reflexivity |]. split; [simpl; lia | apply Hrefl].
    + intros _. split; reflexivity.
    + intros H. congruence.
  - destruct (chatSession st) as [cfg |] eqn:Hs.
    + split; [| split].
      * destruct outcome as [| stream].
        -- cbn [fst messages]. exists (messages st). eexists.
           rewrite <- app_assoc. split; [reflexivity |].
           split; [simpl; lia | apply Hrefl].
        -- pose proof (consume_stream_headers
                         (Number_toString (Num (now 2 + 1))) stream
                         EmptyString
                         ((messages st
                           ++ [ {| msg_id := Number_toString (Num (now 0));
                                   role := Role_user;
                                   text := inputValue st;
                                   timestamp := now 1;
                                   isThinking := None |} ])
                          ++ [ {| msg_id :=
                                    Number_toString (Num (now 2 + 1));
                                  role := Role_model;
                                  text := EmptyString;
                                  timestamp := now 3;
                                  isThinking := Some true |} ])) as Hh.
           destruct (consume_stream _ stream _ _) as [msgs3 threw].
           cbn [fst] in Hh. rewrite <- app_assoc in Hh.
           apply Forall2_app_inv_l in Hh
             as (kept & added & Hk & Ha & ->).
           assert (Hlen : List.length added = 2).
           { apply Forall2_length in Ha. simpl in Ha. lia. }
           destruct threw; cbn [fst messages].
           ++ exists kept. eexists. rewrite <- app_assoc.
              split; [reflexivity |]. split; [| exact Hk].
              rewrite length_app. simpl. lia.
           ++ exists kept, added. split; [reflexivity |].
              split; [lia | exact Hk].
      * intros [H | H]; congruence.
      * intros _ _. destruct outcome as [| stream];
          [repeat split |].
        destruct (consume_stream _ stream _ _) as [msgs3 [|]];
          repeat split.
    + split; [| split].
      * exists (messages st), []. rewrite app_nil_r.
        split; [reflexivity |]. split; [simpl; lia | apply Hrefl].
      * intros _. split; reflexivity.
      * intros _ H. congruence.
Qed.

Lemma chat_history_witness :
  handleSend (fun n => Z.of_nat n) SendRejected
    {| messages := []; inputValue := "  "; isProcessing := false;
       chatSession := None |}
  = ({| messages := []; inputValue := "  "; isProcessing := false;
        chatSession := None |}, []).
Proof.
  destruct (proj1 (proj2 (chat_history_kept (fun n => Z.of_nat n)
                            SendRejected
                            {| messages := []; inputValue := "  ";
                               isProcessing := false;
                               chatSession := None |}))
              (or_introl eq_refl)) as [H1 H2].
  now rewrite (surjective_pairing (handleSend _ _ _)), H1, H2.
Defined.
